(** * codemap: the dependency-flow renderer (renderer/depgraph.py)

    A shallow embedding of the Python module [renderer/depgraph.py] and the
    properties its specification states about it.

    Conventions of the embedding.
    - A Python [str] is a [string]; a character is one [ascii] code.  The
      model is exact on ASCII text; the box-drawing glyphs of the output are
      carried as their UTF-8 bytes inside string literals and are only ever
      concatenated.
    - A Python [dict] is an insertion-ordered association list ([odict]),
      because the renderer iterates dictionaries and a stable sort makes the
      iteration order visible.
    - [print] appends one line to the output, which is a [list string]. *)

From Stdlib Require Import Ascii String.
From stdpp Require Import base decidable option list numbers strings pretty sorting gmap.

Local Open Scope string_scope.
Local Open Scope list_scope.
Local Open Scope nat_scope.

(** ** Python string primitives *)

Module Py.

Definition LF : ascii := "010"%char.

(** [c in chars] for a character and a set of characters. *)
Definition chr_in (c : ascii) (chars : list ascii) : bool :=
  bool_decide (c ∈ chars).

(** [str.lower()] on ASCII. *)
Definition chr_lower (c : ascii) : ascii :=
  let n := nat_of_ascii c in
  if (65 <=? n)%nat && (n <=? 90)%nat then ascii_of_nat (n + 32) else c.

Definition chr_upper (c : ascii) : ascii :=
  let n := nat_of_ascii c in
  if (97 <=? n)%nat && (n <=? 122)%nat then ascii_of_nat (n - 32) else c.

Definition chr_is_alpha (c : ascii) : bool :=
  let n := nat_of_ascii c in
  ((65 <=? n)%nat && (n <=? 90)%nat) || ((97 <=? n)%nat && (n <=? 122)%nat).

Definition chr_is_digit (c : ascii) : bool :=
  let n := nat_of_ascii c in (48 <=? n)%nat && (n <=? 57)%nat.

Fixpoint lower (s : string) : string :=
  match s with
  | "" => ""
  | String c r => String (chr_lower c) (lower r)
  end.

(** [str.title()]: a letter is upper-cased when the character before it is
    not a letter and lower-cased otherwise. *)
Fixpoint title_go (prev_cased : bool) (s : string) : string :=
  match s with
  | "" => ""
  | String c r =>
      String (if prev_cased then chr_lower c else chr_upper c)
             (title_go (chr_is_alpha c) r)
  end.
Definition title (s : string) : string := title_go false s.

Definition is_empty (s : string) : bool :=
  match s with "" => true | _ => false end.

(** [c in s] for a one-character needle. *)
Fixpoint contains (c : ascii) (s : string) : bool :=
  match s with
  | "" => false
  | String a r => bool_decide (a = c) || contains c r
  end.

(** [s.startswith(c)] for a one-character prefix. *)
Definition startswith (c : ascii) (s : string) : bool :=
  match s with
  | String a _ => bool_decide (a = c)
  | "" => false
  end.

(** [s.lstrip(chars)], [s.rstrip(chars)], [s.strip(chars)]. *)
Fixpoint lstrip (chars : list ascii) (s : string) : string :=
  match s with
  | String c r => if chr_in c chars then lstrip chars r else s
  | "" => ""
  end.

Fixpoint rstrip (chars : list ascii) (s : string) : string :=
  match s with
  | String c r =>
      let r' := rstrip chars r in
      if is_empty r' && chr_in c chars then "" else String c r'
  | "" => ""
  end.

Definition strip (chars : list ascii) (s : string) : string :=
  rstrip chars (lstrip chars s).

(** [s.split(sep)] for a one-character separator: never the empty list. *)
Fixpoint split (sep : ascii) (s : string) : list string :=
  match s with
  | "" => [""]
  | String c r =>
      if bool_decide (c = sep) then "" :: split sep r
      else match split sep r with
           | h :: t => String c h :: t
           | [] => [String c ""]
           end
  end.

(** [l[-1]] and [l[-2]] on a list of strings; the callers index lists that
    are long enough, and the default stands for Python's IndexError. *)
Definition last_item (l : list string) : string := List.last l "".
Definition last_but_one (l : list string) : string :=
  List.last (removelast l) "".

(** [s.replace(a, b)] for one-character [a] and [b]. *)
Fixpoint replace (a b : ascii) (s : string) : string :=
  match s with
  | "" => ""
  | String c r => String (if bool_decide (c = a) then b else c) (replace a b r)
  end.

(** [c * n]. *)
Fixpoint repeat (s : string) (n : nat) : string :=
  match n with
  | O => ""
  | S k => s +:+ repeat s k
  end.

(** [sep.join(l)]. *)
Fixpoint join (sep : string) (l : list string) : string :=
  match l with
  | [] => ""
  | [x] => x
  | x :: r => x +:+ sep +:+ join sep r
  end.

(** [s[:n]] and [s[n:]] for [n >= 0]. *)
Fixpoint take (n : nat) (s : string) : string :=
  match n, s with
  | S k, String c r => String c (take k r)
  | _, _ => ""
  end.

Fixpoint drop (n : nat) (s : string) : string :=
  match n, s with
  | S k, String _ r => drop k r
  | _, _ => s
  end.

(** [s[:k]] for any integer [k]: a negative [k] counts from the end. *)
Definition slice_to (k : Z) (s : string) : string :=
  if (k <? 0)%Z then take (String.length s - Z.to_nat (- k)) s
  else take (Z.to_nat k) s.

(** [s * k] for any integer [k]: empty when [k <= 0]. *)
Definition repeat_z (s : string) (k : Z) : string := repeat s (Z.to_nat k).

(** [len(s)] as an integer. *)
Definition len (s : string) : Z := Z.of_nat (String.length s).

(** The characters [str.strip()] removes, within ASCII. *)
Definition whitespace : list ascii :=
  map ascii_of_nat [9; 10; 11; 12; 13; 28; 29; 30; 31; 32].

(** [s.ljust(w)], also the format spec [:<w]. *)
Definition ljust (w : nat) (s : string) : string :=
  s +:+ repeat " " (w - String.length s).

(** [s.center(w)]: CPython puts the odd space on the left exactly when the
    margin and the width are both odd. *)
Definition center (w : nat) (s : string) : string :=
  let marg := w - String.length s in
  let left := marg / 2 + (if Nat.odd marg && Nat.odd w then 1 else 0) in
  repeat " " left +:+ s +:+ repeat " " (marg - left).

(** [s.rfind(sub)]: the highest index where [sub] starts, [None] for -1. *)
Fixpoint rfind (sub s : string) : option nat :=
  match s with
  | "" => if is_empty sub then Some 0 else None
  | String _ r =>
      match rfind sub r with
      | Some i => Some (S i)
      | None => if String.prefix sub s then Some 0 else None
      end
  end.

(** [str(n)] for a non-negative integer. *)
Definition str_nat (n : nat) : string := pretty n.

(** [x in l] for strings. *)
Definition mem (x : string) (l : list string) : bool := bool_decide (x ∈ l).

(** [sorted(l, key)] as a stable insertion sort: [le x y] says that the
    key of [x] is at most the key of [y]; an element is put in front of the
    elements that came after it and have an equal key. *)
Section sorted.
Context {A : Type} (le : A → A → bool).
Fixpoint insert_sorted (x : A) (l : list A) : list A :=
  match l with
  | [] => [x]
  | y :: r => if le x y then x :: y :: r else y :: insert_sorted x r
  end.
Definition sorted (l : list A) : list A := foldr insert_sorted [] l.
End sorted.

(** [os.path.basename] (POSIX): everything after the last slash. *)
Definition basename (p : string) : string := last_item (split "/" p).

End Py.

(** ** The fragment of Python's [re] that the module uses

    A backtracking matcher in continuation-passing style: alternatives are
    tried left to right, [+] is greedy, [.] does not match a line feed, and
    [$] holds at the end of the subject and also just before a line feed that
    ends it.  Repetition applies to a single character class, which is all
    the patterns of the module need, and keeps the matcher structural. *)

Module Re.

Inductive cls : Type :=
| CChar (c : ascii)            (* a literal character, escaped or not *)
| CAny                         (* .      *)
| CNot (cs : list ascii)       (* [^cs]  *)
| CDigit.                      (* \d     *)

Inductive re : Type :=
| One (c : cls)
| Plus (c : cls)               (* c+     *)
| Seq (r1 r2 : re)
| Alt (r1 r2 : re)
| Eps                          (* the empty pattern *)
| Bol                          (* ^      *)
| Eol.                         (* $      *)

Definition cls_ok (c : cls) (a : ascii) : bool :=
  match c with
  | CChar x => bool_decide (a = x)
  | CAny => negb (bool_decide (a = Py.LF))
  | CNot cs => negb (Py.chr_in a cs)
  | CDigit => Py.chr_is_digit a
  end.

Definition at_eol (s : string) : bool :=
  match s with
  | "" => true
  | String a "" => bool_decide (a = Py.LF)
  | _ => false
  end.

(** The continuation receives the position and the rest of the subject and
    answers with the rest of the subject after the whole match. *)
Definition kont : Type := nat → string → option string.

Fixpoint plus_greedy (c : cls) (pos : nat) (s : string) (k : kont) : option string :=
  match s with
  | String a r =>
      if cls_ok c a then
        match plus_greedy c (S pos) r k with
        | Some rest => Some rest
        | None => k (S pos) r
        end
      else None
  | "" => None
  end.

Fixpoint run (r : re) (pos : nat) (s : string) (k : kont) : option string :=
  match r with
  | One c =>
      match s with
      | String a t => if cls_ok c a then k (S pos) t else None
      | "" => None
      end
  | Plus c => plus_greedy c pos s k
  | Seq r1 r2 => run r1 pos s (fun pos' s' => run r2 pos' s' k)
  | Alt r1 r2 =>
      match run r1 pos s k with
      | Some rest => Some rest
      | None => run r2 pos s k
      end
  | Eps => k pos s
  | Bol => if bool_decide (pos = 0) then k pos s else None
  | Eol => if at_eol s then k pos s else None
  end.

(** A match attempt anchored at [pos]: the rest of the subject after it. *)
Definition match_at (r : re) (pos : nat) (s : string) : option string :=
  run r pos s (fun _ rest => Some rest).

(** [re.match(r, s)] as a truth value. *)
Definition matches (r : re) (s : string) : bool :=
  bool_decide (is_Some (match_at r 0 s)).

(** [re.sub(r, '', s)]: scan from the left; where the pattern matches, drop
    the matched characters ([skip] counts those still to drop), otherwise
    keep the character and move on.  After an empty match the scan keeps
    the character and moves on; no pattern of the module matches the empty
    string. *)
Fixpoint sub_from (r : re) (pos skip : nat) (s : string) : string :=
  match skip with
  | S k =>
      match s with
      | String _ t => sub_from r (S pos) k t
      | "" => ""
      end
  | O =>
      match s with
      | "" => ""
      | String c t =>
          match match_at r pos s with
          | Some rest =>
              let len := String.length s - String.length rest in
              match len with
              | O => String c (sub_from r (S pos) 0 t)
              | S n => sub_from r (S pos) n t
              end
          | None => String c (sub_from r (S pos) 0 t)
          end
      end
  end.

Definition sub (r : re) (s : string) : string := sub_from r 0 0 s.

(** Building patterns. *)
Definition lit (c : ascii) : re := One (CChar c).

Fixpoint word (s : string) : re :=
  match s with
  | "" => Eps
  | String c "" => lit c
  | String c t => Seq (lit c) (word t)
  end.

(** [(w|w1|...|wn)]. *)
Fixpoint alts (w : string) (ws : list string) : re :=
  match ws with
  | [] => word w
  | w' :: t => Alt (word w) (alts w' t)
  end.

End Re.

(** ** Insertion-ordered dictionaries *)

Module Od.

Definition odict (V : Type) : Type := list (string * V).

Section ops.
Context {V : Type}.

(** [d.get(k)] *)
Fixpoint get (d : odict V) (k : string) : option V :=
  match d with
  | [] => None
  | (k', v) :: r => if bool_decide (k' = k) then Some v else get r k
  end.

(** [k in d] *)
Definition has (d : odict V) (k : string) : bool :=
  bool_decide (is_Some (get d k)).

(** [d[k] = v]: an existing key keeps its place, a new one goes last. *)
Fixpoint set (d : odict V) (k : string) (v : V) : odict V :=
  match d with
  | [] => [(k, v)]
  | (k', v') :: r =>
      if bool_decide (k' = k) then (k', v) :: r else (k', v') :: set r k v
  end.

(** [d[k]] on a [defaultdict]: the value, and the dictionary in which a
    missing key has been given the default. *)
Definition touch (dflt : V) (d : odict V) (k : string) : odict V :=
  match get d k with
  | Some _ => d
  | None => set d k dflt
  end.

Definition keys (d : odict V) : list string := d.*1.
Definition values (d : odict V) : list V := d.*2.
End ops.

(** [d[k].append(x)] on a [defaultdict(list)]. *)
Definition append {A : Type} (d : odict (list A)) (k : string) (x : A) : odict (list A) :=
  set d k (default [] (get d k) ++ [x]).

(** [d[k] += 1] on a [defaultdict(int)]. *)
Definition incr (d : odict nat) (k : string) : odict nat :=
  set d k (default 0 (get d k) + 1).

End Od.

(** ** The input of the renderer *)

(** A file record is a Python dictionary read with [.get]: every field may
    be absent. *)
Record FileRecord : Type := mkFile {
  f_path : option string;
  f_language : option string;
  f_imports : option (list string);
  f_functions : option (list string)
}.

Record Data : Type := mkData {
  d_files : option (list FileRecord);
  d_external_deps : option (Od.odict (list string))
}.

(** [f.get("path", "")], [f.get("language", "")], [f.get("imports") or []],
    [f.get("functions") or []]. *)
Definition path_of (f : FileRecord) : string := default "" (f_path f).
Definition language_of (f : FileRecord) : string := default "" (f_language f).
Definition imports_of (f : FileRecord) : list string := default [] (f_imports f).
Definition functions_of (f : FileRecord) : list string := default [] (f_functions f).

(** ** Import normalisation and internal dependencies *)

Definition LANG_GROUPS : Od.odict string :=
  [ ("python", "python"); ("go", "go"); ("javascript", "js");
    ("typescript", "js"); ("rust", "rust"); ("ruby", "ruby"); ("c", "c");
    ("cpp", "c"); ("java", "java"); ("swift", "swift"); ("bash", "bash");
    ("kotlin", "kotlin"); ("c_sharp", "c_sharp"); ("php", "php");
    ("dart", "dart"); ("r", "r") ].

(** [LANG_GROUPS.get(lang, lang)] *)
Definition lang_group (lang : string) : string :=
  default lang (Od.get LANG_GROUPS lang).

Definition quote_chars : list ascii := ["034"%char; "039"%char].

(** [\.(py|go|js|ts|jsx|tsx|rb|rs|c|h|cpp|hpp|java|swift)$] *)
Definition known_exts : list string :=
  ["go"; "js"; "ts"; "jsx"; "tsx"; "rb"; "rs"; "c"; "h"; "cpp"; "hpp"; "java"; "swift"].
Definition re_known_ext : Re.re :=
  Re.Seq (Re.lit ".") (Re.Seq (Re.alts "py" known_exts) Re.Eol).

(** [\.[^.]+$] *)
Definition re_last_ext : Re.re :=
  Re.Seq (Re.lit ".") (Re.Seq (Re.Plus (Re.CNot ["."%char])) Re.Eol).

(** [.[^.]+$], the pattern of the HUBS line: its first dot is not escaped. *)
Definition re_hub_name : Re.re :=
  Re.Seq (Re.One Re.CAny) (Re.Seq (Re.Plus (Re.CNot ["."%char])) Re.Eol).

(** [^v\d+$] *)
Definition re_version : Re.re :=
  Re.Seq Re.Bol (Re.Seq (Re.lit "v") (Re.Seq (Re.Plus Re.CDigit) Re.Eol)).

Definition normalize_import (imp lang : string) : string :=
  let imp := Py.strip quote_chars imp in
  let imp := if Py.contains "/" imp then Py.last_item (Py.split "/" imp) else imp in
  let imp := if Py.contains "." imp && negb (Py.startswith "." imp)
             then Py.last_item (Py.split "." imp) else imp in
  let imp := Re.sub re_known_ext imp in
  Py.lower imp.

(** [re.sub(r'\.[^.]+$', '', basename)] *)
Definition strip_ext (basename : string) : string := Re.sub re_last_ext basename.

(** The key under which a file is indexed:
    [re.sub(r'\.[^.]+$', '', basename).lower()]. *)
Definition normalize_basename (basename : string) : string :=
  Py.lower (strip_ext basename).

Definition stdlib_names : list string :=
  [ "errors"; "fmt"; "io"; "os"; "path"; "sync"; "time"; "context"; "http";
    "net"; "bytes"; "strings"; "strconv"; "sort"; "flag"; "log"; "bufio";
    "encoding"; "testing"; "runtime"; "unsafe"; "reflect"; "regexp";
    "logging"; "typing"; "collections"; "datetime"; "json"; "sys"; "re";
    "pathlib"; "hashlib"; "base64"; "asyncio"; "enum"; "functools"; "random";
    "path"; "fs"; "util"; "events"; "stream"; "crypto"; "http"; "https" ].

(** The first loop of [find_internal_deps]: name -> list of (path, group). *)
Definition index_file (name_to_infos : Od.odict (list (string * string)))
    (f : FileRecord) : Od.odict (list (string * string)) :=
  let path := path_of f in
  let lang := language_of f in
  let lang_group := lang_group lang in
  let basename := Py.basename path in
  let name := normalize_basename basename in
  Od.append name_to_infos name (path, lang_group).

Definition build_index (files : list FileRecord) : Od.odict (list (string * string)) :=
  foldl index_file [] files.

(** The body of [for target_path, target_group in candidates]. *)
Definition add_candidate (path src_group src_basename : string)
    (deps : Od.odict (list string)) (cand : string * string) : Od.odict (list string) :=
  let '(target_path, target_group) := cand in
  if bool_decide (target_path = path) then deps
  else if negb (bool_decide (src_group = target_group)) then deps
  else
    let target_name := Py.basename target_path in
    if bool_decide (target_name = src_basename) then deps
    else
      let deps := Od.touch [] deps path in
      if Py.mem target_name (default [] (Od.get deps path)) then deps
      else Od.append deps path target_name.

(** The body of [for imp in imports]. *)
Definition add_import (name_to_infos : Od.odict (list (string * string)))
    (path src_lang src_group : string)
    (deps : Od.odict (list string)) (imp : string) : Od.odict (list string) :=
  if negb (Py.contains "/" imp) && negb (Py.contains "." imp)
     && Py.mem (Py.lower imp) stdlib_names then deps
  else
    let norm := normalize_import imp src_lang in
    if Py.mem norm stdlib_names then deps
    else
      match Od.get name_to_infos norm with
      | Some candidates =>
          let src_basename := Py.basename path in
          foldl (add_candidate path src_group src_basename) deps candidates
      | None => deps
      end.

(** The body of the second [for f in files]. *)
Definition add_file (name_to_infos : Od.odict (list (string * string)))
    (deps : Od.odict (list string)) (f : FileRecord) : Od.odict (list string) :=
  let path := path_of f in
  let src_lang := language_of f in
  let src_group := lang_group src_lang in
  let imports := imports_of f in
  foldl (add_import name_to_infos path src_lang src_group) deps imports.

Definition find_internal_deps (files : list FileRecord) : Od.odict (list string) :=
  let name_to_infos := build_index files in
  foldl (add_file name_to_infos) [] files.

(** The value the specification calls [DependencyMap[path]]. *)
Definition dependency_map (files : list FileRecord) (path : string) : list string :=
  default [] (Od.get (find_internal_deps files) path).

(** ** External uses and box content *)

Definition uses_stdlib : list string :=
  [ "os"; "re"; "sys"; "json"; "math"; "time"; "collections"; "defaultdict";
    "typing"; "pathlib"; "datetime"; "hashlib"; "base64"; "asyncio"; "enum";
    "logging"; "contextlib"; "functools"; "itertools"; "copy"; "random";
    "fmt"; "io"; "flag"; "path"; "strings"; "embed"; "runtime"; "unsafe";
    "filepath"; "context"; "sync"; "http"; "net"; "bytes"; "errors";
    "strconv"; "sort"; "testing"; "log"; "bufio"; "encoding";
    "react"; "fs"; "path"; "util"; "events"; "stream"; "crypto" ].

(** The state of the loop is [(external, seen)]. *)
Definition external_step (lang : string) (internal_names : list string)
    (st : list string * list string) (imp : string) : list string * list string :=
  let '(external, seen) := st in
  let norm := normalize_import imp lang in
  if negb (Py.mem norm internal_names) && negb (Py.mem norm uses_stdlib)
     && (1 <? String.length norm)%nat
  then if negb (Py.mem norm seen) then (external ++ [norm], seen ++ [norm]) else st
  else st.

Definition get_external_uses (f : FileRecord) (internal_names : list string) : list string :=
  fst (foldl (external_step (language_of f) internal_names) ([], []) (imports_of f)).

Definition truncate_with_ellipsis (text : string) (max_len : Z) : string :=
  if (Py.len text <=? max_len)%Z then text
  else Py.slice_to (max_len - 2) text +:+ "..".

(** The wrapping loop over [enumerate(external)]; the state is
    [(lines, current_line)] and [i] is the index of [dep]. *)
Fixpoint uses_loop (inner : Z) (i : nat) (external : list string)
    (lines : list string) (current_line : string) : list string * string :=
  match external with
  | [] => (lines, current_line)
  | dep :: rest =>
      let addition := match i with O => dep | S _ => ", " +:+ dep end in
      if (Py.len current_line + Py.len addition <=? inner)%Z
      then uses_loop inner (S i) rest lines (current_line +:+ addition)
      else uses_loop inner (S i) rest (lines ++ [current_line]) ("      " +:+ dep)
  end.

(** [lines] is the list the Python function appends to, statement by
    statement. *)
Definition create_box_lines (path : string) (functions external : list string)
    (width : Z) : list string :=
  let inner := (width - 4)%Z in
  let lines := [] in
  let title := Py.basename path in
  let lines := lines ++ [truncate_with_ellipsis title inner] in
  let lines := lines ++ [Py.repeat_z "─" inner] in
  let lines :=
    foldl (fun lines fn => lines ++ ["ƒ " +:+ fn +:+ "()"]) lines (firstn 6 functions) in
  let lines :=
    if (6 <? length functions)%nat
    then lines ++ ["  +" +:+ Py.str_nat (length functions - 6) +:+ " more"]
    else lines in
  match external with
  | [] => lines
  | _ =>
      let lines := lines ++ [""] in
      let '(lines, current_line) := uses_loop inner 0 external lines "uses: " in
      if Py.is_empty (Py.strip Py.whitespace current_line) then lines
      else lines ++ [current_line]
  end.

(** ** System names *)

Definition skip_parts : list string := ["src"; "lib"; "app"; "internal"; "pkg"; "."; ""].

(** [path.replace("\\", "/").split("/")] *)
Definition path_parts (p : string) : list string :=
  Py.split "/" (Py.replace "\" "/" p).

Definition get_system_name (dir_path : string) : string :=
  let parts := path_parts dir_path in
  let meaningful := filter (fun p => negb (Py.mem (Py.lower p) skip_parts)) parts in
  match meaningful with
  | m :: _ => Py.replace "-" " " (Py.replace "_" " " (Py.title m))
  | [] => match parts with
          | [] => "Root"
          | _ => Py.title (Py.last_item parts)
          end
  end.

(** ** The flow renderer

    [render] prints line by line; the model returns the printed lines.  The
    sections of the Python function are separate definitions here, in the
    order in which the function runs them. *)

(** [internal_names]: the index keys of all files (a set). *)
Definition internal_names_of (files : list FileRecord) : list string :=
  foldl (fun names f =>
           let name := normalize_basename (Py.basename (path_of f)) in
           if Py.mem name names then names else names ++ [name])
        [] files.

(** [dep_counts]: how many dependency lists name each target. *)
Definition count_deps (internal_deps : Od.odict (list string)) : Od.odict nat :=
  foldl (fun dep_counts entry => foldl Od.incr dep_counts entry.2) [] internal_deps.

(** [systems]: files grouped by their first path segment. *)
Definition system_of (path : string) : string :=
  let parts := path_parts path in
  if (1 <? length parts)%nat then default "" (head parts) else ".".

Definition group_systems (files : list FileRecord) : Od.odict (list FileRecord) :=
  foldl (fun systems f => Od.append systems (system_of (path_of f)) f) [] files.

(** *** The header panel *)

(** The name under which a dependency path [d] is listed: its last segment,
    or the one before when the last is a version such as [v2]. *)
Definition ext_name (d : string) : string :=
  let parts := Py.split "/" d in
  let name := Py.last_item parts in
  if Re.matches re_version name && (1 <? length parts)%nat
  then Py.last_but_one parts else name.

(** The last test of the loop body, but for [name not in seen]. *)
Definition ext_name_ok (name : string) : bool :=
  negb (Re.matches re_version name) && (1 <? String.length name)%nat.

(** The loop [for d in deps]; the state is [(names, seen)]. *)
Definition ext_name_step (st : list string * list string) (d : string)
    : list string * list string :=
  let '(names, seen) := st in
  let name := ext_name d in
  if ext_name_ok name && negb (Py.mem name seen)
  then (names ++ [name], seen ++ [name]) else st.

Definition ext_by_lang_step (ext_by_lang : Od.odict (list string))
    (entry : string * list string) : Od.odict (list string) :=
  let '(lang, deps) := entry in
  match deps with
  | [] => ext_by_lang
  | _ =>
      match fst (foldl ext_name_step ([], []) deps) with
      | [] => ext_by_lang
      | names => Od.set ext_by_lang lang names
      end
  end.

Definition build_ext_by_lang (external_deps_data : Od.odict (list string))
    : Od.odict (list string) :=
  foldl ext_by_lang_step [] external_deps_data.

Definition lang_labels : Od.odict string :=
  [ ("go", "Go"); ("javascript", "JS"); ("python", "Py"); ("rust", "Rs");
    ("ruby", "Rb"); ("swift", "Swift"); ("bash", "Sh"); ("kotlin", "Kt");
    ("c_sharp", "C#"); ("php", "PHP"); ("dart", "Dart"); ("r", "R") ].

Definition lang_order : list string :=
  [ "go"; "javascript"; "python"; "swift"; "rust"; "ruby"; "bash"; "kotlin";
    "c_sharp"; "php"; "dart"; "r" ].

(** The loop that formats the dependency lines; the state is
    [(dep_lines, max_width)]. *)
Definition dep_line_step (ext_by_lang : Od.odict (list string))
    (st : list string * nat) (lang : string) : list string * nat :=
  let '(dep_lines, max_width) := st in
  match Od.get ext_by_lang lang with
  | Some names =>
      let label := default (Py.title lang) (Od.get lang_labels lang) in
      let deps_str := Py.join ", " names in
      let line := label +:+ ": " +:+ deps_str in
      (dep_lines ++ [line],
       if (max_width <? String.length line + 4)%nat
       then String.length line + 4 else max_width)
  | None => st
  end.

(** The [while len(line) > content_width] loop with the [print] after it.
    Every round shortens [line] when [content_width] exceeds 5 and the line
    starts with a label or an indent, as in [render], so [fuel] rounds with
    [fuel] the length of the line are enough. *)
Fixpoint wrap_dep_line (fuel content_width : nat) (line : string) : list string :=
  if (content_width <? String.length line)%nat then
    match fuel with
    | S fuel' =>
        let break_at :=
          match Py.rfind ", " (Py.take content_width line) with
          | None => content_width - 1
          | Some i => i + 1
          end in
        ("│ " +:+ Py.ljust content_width (Py.take break_at line) +:+ " │")
        :: wrap_dep_line fuel' content_width
             ("    " +:+ Py.lstrip [" "%char] (Py.drop break_at line))
    | O => []
    end
  else ["│ " +:+ Py.ljust content_width line +:+ " │"].

Definition render_header (external_deps_data : Od.odict (list string))
    (project_name : string) : list string :=
  let ext_by_lang := build_ext_by_lang external_deps_data in
  let title := project_name +:+ " - Dependency Flow" in
  let max_width := String.length title + 6 in
  let '(dep_lines, max_width) :=
    foldl (dep_line_step ext_by_lang) ([], max_width) lang_order in
  let max_width := Nat.min max_width 80 in
  let inner_width := max_width - 2 in
  [""]
  ++ ["╭" +:+ Py.repeat "─" inner_width +:+ "╮"]
  ++ ["│" +:+ Py.center inner_width title +:+ "│"]
  ++ match dep_lines with
     | [] => []
     | _ =>
         ["├" +:+ Py.repeat "─" inner_width +:+ "┤"]
         ++ concat (map (fun line =>
                           wrap_dep_line (String.length line) (inner_width - 2) line)
                        dep_lines)
     end
  ++ ["╰" +:+ Py.repeat "─" inner_width +:+ "╯"]
  ++ [""].

(** *** One system *)

(** The loop [for ff in files] that looks a target up by its basename. *)
Definition find_path (files : list FileRecord) (t : string) : option string :=
  path_of <$> List.find (fun ff => bool_decide (Py.basename (path_of ff) = t)) files.

(** [internal_deps.get(t_path, []) if t_path else []] *)
Definition sub_targets_of (files : list FileRecord)
    (internal_deps : Od.odict (list string)) (t : string) : list string :=
  match find_path files t with
  | Some t_path =>
      if Py.is_empty t_path then [] else default [] (Od.get internal_deps t_path)
  | None => []
  end.

(** The lines printed for a file with a non-empty list of targets. *)
Definition render_chain (files : list FileRecord)
    (internal_deps : Od.odict (list string))
    (name_no_ext : string) (targets : list string) : list string :=
  match targets with
  | [t] =>
      let t_name := strip_ext t in
      let sub_targets := sub_targets_of files internal_deps t in
      let chain :=
        match sub_targets with
        | [] => name_no_ext +:+ " ───▶ " +:+ t_name
        | _ =>
            let sub_names := map strip_ext (firstn 3 sub_targets) in
            name_no_ext +:+ " ───▶ " +:+ t_name +:+ " ───▶ "
            +:+ Py.join ", " sub_names
            +:+ (if (3 <? length sub_targets)%nat
                 then " +" +:+ Py.str_nat (length sub_targets - 3) else "")
        end in
      ["  " +:+ chain]
  | _ =>
      let target_strs := map strip_ext targets in
      if (length targets <=? 4)%nat then
        ["  " +:+ name_no_ext +:+ " ───▶ " +:+ Py.join ", " target_strs]
      else
        let indent := Py.repeat " " (String.length name_no_ext) in
        ["  " +:+ name_no_ext +:+ " ──┬──▶ " +:+ default "" (head target_strs)]
        ++ map (fun t => "  " +:+ indent +:+ "   ├──▶ " +:+ t)
               (removelast (tail target_strs))
        ++ ["  " +:+ indent +:+ "   └──▶ " +:+ Py.last_item target_strs]
  end.

(** The body of [for f in sys_files]; the state is [(rendered, printed)]. *)
Definition render_file (files : list FileRecord)
    (internal_deps : Od.odict (list string))
    (st : list string * list string) (f : FileRecord) : list string * list string :=
  let '(rendered, out) := st in
  let path := path_of f in
  let basename := Py.basename path in
  let name_no_ext := strip_ext basename in
  if Py.mem basename rendered then st
  else
    match default [] (Od.get internal_deps path) with
    | [] => st
    | targets =>
        (rendered ++ [basename],
         out ++ render_chain files internal_deps name_no_ext targets)
    end.

(** [internal_deps.get(path) or f.get("functions")] as a truth value. *)
Definition has_content_file (internal_deps : Od.odict (list string))
    (f : FileRecord) : bool :=
  negb (bool_decide (default [] (Od.get internal_deps (path_of f)) = []))
  || negb (bool_decide (functions_of f = [])).

Definition render_system (files : list FileRecord)
    (internal_deps : Od.odict (list string))
    (systems : Od.odict (list FileRecord)) (system : string) : list string :=
  let sys_files := default [] (Od.get systems system) in
  let system_name := get_system_name system in
  if negb (existsb (has_content_file internal_deps) sys_files) then []
  else
    let '(rendered, chains) :=
      foldl (render_file files internal_deps) ([], []) sys_files in
    let standalone_count :=
      length (filter (fun f =>
                        negb (Py.mem (Py.basename (path_of f)) rendered)
                        && negb (bool_decide (functions_of f = [])))
                     sys_files) in
    [system_name +:+ " " +:+ Py.repeat "═" (60 - String.length system_name - 1)]
    ++ chains
    ++ (if (0 <? standalone_count)%nat
        then ["  +" +:+ Py.str_nat standalone_count +:+ " standalone files"] else [])
    ++ [""].

(** *** Hubs and summary *)

(** [sorted(dep_counts.items(), key=lambda x: -x[1])[:6]], then the entries
    with [count >= 2]. *)
Definition by_count_desc (x y : string * nat) : bool := (y.2 <=? x.2)%nat.

Definition compute_hubs (dep_counts : Od.odict nat) : list (string * nat) :=
  let hubs := firstn 6 (Py.sorted by_count_desc dep_counts) in
  filter (fun h => (2 <=? h.2)%nat) hubs.

(** [f"{re.sub(r'.[^.]+$', '', name)} ({count}←)"] *)
Definition hub_name (name : string) : string := Re.sub re_hub_name name.
Definition hub_str (h : string * nat) : string :=
  hub_name h.1 +:+ " (" +:+ Py.str_nat h.2 +:+ "←)".

Definition render_hubs (dep_counts : Od.odict nat) : list string :=
  match dep_counts with
  | [] => []
  | _ =>
      match compute_hubs dep_counts with
      | [] => []
      | hubs => [Py.repeat "─" 61; "HUBS: " +:+ Py.join ", " (map hub_str hubs)]
      end
  end.

Definition render_summary (files : list FileRecord)
    (internal_deps : Od.odict (list string)) : list string :=
  let total_funcs := sum_list (map (fun f => length (functions_of f)) files) in
  let internal_count := sum_list (map length (Od.values internal_deps)) in
  [ Py.str_nat (length files) +:+ " files · " +:+ Py.str_nat total_funcs
    +:+ " functions · " +:+ Py.str_nat internal_count +:+ " deps"; "" ].

(** *** [render] *)

Definition render (data : Data) (project_name : string) : list string :=
  let files := default [] (d_files data) in
  let external_deps_data := default [] (d_external_deps data) in
  match files with
  | [] => ["  No source files found."]
  | _ =>
      let internal_deps := find_internal_deps files in
      let dep_counts := count_deps internal_deps in
      let systems := group_systems files in
      render_header external_deps_data project_name
      ++ concat (map (render_system files internal_deps systems)
                     (Py.sorted String.leb (Od.keys systems)))
      ++ render_hubs dep_counts
      ++ render_summary files internal_deps
  end.

(** ** The import normaliser as the specification words it

    The five steps of the specification, written without [split] and without
    regular expressions, to be compared with [normalize_import]. *)

(** The substring after the final occurrence of [c]; the whole string when
    [c] does not occur. *)
Fixpoint after_last (c : ascii) (s : string) : string :=
  match s with
  | "" => ""
  | String a r =>
      if Py.contains c r then after_last c r
      else if bool_decide (a = c) then r else s
  end.

(** The enumerated set of extensions. *)
Definition known_extensions : list string :=
  ["py"; "go"; "js"; "ts"; "jsx"; "tsx"; "rb"; "rs"; "c"; "h"; "cpp"; "hpp";
   "java"; "swift"].

(** Step 4 as worded: a trailing [.ext] with [ext] in the set is removed. *)
Fixpoint strip_trailing_ext (s : string) : string :=
  match s with
  | "" => ""
  | String a r =>
      if bool_decide (a = "."%char) && Py.mem r known_extensions then ""
      else String a (strip_trailing_ext r)
  end.

(** Step 4 as the code has it: the extension is also removed when a single
    line feed follows it and ends the string; the line feed stays. *)
Definition with_lf (e : string) : string := e +:+ String Py.LF "".

Fixpoint strip_trailing_ext_lf (s : string) : string :=
  match s with
  | "" => ""
  | String a r =>
      if bool_decide (a = "."%char) && Py.mem r known_extensions then ""
      else if bool_decide (a = "."%char) && Py.mem r (map with_lf known_extensions)
           then String Py.LF ""
      else String a (strip_trailing_ext_lf r)
  end.

(** Steps 1-3 and 5 are shared by the two readings of step 4. *)
Definition normalize_steps (step4 : string → string) (imp : string) : string :=
  let s1 := Py.strip quote_chars imp in
  let s2 := if Py.contains "/" s1 then after_last "/" s1 else s1 in
  let s3 := if Py.contains "." s2 && negb (Py.startswith "." s2)
            then after_last "." s2 else s2 in
  let s4 := step4 s3 in
  Py.lower s4.

Definition normalize_reference : string → string :=
  normalize_steps strip_trailing_ext.

Definition normalize_reference_lf : string → string :=
  normalize_steps strip_trailing_ext_lf.

(** ** The box content as the specification words it *)

(** One line per shown function. *)
Definition function_line (name : string) : string := "ƒ " +:+ name +:+ "()".

(** The summary line for [k] functions that are not shown. *)
Definition more_line (k : nat) : string := "  +" +:+ Py.str_nat k +:+ " more".

(** The first [min 6 n] functions in declaration order and, exactly when
    [n > 6], the summary of the other [n - 6]. *)
Definition function_lines (functions : list string) : list string :=
  let n := length functions in
  map function_line (take (Nat.min 6 n) functions)
  ++ (if decide (6 < n) then [more_line (n - 6)] else []).

(** The lines that list the external uses, when there are any: a blank line
    and the wrapped [uses:] lines. *)
Definition uses_lines (inner : Z) (external : list string) : list string :=
  match external with
  | [] => []
  | _ =>
      let '(lines, current_line) := uses_loop inner 0 external [""] "uses: " in
      if Py.is_empty (Py.strip Py.whitespace current_line) then lines
      else lines ++ [current_line]
  end.

(** ** The branching tree as the specification words it *)

Definition arrow_line (name_no_ext target : string) : string :=
  "  " +:+ name_no_ext +:+ " ──┬──▶ " +:+ strip_ext target.
Definition middle_line (name_no_ext target : string) : string :=
  "  " +:+ Py.repeat " " (String.length name_no_ext) +:+ "   ├──▶ " +:+ strip_ext target.
Definition last_line (name_no_ext target : string) : string :=
  "  " +:+ Py.repeat " " (String.length name_no_ext) +:+ "   └──▶ " +:+ strip_ext target.

(** ** Predicates used to state the invariants of the dependency map *)

(** Every entry of the reverse index is a file of the input with its group. *)
Definition index_ok (files : list FileRecord)
    (idx : Od.odict (list (string * string))) : Prop :=
  ∀ name cands, Od.get idx name = Some cands →
    ∀ tp tg, (tp, tg) ∈ cands →
      ∃ g, g ∈ files ∧ path_of g = tp ∧ lang_group (language_of g) = tg.

(** The invariant of the dependency dictionary under construction: no
    duplicate, not the basename of the key, and every target is the basename
    of a file in the language group of a record filed under the key. *)
Definition deps_ok (files : list FileRecord) (deps : Od.odict (list string)) : Prop :=
  ∀ p l, Od.get deps p = Some l →
    NoDup l ∧ (Py.basename p ∉ l) ∧
    ∀ t, t ∈ l →
      ∃ f g, f ∈ files ∧ g ∈ files ∧ path_of f = p ∧
             Py.basename (path_of g) = t ∧
             lang_group (language_of g) = lang_group (language_of f).

(** Records filed under one path agree on the language group; in particular
    every list whose paths are pairwise distinct. *)
Definition path_fixes_group (files : list FileRecord) : Prop :=
  ∀ f g, f ∈ files → g ∈ files → path_of f = path_of g →
    lang_group (language_of f) = lang_group (language_of g).

(** ** Auxiliary definitions for the facts about the matcher *)

(** The alternation followed by [$]: the first word, in the order of the
    pattern, after which the subject ends. *)
Definition take_rest : Re.kont := fun _ rest => Some rest.

Fixpoint first_hit (ws : list string) (t : string) : option string :=
  match ws with
  | [] => None
  | w :: r =>
      if String.prefix w t && Re.at_eol (Py.drop (String.length w) t)
      then Some (Py.drop (String.length w) t) else first_hit r t
  end.

(** The next value of [line] in the wrapping loop of the header. *)
Definition next_line (content_width : nat) (line : string) : string :=
  let break_at :=
    match Py.rfind ", " (Py.take content_width line) with
    | None => content_width - 1
    | Some i => i + 1
    end in
  "    " +:+ Py.lstrip [" "%char] (Py.drop break_at line).

(** ** The renderer on a store of mutable objects

    The definitions above treat the input as a value.  To state that a call
    of [render] changes none of the caller's objects, this module runs the
    same program on a store: every dictionary, list and set of the Python
    program is an object at a location, variables hold locations, the input
    records are reached through references, and [append], [add] and item
    assignment overwrite the object at the location the variable holds.

    Strings, numbers and tuples are immutable and stay plain values.  The
    lists inside a [defaultdict(list)] are part of the dictionary object: the
    program reaches them through the dictionary or only reads them.  A read
    at a location that holds another kind of object yields the empty value of
    the expected kind; on a well-formed input this does not occur. *)

Module Mem.

Definition loc : Type := nat.

Inductive obj : Type :=
| OData (files external_deps : option loc)
    (* the [data] dictionary *)
| OFile (path language : option string) (imports functions : option loc)
    (* a file record; its two lists are objects of their own *)
| OExt (entries : Od.odict loc)
    (* [external_deps]: language -> list of dependency paths *)
| OStrs (items : list string)
    (* a list, or a set, of strings *)
| ORefs (items : list loc)
    (* a list of file records *)
| OIndex (d : Od.odict (list (string * string)))
    (* [name_to_infos] *)
| ODeps (d : Od.odict (list string))
    (* [deps], [ext_by_lang] *)
| OCounts (d : Od.odict nat)
    (* [dep_counts] *)
| OSystems (d : Od.odict (list loc)).
    (* [systems]: its lists hold references to the input records *)

Record state : Type := mkState {
  heap : list obj;
  printed : list string
}.

Definition M (A : Type) : Type := state → A * state.

#[export] Instance M_ret : MRet M := fun A (a : A) s => (a, s).
#[export] Instance M_bind : MBind M :=
  fun A B (k : A → M B) (m : M A) s => let '(a, s') := m s in k a s'.

(** *** Primitive operations *)

(** A new object, at the first unused location. *)
Definition alloc (o : obj) : M loc :=
  fun s => (length (heap s), mkState (heap s ++ [o]) (printed s)).

Definition read (l : loc) : M (option obj) :=
  fun s => (heap s !! l, s).

(** Overwrite the object at [l]. *)
Definition write (l : loc) (o : obj) : M unit :=
  fun s => (tt, mkState (<[l := o]> (heap s)) (printed s)).

Definition print (line : string) : M unit :=
  fun s => (tt, mkState (heap s) (printed s ++ [line])).

(** [for x in xs: body(x)] *)
Fixpoint for_each {A : Type} (xs : list A) (body : A → M unit) : M unit :=
  match xs with
  | [] => mret tt
  | x :: rest => body x ;; for_each rest body
  end.

(** A loop that computes a value from reads only. *)
Fixpoint map_m {A B : Type} (f : A → M B) (xs : list A) : M (list B) :=
  match xs with
  | [] => mret []
  | x :: rest => y ← f x; ys ← map_m f rest; mret (y :: ys)
  end.

(** *** Reading objects *)

Definition read_strs (l : loc) : M (list string) :=
  o ← read l; mret (match o with Some (OStrs xs) => xs | _ => [] end).
Definition read_refs (l : loc) : M (list loc) :=
  o ← read l; mret (match o with Some (ORefs xs) => xs | _ => [] end).
Definition read_ext (l : loc) : M (Od.odict loc) :=
  o ← read l; mret (match o with Some (OExt d) => d | _ => [] end).
Definition read_index (l : loc) : M (Od.odict (list (string * string))) :=
  o ← read l; mret (match o with Some (OIndex d) => d | _ => [] end).
Definition read_deps (l : loc) : M (Od.odict (list string)) :=
  o ← read l; mret (match o with Some (ODeps d) => d | _ => [] end).
Definition read_counts (l : loc) : M (Od.odict nat) :=
  o ← read l; mret (match o with Some (OCounts d) => d | _ => [] end).
Definition read_systems (l : loc) : M (Od.odict (list loc)) :=
  o ← read l; mret (match o with Some (OSystems d) => d | _ => [] end).

(** [xs = v or []] for an optional list field: the list object itself when
    the field is present, a new empty list otherwise. *)
Definition list_or_new (field : option loc) : M loc :=
  match field with
  | Some l =>
      xs ← read_strs l;
      match xs with
      | [] => alloc (OStrs [])
      | _ => mret l
      end
  | None => alloc (OStrs [])
  end.

(** [f.get("path", "")], [f.get("language", "")], [f.get("imports") or []],
    [f.get("functions") or []]. *)
Definition get_path (f : loc) : M string :=
  o ← read f; mret (match o with Some (OFile p _ _ _) => default "" p | _ => "" end).
Definition get_language (f : loc) : M string :=
  o ← read f; mret (match o with Some (OFile _ g _ _) => default "" g | _ => "" end).
Definition get_imports (f : loc) : M loc :=
  o ← read f;
  list_or_new (match o with Some (OFile _ _ i _) => i | _ => None end).
Definition get_functions (f : loc) : M loc :=
  o ← read f;
  list_or_new (match o with Some (OFile _ _ _ fn) => fn | _ => None end).

(** [data.get("files", [])] and [data.get("external_deps", {})]. *)
Definition get_files (data : loc) : M loc :=
  o ← read data;
  match o with
  | Some (OData (Some l) _) => mret l
  | _ => alloc (ORefs [])
  end.
Definition get_external_deps (data : loc) : M loc :=
  o ← read data;
  match o with
  | Some (OData _ (Some l)) => mret l
  | _ => alloc (OExt [])
  end.

(** *** Mutating objects *)

(** [xs.append(x)] on a list of strings, [s.add(x)] on a set of strings. *)
Definition append_str (l : loc) (x : string) : M unit :=
  xs ← read_strs l; write l (OStrs (xs ++ [x])).
Definition add_str (l : loc) (x : string) : M unit :=
  xs ← read_strs l; write l (OStrs (if Py.mem x xs then xs else xs ++ [x])).

(** [name_to_infos[name].append(info)] *)
Definition index_append (l : loc) (name : string) (info : string * string) : M unit :=
  d ← read_index l; write l (OIndex (Od.append d name info)).

(** [deps[path]] (which files a missing key), [deps[path].append(x)],
    [ext_by_lang[lang] = names]. *)
Definition deps_touch (l : loc) (path : string) : M (list string) :=
  d ← read_deps l;
  write l (ODeps (Od.touch [] d path));;
  mret (default [] (Od.get d path)).
Definition deps_append (l : loc) (path x : string) : M unit :=
  d ← read_deps l; write l (ODeps (Od.append d path x)).
Definition deps_set (l : loc) (key : string) (v : list string) : M unit :=
  d ← read_deps l; write l (ODeps (Od.set d key v)).

(** [dep_counts[target] += 1] *)
Definition counts_incr (l : loc) (target : string) : M unit :=
  d ← read_counts l; write l (OCounts (Od.incr d target)).

(** [systems[system].append(f)]: the list receives the reference [f]. *)
Definition systems_append (l : loc) (system : string) (f : loc) : M unit :=
  d ← read_systems l; write l (OSystems (Od.append d system f)).

(** *** Reading a record as a value *)

(** The contents of an optional list field, without creating anything. *)
Definition field_strs (field : option loc) : M (option (list string)) :=
  match field with
  | Some l => xs ← read_strs l; mret (Some xs)
  | None => mret None
  end.

(** The record at [f] as the value the formatting functions take. *)
Definition view_file (f : loc) : M FileRecord :=
  o ← read f;
  match o with
  | Some (OFile p g i fn) =>
      imports ← field_strs i;
      functions ← field_strs fn;
      mret (mkFile p g imports functions)
  | _ => mret (mkFile None None None None)
  end.

(** A loop that carries an immutable value (a number, a string). *)
Fixpoint fold_m {A S : Type} (body : S → A → M S) (init : S) (xs : list A) : M S :=
  match xs with
  | [] => mret init
  | x :: rest => s ← body init x; fold_m body s rest
  end.

(** *** [find_internal_deps] *)

(** The body of the first [for f in files]. *)
Definition index_file (name_to_infos : loc) (f : loc) : M unit :=
  path ← get_path f;
  lang ← get_language f;
  let group := lang_group lang in
  let basename := Py.basename path in
  let name := normalize_basename basename in
  index_append name_to_infos name (path, group).

(** The body of [for target_path, target_group in candidates]. *)
Definition add_candidate (deps : loc) (path src_group src_basename : string)
    (cand : string * string) : M unit :=
  let '(target_path, target_group) := cand in
  if bool_decide (target_path = path) then mret tt
  else if negb (bool_decide (src_group = target_group)) then mret tt
  else
    let target_name := Py.basename target_path in
    if bool_decide (target_name = src_basename) then mret tt
    else
      present ← deps_touch deps path;
      if Py.mem target_name present then mret tt
      else deps_append deps path target_name.

(** The body of [for imp in imports]. *)
Definition add_import (name_to_infos deps : loc) (path src_lang src_group : string)
    (imp : string) : M unit :=
  if negb (Py.contains "/" imp) && negb (Py.contains "." imp)
     && Py.mem (Py.lower imp) stdlib_names then mret tt
  else
    let norm := normalize_import imp src_lang in
    if Py.mem norm stdlib_names then mret tt
    else
      idx ← read_index name_to_infos;
      match Od.get idx norm with
      | Some candidates =>
          let src_basename := Py.basename path in
          for_each candidates (add_candidate deps path src_group src_basename)
      | None => mret tt
      end.

(** The body of the second [for f in files]. *)
Definition add_file (name_to_infos deps : loc) (f : loc) : M unit :=
  path ← get_path f;
  src_lang ← get_language f;
  let src_group := lang_group src_lang in
  imports ← get_imports f;
  imps ← read_strs imports;
  for_each imps (add_import name_to_infos deps path src_lang src_group).

Definition find_internal_deps (files : loc) : M loc :=
  name_to_infos ← alloc (OIndex []);
  fs ← read_refs files;
  for_each fs (index_file name_to_infos);;
  deps ← alloc (ODeps []);
  for_each fs (add_file name_to_infos deps);;
  mret deps.

(** *** [render] *)

(** The body of [for d in deps], in the header. *)
Definition ext_name_step (names seen : loc) (d : string) : M unit :=
  let name := ext_name d in
  sn ← read_strs seen;
  if ext_name_ok name && negb (Py.mem name sn)
  then add_str seen name;; append_str names name
  else mret tt.

(** The body of [for lang, deps in external_deps_data.items()]. *)
Definition ext_by_lang_step (ext_by_lang : loc) (entry : string * loc) : M unit :=
  let '(lang, deps) := entry in
  ds ← read_strs deps;
  match ds with
  | [] => mret tt
  | _ =>
      names ← alloc (OStrs []);
      seen ← alloc (OStrs []);
      for_each ds (ext_name_step names seen);;
      ns ← read_strs names;
      match ns with
      | [] => mret tt
      | _ => deps_set ext_by_lang lang ns
      end
  end.

(** The body of the loop that formats the dependency lines; [max_width] is
    carried along. *)
Definition dep_line_step (ext_by_lang : Od.odict (list string)) (dep_lines : loc)
    (max_width : nat) (lang : string) : M nat :=
  match Od.get ext_by_lang lang with
  | Some names =>
      let label := default (Py.title lang) (Od.get lang_labels lang) in
      let deps_str := Py.join ", " names in
      let line := label +:+ ": " +:+ deps_str in
      append_str dep_lines line;;
      mret (if (max_width <? String.length line + 4)%nat
            then String.length line + 4 else max_width)
  | None => mret max_width
  end.

(** The header panel: [ext_by_lang], [dep_lines] and the box. *)
Definition render_header (external_deps_data : loc) (project_name : string) : M unit :=
  print "";;
  ext_by_lang ← alloc (ODeps []);
  entries ← read_ext external_deps_data;
  for_each entries (ext_by_lang_step ext_by_lang);;
  let title := project_name +:+ " - Dependency Flow" in
  let max_width := String.length title + 6 in
  dep_lines ← alloc (OStrs []);
  ebl ← read_deps ext_by_lang;
  max_width ← fold_m (dep_line_step ebl dep_lines) max_width lang_order;
  let max_width := Nat.min max_width 80 in
  let inner_width := max_width - 2 in
  print ("╭" +:+ Py.repeat "─" inner_width +:+ "╮");;
  print ("│" +:+ Py.center inner_width title +:+ "│");;
  dls ← read_strs dep_lines;
  match dls with
  | [] => mret tt
  | _ =>
      print ("├" +:+ Py.repeat "─" inner_width +:+ "┤");;
      for_each dls (fun line =>
        for_each (wrap_dep_line (String.length line) (inner_width - 2) line) print)
  end;;
  print ("╰" +:+ Py.repeat "─" inner_width +:+ "╯");;
  print "".

(** The body of [for f in sys_files]; [views] are the records of [files],
    [idv] the contents of [internal_deps]. *)
Definition render_file (views : list FileRecord) (idv : Od.odict (list string))
    (rendered : loc) (f : loc) : M unit :=
  path ← get_path f;
  let basename := Py.basename path in
  let name_no_ext := strip_ext basename in
  rs ← read_strs rendered;
  if Py.mem basename rs then mret tt
  else
    match default [] (Od.get idv path) with
    | [] => mret tt
    | targets =>
        has_subdeps ← alloc (OStrs []);
        no_subdeps ← alloc (OStrs []);
        for_each targets (fun t =>
          match sub_targets_of views idv t with
          | [] => append_str no_subdeps t
          | _ => append_str has_subdeps t
          end);;
        for_each (render_chain views idv name_no_ext targets) print;;
        add_str rendered basename
    end.

(** The body of the loop that counts the standalone files. *)
Definition standalone_step (rs : list string) (count : nat) (f : loc) : M nat :=
  path ← get_path f;
  let basename := Py.basename path in
  funcs ← get_functions f;
  fns ← read_strs funcs;
  mret (if negb (Py.mem basename rs) && negb (bool_decide (fns = []))
        then count + 1 else count).

(** One system. *)
Definition render_system (views : list FileRecord) (internal_deps systems : loc)
    (system : string) : M unit :=
  sysd ← read_systems systems;
  let sys_files := default [] (Od.get sysd system) in
  let system_name := get_system_name system in
  idv ← read_deps internal_deps;
  sys_views ← map_m view_file sys_files;
  if negb (existsb (has_content_file idv) sys_views) then mret tt
  else
    print (system_name +:+ " " +:+ Py.repeat "═" (60 - String.length system_name - 1));;
    rendered ← alloc (OStrs []);
    for_each sys_files (render_file views idv rendered);;
    rs ← read_strs rendered;
    standalone_count ← fold_m (standalone_step rs) 0 sys_files;
    (if (0 <? standalone_count)%nat
     then print ("  +" +:+ Py.str_nat standalone_count +:+ " standalone files")
     else mret tt);;
    print "".

(** The bodies of the loops that build [internal_names], [dep_counts] and
    [systems]. *)
Definition name_file (internal_names : loc) (f : loc) : M unit :=
  path ← get_path f;
  let basename := Py.basename path in
  let name := normalize_basename basename in
  add_str internal_names name.

Definition count_entry (dep_counts : loc) (entry : string * list string) : M unit :=
  for_each entry.2 (counts_incr dep_counts).

Definition group_file (systems : loc) (f : loc) : M unit :=
  path ← get_path f;
  systems_append systems (system_of path) f.

Definition render (data : loc) (project_name : string) : M unit :=
  files ← get_files data;
  external_deps_data ← get_external_deps data;
  fs ← read_refs files;
  match fs with
  | [] => print "  No source files found."
  | _ =>
      internal_names ← alloc (OStrs []);
      for_each fs (name_file internal_names);;
      internal_deps ← find_internal_deps files;
      dep_counts ← alloc (OCounts []);
      idv ← read_deps internal_deps;
      for_each idv (count_entry dep_counts);;
      systems ← alloc (OSystems []);
      for_each fs (group_file systems);;
      render_header external_deps_data project_name;;
      sysd ← read_systems systems;
      views ← map_m view_file fs;
      for_each (Py.sorted String.leb (Od.keys sysd))
        (render_system views internal_deps systems);;
      dc ← read_counts dep_counts;
      for_each (render_hubs dc) print;;
      for_each (render_summary views idv) print
  end.

(** *** Placing an input in the store *)

(** The objects of one file record: its two lists, when present, then the
    record itself, which is the last object. *)
Definition file_objs (base : loc) (f : FileRecord) : list obj :=
  let imports := option_list (OStrs <$> f_imports f) in
  let functions := option_list (OStrs <$> f_functions f) in
  let li := base in
  let lf := base + length imports in
  imports ++ functions
  ++ [OFile (f_path f) (f_language f)
        (match f_imports f with Some _ => Some li | None => None end)
        (match f_functions f with Some _ => Some lf | None => None end)].

(** The objects of a list of records from [base] on, and the locations of
    the records. *)
Fixpoint files_objs (base : loc) (files : list FileRecord) : list obj * list loc :=
  match files with
  | [] => ([], [])
  | f :: rest =>
      let objs := file_objs base f in
      let '(objs', locs) := files_objs (base + length objs) rest in
      (objs ++ objs', (base + length objs - 1) :: locs)
  end.

Fixpoint ext_objs (base : loc) (ext : Od.odict (list string)) : list obj * Od.odict loc :=
  match ext with
  | [] => ([], [])
  | (lang, deps) :: rest =>
      let '(objs, d) := ext_objs (S base) rest in
      (OStrs deps :: objs, (lang, base) :: d)
  end.

(** A store that holds [data] after the objects [h0] the caller already has,
    and the location of the [data] dictionary. *)
Definition place (h0 : list obj) (data : Data) : list obj * loc :=
  let base := length h0 in
  let '(fobjs, flocs) := files_objs base (default [] (d_files data)) in
  let h1 := h0 ++ fobjs in
  let '(h2, lfiles) :=
    match d_files data with
    | Some _ => (h1 ++ [ORefs flocs], Some (length h1))
    | None => (h1, None)
    end in
  let '(eobjs, ed) := ext_objs (length h2) (default [] (d_external_deps data)) in
  let h3 := h2 ++ eobjs in
  let '(h4, lext) :=
    match d_external_deps data with
    | Some _ => (h3 ++ [OExt ed], Some (length h3))
    | None => (h3, None)
    end in
  (h4 ++ [OData lfiles lext], length h4).

(** The input as it can be read back from a store. *)
Definition look_strs (h : list obj) (field : option loc) : option (list string) :=
  match field with
  | Some l => Some (match h !! l with Some (OStrs xs) => xs | _ => [] end)
  | None => None
  end.

Definition look_file (h : list obj) (f : loc) : FileRecord :=
  match h !! f with
  | Some (OFile p g i fn) => mkFile p g (look_strs h i) (look_strs h fn)
  | _ => mkFile None None None None
  end.

Definition look_files (h : list obj) (field : option loc) : option (list FileRecord) :=
  match field with
  | Some l =>
      Some (match h !! l with
            | Some (ORefs fs) => map (look_file h) fs
            | _ => []
            end)
  | None => None
  end.

Definition look_ext (h : list obj) (field : option loc) : option (Od.odict (list string)) :=
  match field with
  | Some l =>
      Some (match h !! l with
            | Some (OExt d) =>
                map (fun e : string * loc =>
                       (e.1, default [] (look_strs h (Some e.2)))) d
            | _ => []
            end)
  | None => None
  end.

Definition look_data (h : list obj) (data : loc) : Data :=
  match h !! data with
  | Some (OData fl ext) => mkData (look_files h fl) (look_ext h ext)
  | _ => mkData None None
  end.

(** [h'] has every object of [h], at the same location and unchanged. *)
Definition keeps (h h' : list obj) : Prop :=
  ∀ l o, h !! l = Some o → h' !! l = Some o.

(** The objects [objs] are in [h], in order, from location [base] on. *)
Definition holds_at (h : list obj) (base : loc) (objs : list obj) : Prop :=
  ∀ i o, objs !! i = Some o → h !! (base + i) = Some o.

(** [m] leaves the objects below [n0] as they are, whatever the state it
    starts in, and its result satisfies [Q]. *)
Definition frame {A : Type} (n0 : nat) (m : M A) (Q : A → Prop) : Prop :=
  ∀ s, n0 ≤ length (heap s) →
    Q (m s).1
    ∧ length (heap s) ≤ length (heap (m s).2)
    ∧ ∀ l, l < n0 → heap (m s).2 !! l = heap s !! l.

(** [m] prints nothing. *)
Definition quiet {A : Type} (m : M A) : Prop :=
  ∀ s, printed (m s).2 = printed s.

(** [Q] holds of the result of [m] and the state after it, from [s]. *)
Definition wp {A : Type} (m : M A) (Q : A → state → Prop) (s : state) : Prop :=
  Q (m s).1 (m s).2.

(** The state after a write at [l]. *)
Definition upd (s : state) (l : loc) (o : obj) : state :=
  mkState (<[l := o]> (heap s)) (printed s).

(** The records at the locations [fl] read as the values [fs], in every
    store that keeps the objects of [hp]. *)
Definition reads (hp : list obj) (fl : list loc) (fs : list FileRecord) : Prop :=
  ∀ h, keeps hp h → map (look_file h) fl = fs.

(** The same for the lists of [external_deps]. *)
Definition reads_ext (hp : list obj) (ed : Od.odict loc)
    (ext : Od.odict (list string)) : Prop :=
  ∀ h, keeps hp h →
    map (fun e : string * loc => (e.1, default [] (look_strs h (Some e.2)))) ed = ext.

(** The store [hp] holds the input [data] at [l]: the dictionary, and the
    objects of its two fields when it has them. *)
Definition data_at (hp : list obj) (l : loc) (data : Data) : Prop :=
  ∃ lfiles lext,
    hp !! l = Some (OData lfiles lext)
    ∧ match lfiles with
      | Some lf => ∃ fl, hp !! lf = Some (ORefs fl)
                         ∧ reads hp fl (default [] (d_files data))
      | None => d_files data = None
      end
    ∧ match lext with
      | Some le => ∃ ed, hp !! le = Some (OExt ed)
                         ∧ reads_ext hp ed (default [] (d_external_deps data))
      | None => d_external_deps data = None
      end.

(** The facts the second loop of [find_internal_deps] carries from one file
    to the next: the input is kept, [ci] holds the index and [cd] the
    dependency dictionary built so far. *)
Definition deps_state (hp : list obj) (ci cd : loc)
    (idx : Od.odict (list (string * string))) (D : Od.odict (list string))
    (s : state) : Prop :=
  keeps hp (heap s)
  ∧ heap s !! ci = Some (OIndex idx)
  ∧ heap s !! cd = Some (ODeps D).

(** A dictionary of lists of records, read through the store [h]. *)
Definition look_systems (h : list obj) (d : Od.odict (list loc))
    : Od.odict (list FileRecord) :=
  map (fun e : string * list loc => (e.1, map (look_file h) e.2)) d.

(** The strings of the list at [l]. *)
Definition strs_at (h : list obj) (l : loc) : list string :=
  match h !! l with Some (OStrs xs) => xs | _ => [] end.

(** Running [render] on a placed input: the printed lines and the store
    after the call. *)
Definition run_render (h0 : list obj) (data : Data) (project_name : string)
    : list string * list obj :=
  let '(h, l) := place h0 data in
  let '(_, s) := render l project_name (mkState h []) in
  (printed s, heap s).

End Mem.

(** ** Example inputs *)

(** Scenario 1 of the specification. *)
Definition scenario1 : list FileRecord :=
  [ mkFile (Some "a.py") (Some "python") (Some ["b"]) None;
    mkFile (Some "b.py") (Some "python") (Some []) None ].

(** An input in which one path is filed twice, under two languages. *)
Definition twice_filed : list FileRecord :=
  [ mkFile (Some "a.py") (Some "python") (Some []) None;
    mkFile (Some "a.py") (Some "go") (Some ["b"]) None;
    mkFile (Some "b.go") (Some "go") None None ].

(** An import that ends in a line feed after a known extension. *)
Definition import_with_lf : string := with_lf ".py".

(** A hub whose basename starts with a line feed: two files import it. *)
Definition lf_name : string := String Py.LF "ab".
Definition lf_hub_files : list FileRecord :=
  [ mkFile (Some ("lib/" +:+ lf_name)) (Some "python") None None;
    mkFile (Some "a.py") (Some "python") (Some [lf_name]) None;
    mkFile (Some "b.py") (Some "python") (Some [lf_name]) None ].

Definition eight_functions : list string := ["a"; "b"; "c"; "d"; "e"; "f"; "g"; "h"].

(** Two files of one system that share a basename, with five targets each. *)
Definition py_file (path : string) (imports : list string) : FileRecord :=
  mkFile (Some path) (Some "python") (Some imports) None.
Definition shared_basename_files : list FileRecord :=
  [ py_file "pkg/a/x.py" ["m1"; "m2"; "m3"; "m4"; "m5"];
    py_file "pkg/b/x.py" ["n1"; "n2"; "n3"; "n4"; "n5"] ]
  ++ map (fun m => py_file ("pkg/" +:+ m +:+ ".py") [])
         ["m1"; "m2"; "m3"; "m4"; "m5"; "n1"; "n2"; "n3"; "n4"; "n5"].

(** Lower-casing leaves the characters that the normaliser looks for. *)
Definition marks : list ascii := ["."; "/"; "034"; "039"]%char.

(** ** The box around the content lines, and the grouping helper *)

(** [draw_box]: [result] is the list the Python function appends to.  A
    negative [inner] makes [line[:inner]] drop characters from the end and
    [ljust] add nothing.  Like the rest of the model, the slice counts one
    character per [ascii] code, so the rows are exact for ASCII lines. *)
Definition draw_box (lines : list string) (width : Z) : list string :=
  let result := [] in
  let inner := (width - 4)%Z in
  let result := result ++ ["┌" +:+ Py.repeat_z "─" (width - 2) +:+ "┐"] in
  let result :=
    foldl (fun result line =>
             let text := Py.ljust (Z.to_nat inner) (Py.slice_to inner line) in
             result ++ ["│ " +:+ text +:+ " │"])
          result lines in
  let result := result ++ ["└" +:+ Py.repeat_z "─" (width - 2) +:+ "┘"] in
  result.

(** [parts[0] if parts else "."] *)
Definition first_part (path : string) : string :=
  match path_parts path with
  | p :: _ => p
  | [] => "."
  end.

(** [build_dependency_chains]: it returns [systems]; [chains] stays empty
    and [internal_deps] is not read. *)
Definition build_dependency_chains (files : list FileRecord)
    (internal_deps : Od.odict (list string)) : Od.odict (list FileRecord) :=
  foldl (fun systems f =>
           let path := path_of f in
           let system := first_part path in
           Od.append systems system f)
        [] files.

(** ** Notions used to state further properties of the code *)

(** The text of a content row of [draw_box] for [line]: the line cut to
    [inner] characters, or padded to them with spaces on the right. *)
Definition row_text (inner : nat) (line : string) : string :=
  if (String.length line <=? inner)%nat
  then line +:+ Py.repeat " " (inner - String.length line)
  else Py.take inner line.

(** The [while] loop that wraps one dependency line of the header, as a
    relation between the line and the rows it prints: the loop ends when the
    line fits, and otherwise prints one row and goes on with [next_line]. *)
Inductive wraps (content_width : nat) : string → list string → Prop :=
| wraps_done (line : string) :
    String.length line ≤ content_width →
    wraps content_width line ["│ " +:+ Py.ljust content_width line +:+ " │"]
| wraps_step (line : string) (rows : list string) :
    content_width < String.length line →
    wraps content_width (next_line content_width line) rows →
    wraps content_width line
      (("│ " +:+ Py.ljust content_width
                  (Py.take (match Py.rfind ", " (Py.take content_width line) with
                            | None => content_width - 1
                            | Some i => i + 1
                            end) line) +:+ " │") :: rows).

(** The files of the input whose key under [key] is [k], in input order:
    what a [defaultdict(list)] filled by [d[key(f)].append(f)] holds at [k]. *)
Definition group_of {A : Type} (key : A → string) (k : string) (l : list A) : list A :=
  filter (fun x => key x = k) l.

(** The characters a system name never contains: the two path separators,
    and the underscore and the hyphen, which become spaces. *)
Definition name_marks : list ascii := ["/"; "\"; "_"; "-"]%char.

(** ** Facts about ordered dictionaries and loops *)

Section od_facts.
Context {V : Type}.
Implicit Types (d : Od.odict V) (k : string) (v : V).

Lemma od_get_set d k v k' :
  Od.get (Od.set d k v) k' = if decide (k = k') then Some v else Od.get d k'.
Proof.
  induction d as [|[k0 v0] d IH]; simpl.
  - rewrite bool_decide_decide. by destruct (decide (k = k')).
  - destruct (decide (k0 = k)) as [->|Hne].
    + rewrite bool_decide_true by done. simpl.
      rewrite bool_decide_decide. by destruct (decide (k = k')).
    + rewrite bool_decide_false by done. simpl.
      rewrite IH, bool_decide_decide.
      destruct (decide (k0 = k')) as [->|]; [|done].
      by rewrite decide_False by congruence.
Qed.

Lemma od_get_touch dflt d k k' :
  Od.get (Od.touch dflt d k) k'
  = if decide (k = k') then Some (default dflt (Od.get d k)) else Od.get d k'.
Proof.
  unfold Od.touch. destruct (Od.get d k) as [v|] eqn:E.
  - destruct (decide (k = k')) as [<-|]; [by rewrite E|done].
  - by rewrite od_get_set.
Qed.
End od_facts.

Lemma od_get_append {A} (d : Od.odict (list A)) k x k' :
  Od.get (Od.append d k x) k'
  = if decide (k = k') then Some (default [] (Od.get d k) ++ [x]) else Od.get d k'.
Proof. unfold Od.append. apply od_get_set. Qed.

(** Loop invariants: a property that holds before a [for] loop and is kept
    by its body holds after it. *)
Lemma foldl_invariant {A B} (P : A → Prop) (f : A → B → A) (l : list B) (a : A) :
  P a → (∀ a x, x ∈ l → P a → P (f a x)) → P (foldl f a l).
Proof.
  revert a. induction l as [|x l IH]; intros a Ha Hf; simpl; [done|].
  apply IH.
  - apply Hf; [left|done].
  - intros a' y Hy. apply Hf. by right.
Qed.

(** ** The dependency map: no self edge, one language group, no duplicate *)

Section deps_invariants.
Variable files : list FileRecord.

Lemma build_index_ok_gen (l : list FileRecord) idx :
  (∀ f, f ∈ l → f ∈ files) → index_ok files idx → index_ok files (foldl index_file idx l).
Proof.
  intros Hl H0. apply foldl_invariant; [done|].
  intros idx' f Hf Hidx name cands Hget tp tg Hin.
  unfold index_file in Hget. rewrite od_get_append in Hget.
  case_decide as Hk; [|by eapply Hidx].
  injection Hget as <-. apply elem_of_app in Hin as [Hin|Hin].
  - destruct (Od.get idx' _) as [c|] eqn:E; simpl in Hin.
    + by eapply Hidx.
    + by apply elem_of_nil in Hin.
  - apply list_elem_of_singleton in Hin. injection Hin as -> ->.
    exists f. auto.
Qed.

Lemma build_index_ok : index_ok files (build_index files).
Proof.
  apply build_index_ok_gen; [done|]. intros name cands Hget. discriminate.
Qed.

Lemma add_candidate_ok f deps cand :
  f ∈ files →
  (∃ g, g ∈ files ∧ path_of g = cand.1 ∧ lang_group (language_of g) = cand.2) →
  deps_ok files deps →
  deps_ok files (add_candidate (path_of f) (lang_group (language_of f))
                         (Py.basename (path_of f)) deps cand).
Proof.
  intros Hf (g & Hg & Hgp & Hgg) Hdeps. destruct cand as [tp tg]; simpl in *.
  unfold add_candidate.
  case_bool_decide as H1; [done|].
  case_bool_decide as H2; simpl; [|done].
  case_bool_decide as H3; [done|].
  assert (Ht : deps_ok files (Od.touch [] deps (path_of f))).
  { intros p l. rewrite od_get_touch. case_decide as Hp; [|by apply Hdeps].
    destruct (Od.get deps (path_of f)) as [l0|] eqn:E; simpl; intros [= <-].
    - subst p. by apply Hdeps.
    - split; [constructor|]. split; [apply not_elem_of_nil|].
      intros t Hin. by apply elem_of_nil in Hin. }
  unfold Py.mem. case_bool_decide as H4; [done|].
  intros p l. rewrite od_get_append. case_decide as Hp; [|by apply Ht].
  subst p. intros [= <-].
  destruct (Od.get (Od.touch [] deps (path_of f)) (path_of f)) as [l0|] eqn:E;
    simpl in *.
  - destruct (Ht _ _ E) as (Hnd & Hself & Hgrp). split; [|split].
    + apply NoDup_app. split; [done|]. split; [|apply NoDup_singleton].
      intros x Hx Hx'. apply list_elem_of_singleton in Hx'. by subst x.
    + rewrite elem_of_app, list_elem_of_singleton. intros [?|?]; [done|].
      by apply H3.
    + intros t. rewrite elem_of_app, list_elem_of_singleton.
      intros [Hin| ->]; [by apply Hgrp|].
      exists f, g. subst tp tg. by rewrite H2.
  - split; [apply NoDup_singleton|]. split.
    + rewrite list_elem_of_singleton. intros ?. by apply H3.
    + intros t Hin. apply list_elem_of_singleton in Hin as ->.
      exists f, g. subst tp tg. by rewrite H2.
Qed.

Lemma add_import_ok idx f deps imp :
  index_ok files idx → f ∈ files → deps_ok files deps →
  deps_ok files (add_import idx (path_of f) (language_of f)
                      (lang_group (language_of f)) deps imp).
Proof.
  intros Hidx Hf Hdeps. unfold add_import.
  destruct (_ && _); [done|].
  destruct (Py.mem _ _); [done|].
  destruct (Od.get idx _) as [cands|] eqn:E; [|done].
  apply foldl_invariant; [done|].
  intros deps' [tp tg] Hin Hd. apply add_candidate_ok; [done| |done].
  by eapply Hidx.
Qed.

Lemma add_file_ok idx f deps :
  index_ok files idx → f ∈ files → deps_ok files deps → deps_ok files (add_file idx deps f).
Proof.
  intros Hidx Hf Hdeps. unfold add_file.
  apply foldl_invariant; [done|].
  intros deps' imp _ Hd. by apply add_import_ok.
Qed.

Lemma find_internal_deps_ok : deps_ok files (find_internal_deps files).
Proof.
  unfold find_internal_deps. apply foldl_invariant.
  - intros p l Hget. discriminate.
  - intros deps f Hf Hd. apply add_file_ok; [apply build_index_ok|done..].
Qed.
End deps_invariants.

(** ** Facts about strings *)

Lemma string_app_cons (a : ascii) (s t : string) :
  String a s +:+ t = String a (s +:+ t).
Proof. reflexivity. Qed.

Lemma string_app_nil_l (t : string) : "" +:+ t = t.
Proof. reflexivity. Qed.

(** [String.append] does not unfold under [simpl]; this does it. *)
Ltac str_simpl :=
  repeat (rewrite ?string_app_cons, ?string_app_nil_l in *; simpl in * ).

Lemma string_app_nil_r (s : string) : s +:+ "" = s.
Proof. induction s; str_simpl; congruence. Qed.

Lemma string_app_assoc (a b c : string) : (a +:+ b) +:+ c = a +:+ b +:+ c.
Proof. induction a; str_simpl; congruence. Qed.

Lemma string_length_app (a b : string) :
  String.length (a +:+ b) = String.length a + String.length b.
Proof. induction a; str_simpl; congruence. Qed.

Lemma prefix_split (w t : string) :
  String.prefix w t = true → t = w +:+ Py.drop (String.length w) t.
Proof.
  revert t. induction w as [|c w IH]; intros t H.
  - by destruct t.
  - destruct t as [|a t]; simpl in H; [done|].
    destruct (ascii_dec c a) as [->|]; [|done].
    rewrite string_app_cons. simpl. f_equal. by apply IH.
Qed.

Lemma prefix_app (w r : string) : String.prefix w (w +:+ r) = true.
Proof.
  induction w as [|c w IH]; [by destruct r|].
  rewrite string_app_cons. simpl. by destruct (ascii_dec c c).
Qed.

Lemma drop_app (w r : string) : Py.drop (String.length w) (w +:+ r) = r.
Proof. induction w as [|c w IH]; [by destruct r|]. by rewrite string_app_cons. Qed.

Lemma drop_all (s : string) : Py.drop (String.length s) s = "".
Proof. induction s; simpl; done. Qed.

Lemma contains_app (c : ascii) (a b : string) :
  Py.contains c (a +:+ b) = Py.contains c a || Py.contains c b.
Proof.
  induction a as [|x a IH]; [done|]. rewrite string_app_cons. simpl.
  rewrite IH. by rewrite orb_assoc.
Qed.

(** *** [split] and the substring after the last separator *)

Lemma split_no_sep (c : ascii) (s : string) :
  Py.contains c s = false → Py.split c s = [s].
Proof.
  induction s as [|a s IH]; simpl; [done|].
  intros H. apply orb_false_iff in H as [Ha Hs].
  rewrite Ha. by rewrite IH.
Qed.

Lemma split_sep (c : ascii) (s : string) :
  Py.contains c s = true → ∃ h x t, Py.split c s = h :: x :: t.
Proof.
  induction s as [|a s IH]; simpl; [done|].
  destruct (bool_decide (a = c)) eqn:Ha; simpl.
  - intros _. destruct s as [|b s]; simpl; [by eauto|].
    destruct (bool_decide (b = c)); [by eauto|].
    destruct (Py.split c s); by eauto.
  - intros Hs. destruct (IH Hs) as (h & x & t & ->). by eauto.
Qed.

Lemma after_last_no_sep (c : ascii) (s : string) :
  Py.contains c s = false → after_last c s = s.
Proof.
  destruct s as [|a s]; simpl; [done|].
  intros H. apply orb_false_iff in H as [Ha Hs]. by rewrite Hs, Ha.
Qed.

Lemma last_split (c : ascii) (s : string) :
  Py.last_item (Py.split c s) = after_last c s.
Proof.
  unfold Py.last_item. induction s as [|a s IH]; simpl; [done|].
  destruct (Py.contains c s) eqn:Hs.
  - destruct (split_sep _ _ Hs) as (h & x & t & E). rewrite E in *.
    destruct (bool_decide (a = c)); simpl in *; by rewrite <- IH.
  - rewrite (split_no_sep _ _ Hs).
    destruct (bool_decide (a = c)); simpl; done.
Qed.

Lemma after_last_no_more (c : ascii) (s : string) :
  Py.contains c (after_last c s) = false.
Proof.
  induction s as [|a s IH]; simpl; [done|].
  destruct (Py.contains c s) eqn:Hs; [done|].
  destruct (bool_decide (a = c)) eqn:Ha; [done|]. simpl. by rewrite Ha, Hs.
Qed.

(** *** [lower] *)

Lemma chr_lower_idem (c : ascii) : Py.chr_lower (Py.chr_lower c) = Py.chr_lower c.
Proof. by destruct c as [[] [] [] [] [] [] [] []]. Qed.

Lemma chr_lower_mark (x c : ascii) :
  x ∈ marks → bool_decide (Py.chr_lower c = x) = bool_decide (c = x).
Proof.
  intros Hx. unfold marks in Hx.
  repeat (apply elem_of_cons in Hx as [->|Hx]); try by apply elem_of_nil in Hx.
  all: by destruct c as [[] [] [] [] [] [] [] []].
Qed.

Lemma lower_idem (s : string) : Py.lower (Py.lower s) = Py.lower s.
Proof. induction s; simpl; [done|]. by rewrite chr_lower_idem, IHs. Qed.

(** ** Facts about the matcher *)

Lemma sub_from_skip (r : Re.re) (n pos : nat) (s : string) :
  Re.sub_from r pos n s = Re.sub_from r (pos + n) 0 (Py.drop n s).
Proof.
  revert pos s. induction n as [|n IH]; intros pos s.
  - rewrite Nat.add_0_r. by destruct s.
  - destruct s as [|a s]; simpl; [done|].
    rewrite IH. by rewrite Nat.add_succ_r.
Qed.

Lemma sub_from_skip_all (r : Re.re) (pos : nat) (s : string) :
  Re.sub_from r pos (String.length s) s = "".
Proof. rewrite sub_from_skip, drop_all. done. Qed.

(** A pattern that starts with a literal character leaves a string without
    that character as it is. *)
Lemma sub_from_without_first_char (c : ascii) (r : Re.re) (pos : nat) (s : string) :
  Py.contains c s = false → Re.sub_from (Re.Seq (Re.lit c) r) pos 0 s = s.
Proof.
  revert pos. induction s as [|a s IH]; intros pos H; [done|].
  simpl in H. apply orb_false_iff in H as [Ha Hs].
  simpl. unfold Re.match_at. simpl. rewrite Ha. f_equal. by apply IH.
Qed.

Lemma sub_without_first_char (c : ascii) (r : Re.re) (s : string) :
  Py.contains c s = false → Re.sub (Re.Seq (Re.lit c) r) s = s.
Proof. apply sub_from_without_first_char. Qed.

(** A word matches exactly its own characters. *)
Lemma run_word (w : string) (pos : nat) (t : string) (k : Re.kont) :
  Re.run (Re.word w) pos t k
  = if String.prefix w t
    then k (pos + String.length w) (Py.drop (String.length w) t) else None.
Proof.
  revert pos t. induction w as [|c w IH]; intros pos t.
  - simpl. rewrite Nat.add_0_r. by destruct t.
  - assert (Hstep : Re.run (Re.Seq (Re.lit c) (Re.word w)) pos t k
                    = if String.prefix (String c w) t
                      then k (pos + S (String.length w))
                             (Py.drop (S (String.length w)) t)
                      else None).
    { destruct t as [|a t]; simpl; [done|].
      destruct (ascii_dec c a) as [->|Hne].
      - rewrite bool_decide_true by done. rewrite IH.
        by rewrite Nat.add_succ_r.
      - rewrite bool_decide_false by congruence. done. }
    destruct w as [|c' w]; [|exact Hstep].
    destruct t as [|a t]; simpl; [done|].
    destruct (ascii_dec c a) as [->|Hne].
    + rewrite bool_decide_true by done. destruct t; by rewrite Nat.add_1_r.
    + by rewrite bool_decide_false by congruence.
Qed.

Lemma run_alts_eol (w : string) (ws : list string) (pos : nat) (t : string) :
  Re.run (Re.Seq (Re.alts w ws) Re.Eol) pos t take_rest = first_hit (w :: ws) t.
Proof.
  revert w. induction ws as [|w' ws IH]; intros w.
  - simpl. rewrite run_word. simpl.
    destruct (String.prefix w t); [|done]. by destruct (Re.at_eol _).
  - specialize (IH w'). simpl in *. rewrite run_word. simpl.
    destruct (String.prefix w t); simpl; [|exact IH].
    destruct (Re.at_eol (Py.drop (String.length w) t)); [done|exact IH].
Qed.

Lemma at_eol_cases (s : string) :
  Re.at_eol s = true → s = "" ∨ s = String Py.LF "".
Proof.
  destruct s as [|a [|b s]]; simpl; [by left| |done].
  intros H. apply bool_decide_eq_true in H as ->. by right.
Qed.

Lemma mem_cons_ne (t w : string) (ws : list string) :
  t ≠ w → bool_decide (t ∈ w :: ws) = bool_decide (t ∈ ws).
Proof.
  intros H. apply bool_decide_ext. rewrite elem_of_cons.
  split; [by intros [?|?]|by right].
Qed.

Lemma first_hit_spec (ws : list string) (t : string) :
  Forall (fun w => Py.contains Py.LF w = false) ws →
  first_hit ws t
  = if Py.mem t ws then Some ""
    else if Py.mem t (map with_lf ws) then Some (String Py.LF "") else None.
Proof.
  unfold Py.mem. induction 1 as [|w ws Hw Hws IH]; [done|].
  simpl. destruct (String.prefix w t) eqn:Hp; simpl.
  - apply prefix_split in Hp. destruct (Re.at_eol _) eqn:He.
    + apply at_eol_cases in He as [He|He]; rewrite He in *.
      * rewrite string_app_nil_r in Hp. subst t.
        rewrite bool_decide_true by left. done.
      * assert (Ht : Py.contains Py.LF t = true).
        { rewrite Hp, contains_app. simpl. by rewrite orb_true_r. }
        rewrite bool_decide_false.
        { rewrite bool_decide_true; [done|]. rewrite Hp. left. }
        intros Hin. apply Forall_cons_2 with (x := w) in Hws; [|done].
        rewrite Forall_forall in Hws. apply Hws in Hin. congruence.
    + rewrite IH. clear IH.
      assert (Hne : t ≠ w).
      { intros ->. rewrite drop_all in He. done. }
      assert (Hne' : t ≠ with_lf w).
      { intros ->. unfold with_lf in He. rewrite drop_app in He. done. }
      by rewrite !mem_cons_ne by done.
  - rewrite IH. clear IH.
    assert (Hne : t ≠ w).
    { intros ->. pose proof (prefix_app w "") as Hq.
      rewrite string_app_nil_r in Hq. congruence. }
    assert (Hne' : t ≠ with_lf w).
    { intros ->. unfold with_lf in Hp. rewrite prefix_app in Hp. done. }
    by rewrite !mem_cons_ne by done.
Qed.

Lemma sub_from_cons (r : Re.re) (pos : nat) (a : ascii) (t : string) :
  Re.sub_from r pos 0 (String a t)
  = match Re.match_at r pos (String a t) with
    | Some rest =>
        match String.length (String a t) - String.length rest with
        | O => String a (Re.sub_from r (S pos) 0 t)
        | S n => Re.sub_from r (S pos) n t
        end
    | None => String a (Re.sub_from r (S pos) 0 t)
    end.
Proof. reflexivity. Qed.

(** *** The pattern of the known extensions *)

Lemma known_extensions_no_lf :
  Forall (fun w => Py.contains Py.LF w = false) known_extensions.
Proof. repeat constructor. Qed.

Lemma known_ext_match (pos : nat) (a : ascii) (t : string) :
  Re.match_at re_known_ext pos (String a t)
  = if bool_decide (a = "."%char) then first_hit known_extensions t else None.
Proof.
  change (Re.match_at re_known_ext pos (String a t))
    with (if bool_decide (a = "."%char)
          then Re.run (Re.Seq (Re.alts "py" known_exts) Re.Eol) (S pos) t take_rest
          else None).
  destruct (bool_decide (a = "."%char)); [|done].
  apply (run_alts_eol "py" known_exts).
Qed.

Lemma strip_trailing_ext_lf_cons (a : ascii) (r : string) :
  strip_trailing_ext_lf (String a r)
  = if bool_decide (a = "."%char) && Py.mem r known_extensions then ""
    else if bool_decide (a = "."%char) && Py.mem r (map with_lf known_extensions)
         then String Py.LF ""
    else String a (strip_trailing_ext_lf r).
Proof. reflexivity. Qed.

Lemma sub_from_known_ext (pos : nat) (s : string) :
  Re.sub_from re_known_ext pos 0 s = strip_trailing_ext_lf s.
Proof.
  revert pos. induction s as [|a s IH]; intros pos; [done|].
  rewrite sub_from_cons, known_ext_match.
  rewrite first_hit_spec by apply known_extensions_no_lf.
  rewrite strip_trailing_ext_lf_cons.
  destruct (bool_decide (a = "."%char)); [|by rewrite IH].
  rewrite !andb_true_l.
  destruct (Py.mem s known_extensions) eqn:E1.
  - apply sub_from_skip_all.
  - destruct (Py.mem s (map with_lf known_extensions)) eqn:E2; [|by rewrite IH].
    apply bool_decide_eq_true in E2. apply list_elem_of_fmap in E2 as (w & -> & _).
    unfold with_lf.
    replace (String.length (String a (w +:+ String Py.LF "")) - String.length (String Py.LF ""))
      with (S (String.length w)) by (simpl; rewrite string_length_app; simpl; lia).
    rewrite sub_from_skip, drop_app. done.
Qed.

Lemma sub_known_ext (s : string) :
  Re.sub re_known_ext s = strip_trailing_ext_lf s.
Proof. apply sub_from_known_ext. Qed.

(** *** Dot-free strings stay dot-free, and lower-casing commutes *)

Lemma contains_lstrip (c : ascii) (cs : list ascii) (s : string) :
  Py.contains c s = false → Py.contains c (Py.lstrip cs s) = false.
Proof.
  induction s as [|a s IH]; simpl; [done|].
  intros H. apply orb_false_iff in H as [Ha Hs].
  destruct (Py.chr_in a cs); [by apply IH|]. simpl. by rewrite Ha, Hs.
Qed.

Lemma contains_rstrip (c : ascii) (cs : list ascii) (s : string) :
  Py.contains c s = false → Py.contains c (Py.rstrip cs s) = false.
Proof.
  induction s as [|a s IH]; simpl; [done|].
  intros H. apply orb_false_iff in H as [Ha Hs].
  destruct (_ && _); [done|]. simpl. by rewrite Ha, IH.
Qed.

Lemma contains_strip (c : ascii) (cs : list ascii) (s : string) :
  Py.contains c s = false → Py.contains c (Py.strip cs s) = false.
Proof. intros H. by apply contains_rstrip, contains_lstrip. Qed.

Lemma contains_after_last (c x : ascii) (s : string) :
  Py.contains c s = false → Py.contains c (after_last x s) = false.
Proof.
  induction s as [|a s IH]; simpl; [done|].
  intros H. apply orb_false_iff in H as [Ha Hs].
  destruct (Py.contains x s); [by apply IH|].
  destruct (bool_decide (a = x)); [done|]. simpl. by rewrite Ha, Hs.
Qed.

Lemma contains_lower (x : ascii) (s : string) :
  x ∈ marks → Py.contains x (Py.lower s) = Py.contains x s.
Proof.
  intros Hx. induction s as [|a s IH]; simpl; [done|].
  by rewrite chr_lower_mark, IH.
Qed.

Lemma chr_in_lower (c : ascii) : Py.chr_in (Py.chr_lower c) quote_chars = Py.chr_in c quote_chars.
Proof. by destruct c as [[] [] [] [] [] [] [] []]. Qed.

Lemma lstrip_lower (s : string) :
  Py.lstrip quote_chars (Py.lower s) = Py.lower (Py.lstrip quote_chars s).
Proof.
  induction s as [|a s IH]; simpl; [done|].
  rewrite chr_in_lower. by destruct (Py.chr_in a quote_chars).
Qed.

Lemma is_empty_lower (s : string) : Py.is_empty (Py.lower s) = Py.is_empty s.
Proof. by destruct s. Qed.

Lemma rstrip_lower (s : string) :
  Py.rstrip quote_chars (Py.lower s) = Py.lower (Py.rstrip quote_chars s).
Proof.
  induction s as [|a s IH]; simpl; [done|].
  rewrite IH, is_empty_lower, chr_in_lower. by destruct (_ && _).
Qed.

Lemma strip_lower (s : string) :
  Py.strip quote_chars (Py.lower s) = Py.lower (Py.strip quote_chars s).
Proof. unfold Py.strip. by rewrite lstrip_lower, rstrip_lower. Qed.

Lemma after_last_lower (x : ascii) (s : string) :
  x ∈ marks → after_last x (Py.lower s) = Py.lower (after_last x s).
Proof.
  intros Hx. induction s as [|a s IH]; simpl; [done|].
  rewrite contains_lower, chr_lower_mark, IH by done.
  destruct (Py.contains x s); [done|]. by destruct (bool_decide (a = x)).
Qed.

(** The normaliser on a string without a dot: quotes off, last path segment,
    lower case. *)
Lemma normalize_import_no_dot (imp lang : string) :
  Py.contains "." imp = false →
  normalize_import imp lang
  = Py.lower (let s := Py.strip quote_chars imp in
              if Py.contains "/" s then after_last "/" s else s).
Proof.
  intros H. unfold normalize_import. rewrite !last_split.
  set (s1 := Py.strip quote_chars imp).
  assert (H1 : Py.contains "." s1 = false) by by apply contains_strip.
  set (s2 := if Py.contains "/" s1 then after_last "/" s1 else s1).
  assert (H2 : Py.contains "." s2 = false).
  { unfold s2. destruct (Py.contains "/" s1); [|done]. by apply contains_after_last. }
  rewrite H2. simpl. f_equal. by apply sub_without_first_char.
Qed.

(** *** The pattern of the HUBS line *)

Lemma plus_greedy_to_end (pos : nat) (t : string) :
  t ≠ "" → Py.contains "." t = false →
  Re.plus_greedy (Re.CNot ["."%char]) pos t
    (fun pos' s' => if Re.at_eol s' then take_rest pos' s' else None) = Some "".
Proof.
  revert pos. induction t as [|a t IH]; intros pos Hne H; [done|].
  simpl in H. apply orb_false_iff in H as [Ha Ht].
  simpl. unfold Py.chr_in.
  rewrite bool_decide_false.
  2:{ rewrite list_elem_of_singleton. by apply bool_decide_eq_false in Ha. }
  simpl. destruct t as [|b t]; [done|].
  rewrite IH; done.
Qed.

Lemma hub_name_no_dot (name : string) :
  Py.contains "." name = false → (2 ≤ String.length name)%nat →
  Py.startswith Py.LF name = false → hub_name name = "".
Proof.
  intros Hdot Hlen Hlf. destruct name as [|a t]; [simpl in Hlen; lia|].
  simpl in Hdot, Hlen, Hlf. apply orb_false_iff in Hdot as [_ Ht].
  unfold hub_name, Re.sub. rewrite sub_from_cons.
  change (Re.match_at re_hub_name 0 (String a t))
    with (if negb (bool_decide (a = Py.LF))
          then Re.plus_greedy (Re.CNot ["."%char]) 1 t
                 (fun pos' s' => if Re.at_eol s' then take_rest pos' s' else None)
          else None).
  rewrite Hlf. simpl negb. cbv iota.
  rewrite plus_greedy_to_end; [| |done].
  - rewrite Nat.sub_0_r. apply sub_from_skip_all.
  - intros ->. simpl in Hlen. lia.
Qed.

(** *** Without a line feed the two readings of step 4 agree *)

Lemma strip_trailing_ext_no_lf (s : string) :
  Py.contains Py.LF s = false → strip_trailing_ext_lf s = strip_trailing_ext s.
Proof.
  induction s as [|a s IH]; intros H; [done|].
  simpl in H. apply orb_false_iff in H as [_ Hs].
  rewrite strip_trailing_ext_lf_cons.
  change (strip_trailing_ext (String a s))
    with (if bool_decide (a = "."%char) && Py.mem s known_extensions then ""
          else String a (strip_trailing_ext s)).
  destruct (bool_decide (a = "."%char));
    rewrite ?andb_true_l, ?andb_false_l; [|by rewrite IH].
  destruct (Py.mem s known_extensions); [done|].
  destruct (Py.mem s (map with_lf known_extensions)) eqn:E; [|by rewrite IH].
  apply bool_decide_eq_true in E. apply list_elem_of_fmap in E as (w & -> & _).
  unfold with_lf in Hs. rewrite contains_app in Hs. simpl in Hs.
  by rewrite orb_true_r in Hs.
Qed.

Lemma normalize_import_reference (imp lang : string) :
  Py.contains Py.LF imp = false →
  normalize_import imp lang = normalize_reference imp.
Proof.
  intros H. unfold normalize_import, normalize_reference, normalize_steps.
  rewrite !last_split, sub_known_ext. f_equal.
  apply strip_trailing_ext_no_lf.
  set (s1 := Py.strip quote_chars imp).
  assert (H1 : Py.contains Py.LF s1 = false) by by apply contains_strip.
  set (s2 := if Py.contains "/" s1 then after_last "/" s1 else s1).
  assert (H2 : Py.contains Py.LF s2 = false).
  { unfold s2. destruct (Py.contains "/" s1); [|done]. by apply contains_after_last. }
  destruct (_ && _); [|done]. by apply contains_after_last.
Qed.

(** *** The patterns never match the empty string *)

(** What [run] returns is what the continuation returned. *)
Lemma run_shorter (r : Re.re) :
  ∀ (pos : nat) (s : string) (k : Re.kont) (rest : string) (n : nat),
    (∀ pos' s' rest', k pos' s' = Some rest' →
       String.length s' ≤ String.length s → String.length rest' + n ≤ String.length s') →
    Re.run r pos s k = Some rest → String.length rest + n ≤ String.length s.
Proof.
  induction r as [c|c|r1 IH1 r2 IH2|r1 IH1 r2 IH2| | |];
    intros pos s k rest n Hk Hrun; simpl in Hrun.
  - destruct s as [|a t]; [done|]. destruct (Re.cls_ok c a); [|done].
    specialize (Hk _ _ _ Hrun). simpl in *. lia.
  - revert pos Hk Hrun. induction s as [|a t IHt]; intros pos Hk Hrun; [done|].
    simpl in Hrun. destruct (Re.cls_ok c a); [|done].
    destruct (Re.plus_greedy c (S pos) t k) eqn:E.
    + injection Hrun as ->. apply IHt in E; [simpl; lia|].
      intros pos' s' rest' Hr Hlen. eapply Hk; [exact Hr|simpl; lia].
    + specialize (Hk _ _ _ Hrun). simpl in *. lia.
  - eapply IH1; [|exact Hrun]. intros pos' s' rest' Hr Hlen.
    eapply IH2; [|exact Hr]. intros pos'' s'' rest'' Hr' Hlen'.
    eapply Hk; [exact Hr'|lia].
  - destruct (Re.run r1 pos s k) eqn:E.
    + injection Hrun as ->. by eapply IH1.
    + by eapply IH2.
  - by apply (Hk _ _ _ Hrun).
  - destruct (bool_decide _); [|done]. by apply (Hk _ _ _ Hrun).
  - destruct (Re.at_eol s); [|done]. by apply (Hk _ _ _ Hrun).
Qed.

(** A pattern that starts with one character consumes at least one. *)
Lemma match_at_consumes (c : Re.cls) (r : Re.re) (pos : nat) (s rest : string) :
  Re.match_at (Re.Seq (Re.One c) r) pos s = Some rest →
  String.length rest < String.length s.
Proof.
  unfold Re.match_at. simpl. destruct s as [|a t]; [done|].
  destruct (Re.cls_ok c a); [|done]. intros H.
  apply (run_shorter r _ _ _ _ 0) in H; [simpl; lia|].
  intros pos' s' rest' [= ->] _. lia.
Qed.

(** ** The wrapping loop of the header ends

    [wrap_dep_line] stands for a [while] loop and recurses on a count of
    rounds.  With a content width above 5 and no comma among the first three
    characters of the line (a label, or the indent of a continuation), every
    round shortens the line, so the count given by [render_header], the
    length of the line, is never used up: the result is the same with any
    larger count. *)

Lemma length_drop_le (n : nat) (s : string) :
  String.length (Py.drop n s) = String.length s - n.
Proof.
  revert s. induction n as [|n IH]; intros [|a s]; simpl; try done.
Qed.

Lemma length_lstrip_le (cs : list ascii) (s : string) :
  String.length (Py.lstrip cs s) ≤ String.length s.
Proof.
  induction s as [|a s IH]; simpl; [done|].
  destruct (Py.chr_in a cs); simpl; lia.
Qed.

Lemma length_lstrip_space (s : string) :
  Py.startswith " " s = true →
  String.length (Py.lstrip [" "%char] s) < String.length s.
Proof.
  destruct s as [|a s]; simpl; [done|]. intros Ha.
  apply bool_decide_eq_true in Ha as ->.
  unfold Py.chr_in. rewrite bool_decide_true by left.
  pose proof (length_lstrip_le [" "%char] s). lia.
Qed.

(** Where [rfind] finds the needle, the needle is. *)
Lemma rfind_cons (sub : string) (a : ascii) (s : string) :
  Py.rfind sub (String a s)
  = match Py.rfind sub s with
    | Some i => Some (S i)
    | None => if String.prefix sub (String a s) then Some 0 else None
    end.
Proof. reflexivity. Qed.

Lemma rfind_prefix (sub s : string) (i : nat) :
  Py.rfind sub s = Some i → String.prefix sub (Py.drop i s) = true.
Proof.
  revert i. induction s as [|a s IH]; intros i H.
  - simpl in H. destruct sub; [|done]. injection H as <-. done.
  - rewrite rfind_cons in H. destruct (Py.rfind sub s) as [j|] eqn:E.
    + injection H as <-. simpl. by apply IH.
    + destruct (String.prefix sub (String a s)) eqn:Hp; [|done].
      injection H as <-. done.
Qed.

Lemma take_drop_id (n : nat) (s : string) : Py.take n s +:+ Py.drop n s = s.
Proof.
  revert s. induction n as [|n IH]; intros [|a s]; try done.
  simpl. rewrite string_app_cons. by rewrite IH.
Qed.

Lemma prefix_app_r (sub x r : string) :
  String.prefix sub x = true → String.prefix sub (x +:+ r) = true.
Proof.
  revert x. induction sub as [|c sub IH]; intros x H; [by destruct (x +:+ r)|].
  destruct x as [|a x]; simpl in H; [done|]. rewrite string_app_cons. simpl.
  destruct (ascii_dec c a); [|done]. by apply IH.
Qed.

Lemma drop_0 (s : string) : Py.drop 0 s = s.
Proof. by destruct s. Qed.

Lemma drop_S (n : nat) (s : string) : Py.drop (S n) s = Py.drop 1 (Py.drop n s).
Proof.
  revert s. induction n as [|n IH]; intros s; [by rewrite drop_0|].
  destruct s as [|a s]; [done|].
  change (Py.drop (S (S n)) (String a s)) with (Py.drop (S n) s).
  change (Py.drop (S n) (String a s)) with (Py.drop n s). apply IH.
Qed.

Lemma drop_app_le (i : nat) (a b : string) :
  i ≤ String.length a → Py.drop i (a +:+ b) = Py.drop i a +:+ b.
Proof.
  revert a. induction i as [|i IH]; intros a H.
  - by rewrite !drop_0.
  - destruct a as [|c a]; [simpl in H; lia|].
    rewrite string_app_cons. simpl. apply IH. simpl in H. lia.
Qed.

Lemma drop_ge (i : nat) (a : string) : String.length a ≤ i → Py.drop i a = "".
Proof.
  revert a. induction i as [|i IH]; intros [|c a] H; try done.
  - simpl in H. lia.
  - simpl. apply IH. simpl in H. lia.
Qed.

Lemma prefix_drop_take (sub s : string) (i n : nat) :
  String.prefix sub (Py.drop i (Py.take n s)) = true →
  String.prefix sub (Py.drop i s) = true.
Proof.
  intros H. rewrite <- (take_drop_id n s) at 1.
  destruct (decide (i ≤ String.length (Py.take n s))) as [Hi|Hi].
  - rewrite drop_app_le by done. by apply prefix_app_r.
  - rewrite drop_ge in H by lia. destruct sub; [|done].
    by destruct (Py.drop i _).
Qed.

(** A needle found at index [i] puts its first character among the first
    [n] characters when [i < n]. *)
Lemma prefix_drop_contains (c : ascii) (sub s : string) (i n : nat) :
  String.prefix (String c sub) (Py.drop i s) = true → i < n →
  Py.contains c (Py.take n s) = true.
Proof.
  revert s n. induction i as [|i IH]; intros s n H Hlt.
  - rewrite drop_0 in H. destruct s as [|a s]; [done|].
    destruct n as [|n]; [lia|]. simpl in *.
    destruct (ascii_dec c a) as [->|]; [|done]. by rewrite bool_decide_true.
  - destruct s as [|a s]; [done|]. destruct n as [|n]; [lia|]. simpl in *.
    rewrite (IH s n H) by lia. apply orb_true_r.
Qed.

Lemma comma_after_three (line : string) (i : nat) :
  Py.contains "," (Py.take 3 line) = false →
  String.prefix ", " (Py.drop i line) = true → 3 ≤ i.
Proof.
  intros Hno Hp. destruct (decide (3 ≤ i)) as [|Hi]; [done|].
  rewrite (prefix_drop_contains _ _ _ i 3 Hp) in Hno by lia. done.
Qed.

Lemma next_line_shorter (content_width : nat) (line : string) :
  5 < content_width → content_width < String.length line →
  Py.contains "," (Py.take 3 line) = false →
  String.length (next_line content_width line) < String.length line
  ∧ Py.contains "," (Py.take 3 (next_line content_width line)) = false.
Proof.
  intros Hcw Hlen Hno. split; [|done].
  unfold next_line. rewrite string_length_app. simpl String.length.
  destruct (Py.rfind ", " (Py.take content_width line)) as [i|] eqn:E.
  - apply rfind_prefix, prefix_drop_take in E.
    pose proof (comma_after_three _ _ Hno E) as Hi.
    assert (Hsp : Py.startswith " " (Py.drop (i + 1) line) = true).
    { apply prefix_split in E. simpl String.length in E.
      replace (i + 1) with (S i) by lia.
      rewrite drop_S, E. done. }
    apply length_lstrip_space in Hsp.
    rewrite length_drop_le in Hsp. lia.
  - pose proof (length_lstrip_le [" "%char] (Py.drop (content_width - 1) line)) as Hl.
    rewrite length_drop_le in Hl. lia.
Qed.

Lemma wrap_dep_line_step (fuel content_width : nat) (line : string) :
  content_width < String.length line →
  wrap_dep_line (S fuel) content_width line
  = ("│ " +:+ Py.ljust content_width
               (Py.take (match Py.rfind ", " (Py.take content_width line) with
                         | None => content_width - 1
                         | Some i => i + 1
                         end) line) +:+ " │")
    :: wrap_dep_line fuel content_width (next_line content_width line).
Proof.
  intros H. simpl. apply Nat.ltb_lt in H. by rewrite H.
Qed.

Lemma wrap_dep_line_fuel (content_width : nat) :
  5 < content_width →
  ∀ fuel fuel' line,
    Py.contains "," (Py.take 3 line) = false →
    String.length line ≤ fuel → String.length line ≤ fuel' →
    wrap_dep_line fuel content_width line = wrap_dep_line fuel' content_width line.
Proof.
  intros Hcw. induction fuel as [|fuel IH]; intros fuel' line Hno Hf Hf'.
  - destruct line; [|simpl in Hf; lia]. by destruct fuel'.
  - destruct (Nat.ltb_spec content_width (String.length line)) as [Hlt|Hge].
    + destruct fuel' as [|fuel']; [lia|].
      rewrite !wrap_dep_line_step by done. f_equal.
      destruct (next_line_shorter content_width line Hcw Hlt Hno) as [Hs Hno'].
      apply IH; [done|lia..].
    + destruct fuel'; simpl;
        destruct (Nat.ltb_spec content_width (String.length line)); try lia; done.
Qed.

(** In [render_header] both conditions hold: the panel is at least 24 wide,
    and every dependency line starts with one of the fixed labels. *)
Lemma label_line_no_comma (lang rest : string) :
  lang ∈ lang_order →
  Py.contains ","
    (Py.take 3 (default (Py.title lang) (Od.get lang_labels lang) +:+ ": " +:+ rest))
  = false.
Proof.
  intros H. unfold lang_order in H.
  repeat (apply elem_of_cons in H as [->|H]); try by apply elem_of_nil in H.
  all: reflexivity.
Qed.

Lemma dep_lines_invariant (ext_by_lang : Od.odict (list string)) (langs : list string) :
  (∀ lang, lang ∈ langs → lang ∈ lang_order) →
  ∀ (dep_lines : list string) (max_width : nat),
    Forall (fun line => Py.contains "," (Py.take 3 line) = false) dep_lines →
    let st := foldl (dep_line_step ext_by_lang) (dep_lines, max_width) langs in
    Forall (fun line => Py.contains "," (Py.take 3 line) = false) st.1
    ∧ max_width ≤ st.2.
Proof.
  induction langs as [|lang langs IH]; intros Hin dep_lines max_width Hok; simpl.
  - done.
  - assert (Hlang : lang ∈ lang_order) by (apply Hin; left).
    assert (Hrest : ∀ l, l ∈ langs → l ∈ lang_order) by (intros l Hl; apply Hin; by right).
    unfold dep_line_step at 2. destruct (Od.get ext_by_lang lang) as [names|].
    + match goal with
      | |- context [foldl _ (?dl, ?mw) langs] =>
          destruct (IH Hrest dl mw) as [H1 H2]
      end.
      { apply Forall_app. split; [done|]. constructor; [|constructor].
        by apply label_line_no_comma. }
      split; [done|]. etrans; [|exact H2].
      destruct (_ <? _) eqn:E; [|done]. apply Nat.ltb_lt in E. lia.
    + by apply IH.
Qed.

Lemma render_header_wrap_fuel (external_deps_data : Od.odict (list string))
    (project_name : string) :
  let title := project_name +:+ " - Dependency Flow" in
  let st := foldl (dep_line_step (build_ext_by_lang external_deps_data))
              ([], String.length title + 6) lang_order in
  let content_width := Nat.min st.2 80 - 2 - 2 in
  Forall (fun line =>
            ∀ fuel, String.length line ≤ fuel →
              wrap_dep_line fuel content_width line
              = wrap_dep_line (String.length line) content_width line) st.1.
Proof.
  intros title st content_width.
  destruct (dep_lines_invariant (build_ext_by_lang external_deps_data) lang_order
              ltac:(done) [] (String.length title + 6) ltac:(constructor))
    as [Hlines Hwidth].
  fold st in Hlines, Hwidth.
  assert (Hcw : 5 < content_width).
  { unfold content_width, title in *. rewrite string_length_app in Hwidth.
    simpl in Hwidth. lia. }
  eapply Forall_impl; [exact Hlines|]. intros line Hline fuel Hfuel.
  by apply wrap_dep_line_fuel.
Qed.

Example scenario1_deps : find_internal_deps scenario1 = [("a.py", ["b.py"])].
Proof. reflexivity. Qed.

(** C1: for every input file list and every file [f], the basename of [f] is
    not in [DependencyMap[f.path]]: no file is its own dependency target, also
    when another file shares its basename. *)
Theorem C1_no_self_dependency (files : list FileRecord) (f : FileRecord) :
  Py.basename (path_of f) ∉ dependency_map files (path_of f).
Proof.
  unfold dependency_map.
  destruct (Od.get (find_internal_deps files) (path_of f)) as [l|] eqn:E; simpl.
  - by destruct (find_internal_deps_ok files _ _ E) as (_ & Hself & _).
  - apply not_elem_of_nil.
Qed.

(** C2, as stated, fails: when a path is filed twice under two language
    groups, the targets found for one record are listed for the other too.
    Here ["b.go"] is in [DependencyMap["a.py"]], the first record is a python
    file, and no python file is called ["b.go"]. *)
Lemma C2_counterexample :
  let f := mkFile (Some "a.py") (Some "python") (Some []) None in
  f ∈ twice_filed
  ∧ "b.go" ∈ dependency_map twice_filed (path_of f)
  ∧ ¬ (∃ g, g ∈ twice_filed ∧ Py.basename (path_of g) = "b.go" ∧
            lang_group (language_of g) = lang_group (language_of f)).
Proof.
  simpl. split; [left|]. split; [vm_compute; left|].
  intros (g & Hg & Hname & Hgroup). unfold twice_filed in Hg.
  repeat (apply elem_of_cons in Hg as [->|Hg]); try by apply elem_of_nil in Hg.
  all: vm_compute in Hname, Hgroup; discriminate.
Qed.

(** C2 (amended): for every input file list in which the records filed under
    one path have one language group, and every file [f] of it, every
    basename in [DependencyMap[f.path]] is the basename of a file of the list
    whose language group is that of [f], and no basename occurs twice in
    [DependencyMap[f.path]]. *)
Theorem C2_same_group_no_duplicate (files : list FileRecord) (f : FileRecord) :
  path_fixes_group files → f ∈ files →
  (∀ t, t ∈ dependency_map files (path_of f) →
     ∃ g, g ∈ files ∧ Py.basename (path_of g) = t ∧
          lang_group (language_of g) = lang_group (language_of f))
  ∧ NoDup (dependency_map files (path_of f)).
Proof.
  intros Hpaths Hf. unfold dependency_map.
  destruct (Od.get (find_internal_deps files) (path_of f)) as [l|] eqn:E; simpl.
  - destruct (find_internal_deps_ok files _ _ E) as (Hnd & _ & Hgrp).
    split; [|done]. intros t Ht.
    destruct (Hgrp t Ht) as (f' & g & Hf' & Hg & Hp & Hname & Hgroup).
    exists g. split; [done|]. split; [done|].
    rewrite Hgroup. by apply Hpaths.
  - split; [|constructor]. intros t Ht. by apply elem_of_nil in Ht.
Qed.

Lemma C2_witness :
  (∀ t, t ∈ dependency_map scenario1 "a.py" →
     ∃ g, g ∈ scenario1 ∧ Py.basename (path_of g) = t ∧
          lang_group (language_of g) = "python")
  ∧ NoDup (dependency_map scenario1 "a.py").
Proof.
  apply (C2_same_group_no_duplicate scenario1
           (mkFile (Some "a.py") (Some "python") (Some ["b"]) None)).
  - intros f g Hf Hg. unfold scenario1 in *.
    repeat (apply elem_of_cons in Hf as [->|Hf]); try by apply elem_of_nil in Hf.
    all: repeat (apply elem_of_cons in Hg as [->|Hg]); try by apply elem_of_nil in Hg.
    all: done.
  - left.
Defined.

(** C3, as stated, fails: on [".py\n"] the code removes [".py"] and returns
    the line feed, because [$] also holds before a final line feed, while the
    five steps as worded find no trailing extension and return the string. *)
Lemma C3_counterexample :
  normalize_import import_with_lf "python" = String Py.LF ""
  ∧ normalize_reference import_with_lf = import_with_lf
  ∧ normalize_import import_with_lf "python" ≠ normalize_reference import_with_lf.
Proof. vm_compute. repeat split; discriminate. Qed.

(** C3 (amended): for every raw import string, the import normaliser equals
    the five steps: strip the surrounding quotes; with a slash, keep the final
    segment; with a dot and no leading dot, keep what follows the final dot;
    strip one extension of the enumerated set when it ends the string or is
    followed only by one final line feed, which stays; lower-case.  The
    normaliser is a total function: it returns a string for every input. *)
Theorem C3_normalize_import_steps (imp lang : string) :
  normalize_import imp lang = normalize_reference_lf imp.
Proof.
  unfold normalize_import, normalize_reference_lf, normalize_steps.
  by rewrite !last_split, sub_known_ext.
Qed.

(** C4, as stated, fails: the normaliser keeps what follows the last dot, the
    key derivation what precedes it. *)
Lemma C4_counterexample :
  normalize_import (normalize_basename "foo.py") "python" = "foo"
  ∧ normalize_import "foo.py" "python" = "py"
  ∧ normalize_import (normalize_basename "foo.py") "python"
    ≠ normalize_import "foo.py" "python".
Proof. vm_compute. repeat split; discriminate. Qed.

(** C4 (amended): for every import string [i] without a dot,
    [normalize(normalize_basename(i)) = normalize(i)]. *)
Theorem C4_normalize_after_basename_key (i lang : string) :
  Py.contains "." i = false →
  normalize_import (normalize_basename i) lang = normalize_import i lang.
Proof.
  intros H. unfold normalize_basename, strip_ext, re_last_ext.
  rewrite (sub_without_first_char "." _ i H).
  rewrite !normalize_import_no_dot by (by rewrite ?contains_lower by (left)).
  simpl. rewrite strip_lower.
  rewrite contains_lower by (right; left).
  destruct (Py.contains "/" _).
  - rewrite after_last_lower by (right; left). apply lower_idem.
  - apply lower_idem.
Qed.

Lemma C4_witness :
  normalize_import (normalize_basename "'pkg/Utils'") "go"
  = normalize_import "'pkg/Utils'" "go".
Proof. apply (C4_normalize_after_basename_key "'pkg/Utils'" "go"). reflexivity. Defined.

(** C10, as stated, fails: [.] does not match a line feed, so a basename that
    starts with one keeps it.  The hub below has no dot and three characters,
    and the HUBS line shows the line feed as its name. *)
Lemma C10_counterexample :
  compute_hubs (count_deps (find_internal_deps lf_hub_files)) = [(lf_name, 2)]
  ∧ Py.contains "." lf_name = false
  ∧ String.length lf_name = 3
  ∧ hub_name lf_name = String Py.LF ""
  ∧ hub_name lf_name ≠ ""
  ∧ hub_str (lf_name, 2) ≠ " (2←)"
  ∧ List.last (render_hubs (count_deps (find_internal_deps lf_hub_files))) ""
    = "HUBS: " +:+ String Py.LF " (2←)".
Proof. vm_compute. repeat split; discriminate. Qed.

(** C10 (amended): for every hub entry whose target basename has no dot, has
    at least two characters and does not start with a line feed, the name on
    the HUBS line is empty, and the entry reads [ (count←)]: the pattern
    [.[^.]+$] has an unescaped first dot and matches the whole basename. *)
Theorem C10_hub_name_without_dot (name : string) (count : nat) :
  Py.contains "." name = false → (2 ≤ String.length name)%nat →
  Py.startswith Py.LF name = false →
  hub_name name = "" ∧ hub_str (name, count) = " (" +:+ Py.str_nat count +:+ "←)".
Proof.
  intros Hdot Hlen Hlf. unfold hub_str. simpl.
  by rewrite (hub_name_no_dot name Hdot Hlen Hlf).
Qed.

Lemma C10_witness :
  hub_name "Makefile" = "" ∧ hub_str ("Makefile", 3) = " (3←)".
Proof.
  apply (C10_hub_name_without_dot "Makefile" 3); [reflexivity|simpl; lia|reflexivity].
Defined.

(** ** The box content *)

Lemma uses_loop_app (inner : Z) (external : list string) :
  ∀ (i : nat) (pre lines : list string) (cur : string),
    uses_loop inner i external (pre ++ lines) cur
    = (pre ++ (uses_loop inner i external lines cur).1,
       (uses_loop inner i external lines cur).2).
Proof.
  induction external as [|dep rest IH]; intros i pre lines cur; simpl; [done|].
  destruct (_ <=? _)%Z; [apply IH|].
  rewrite <- app_assoc. apply IH.
Qed.

Lemma foldl_append_map {A B} (g : B → A) (l : list B) (acc : list A) :
  foldl (fun acc x => acc ++ [g x]) acc l = acc ++ map g l.
Proof.
  revert acc. induction l as [|x l IH]; intros acc; simpl.
  - by rewrite app_nil_r.
  - rewrite IH. by rewrite <- app_assoc.
Qed.

Lemma create_box_lines_parts (path : string) (functions external : list string)
    (width : Z) :
  create_box_lines path functions external width
  = [truncate_with_ellipsis (Py.basename path) (width - 4);
     Py.repeat_z "─" (width - 4)]
    ++ function_lines functions
    ++ uses_lines (width - 4) external.
Proof.
  unfold create_box_lines, function_lines, uses_lines.
  rewrite (foldl_append_map (fun fn => "ƒ " +:+ fn +:+ "()")).
  set (head := [_; _]).
  change (([] ++ [truncate_with_ellipsis (Py.basename path) (width - 4)])
          ++ [Py.repeat_z "─" (width - 4)]) with head.
  assert (Hfn : (if (6 <? length functions)%nat
                 then (head ++ map (fun fn => "ƒ " +:+ fn +:+ "()") (take 6 functions))
                      ++ ["  +" +:+ Py.str_nat (length functions - 6) +:+ " more"]
                 else head ++ map (fun fn => "ƒ " +:+ fn +:+ "()") (take 6 functions))
                = head ++ map function_line (take (6 `min` length functions) functions)
                  ++ (if decide (6 < length functions)
                      then [more_line (length functions - 6)] else [])).
  { replace (take (6 `min` length functions) functions) with (take 6 functions).
    2:{ destruct (decide (6 ≤ length functions)%nat).
        - by rewrite Nat.min_l.
        - rewrite Nat.min_r by lia. by rewrite !firstn_all2 by lia. }
    destruct (Nat.ltb_spec 6 (length functions)).
    - rewrite decide_True by done. by rewrite <- app_assoc.
    - rewrite decide_False by lia. by rewrite app_nil_r. }
  rewrite Hfn. clear Hfn.
  set (fl := map function_line _ ++ _).
  destruct external as [|dep rest]; [by rewrite app_nil_r|].
  set (ext := dep :: rest).
  rewrite <- !app_assoc.
  rewrite (uses_loop_app _ ext 0 (head ++ fl) [""] "uses: ").
  destruct (uses_loop _ 0 ext [""] "uses: ") as [ls cur]. simpl fst. simpl snd.
  destruct (Py.is_empty _); by rewrite <- ?app_assoc.
Qed.

(** C6, as stated, fails: the summary line of a file with eight functions is
    [  +2 more], with two spaces before the plus; no line of the box is
    [+2 more]. *)
Lemma C6_counterexample :
  ("+2 more" ∉ create_box_lines "src/a.py" eight_functions [] 34)
  ∧ ("  +2 more" ∈ create_box_lines "src/a.py" eight_functions [] 34).
Proof. split; apply (bool_decide_unpack _); vm_compute; exact I. Qed.

(** C6 (amended): for every file record, the box content is the title and
    the rule, then one line [ƒ <name>()] for each of the first [min(6, n)]
    declared functions in declaration order and, exactly when the function
    count [n] exceeds 6, one summary line [  +<n-6> more], which starts with
    two spaces, then the lines of the external uses.  Five functions give the
    five names and no summary line; eight functions give six names and
    [  +2 more]. *)
Theorem C6_function_lines (path : string) (functions external : list string)
    (width : Z) :
  create_box_lines path functions external width
  = [truncate_with_ellipsis (Py.basename path) (width - 4);
     Py.repeat_z "─" (width - 4)]
    ++ function_lines functions
    ++ uses_lines (width - 4) external
  ∧ (∀ a b c d e : string,
       function_lines [a; b; c; d; e] = map function_line [a; b; c; d; e])
  ∧ (∀ a b c d e f g h : string,
       function_lines [a; b; c; d; e; f; g; h]
       = map function_line [a; b; c; d; e; f] ++ ["  +2 more"]).
Proof. split; [apply create_box_lines_parts|]. split; reflexivity. Qed.

(** ** The empty input *)

(** C5, as stated, fails: the one line that is printed starts with two
    spaces. *)
Lemma C5_counterexample :
  render (mkData (Some []) None) "proj" ≠ ["No source files found."]
  ∧ render (mkData (Some []) None) "proj" = ["  No source files found."].
Proof. split; [discriminate|reflexivity]. Qed.

(** C5 (amended): when the [files] sequence is empty, or absent, [render]
    prints exactly one line, [  No source files found.] with two spaces in
    front, and returns: no header panel, no system section, no hub line and
    no summary line. *)
Theorem C5_empty_files (external_deps : option (Od.odict (list string)))
    (project_name : string) :
  render (mkData (Some []) external_deps) project_name = ["  No source files found."]
  ∧ render (mkData None external_deps) project_name = ["  No source files found."].
Proof. split; reflexivity. Qed.

(** ** The branching tree *)

Lemma removelast_snoc {A} (l : list A) (x : A) : removelast (l ++ [x]) = l.
Proof.
  induction l as [|y l IH]; simpl; [done|].
  rewrite IH. by destruct l.
Qed.

Lemma last_snoc {A} (l : list A) (x d : A) : List.last (l ++ [x]) d = x.
Proof. induction l as [|y l IH]; simpl; [done|]. rewrite IH. by destruct l. Qed.

Lemma last_cons_snoc {A} (x : A) (l : list A) (y d : A) :
  List.last (x :: l ++ [y]) d = y.
Proof. apply (last_snoc (x :: l)). Qed.

Lemma render_chain_many (files : list FileRecord)
    (internal_deps : Od.odict (list string)) (name_no_ext t1 t2 : string)
    (rest : list string) :
  render_chain files internal_deps name_no_ext (t1 :: t2 :: rest)
  = let targets := t1 :: t2 :: rest in
    let target_strs := map strip_ext targets in
    if (length targets <=? 4)%nat then
      ["  " +:+ name_no_ext +:+ " ───▶ " +:+ Py.join ", " target_strs]
    else
      let indent := Py.repeat " " (String.length name_no_ext) in
      ["  " +:+ name_no_ext +:+ " ──┬──▶ " +:+ default "" (head target_strs)]
      ++ map (fun t => "  " +:+ indent +:+ "   ├──▶ " +:+ t)
             (removelast (tail target_strs))
      ++ ["  " +:+ indent +:+ "   └──▶ " +:+ Py.last_item target_strs].
Proof. reflexivity. Qed.

(** C7, as stated, fails: a file is passed over when an earlier file of its
    system with the same basename has been rendered.  The second [x.py] below
    has five targets and no line of the output is about them. *)
Lemma C7_counterexample :
  dependency_map shared_basename_files "pkg/b/x.py"
  = ["n1.py"; "n2.py"; "n3.py"; "n4.py"; "n5.py"]
  ∧ (arrow_line "x" "m1.py" ∈ render (mkData (Some shared_basename_files) None) "p")
  ∧ (arrow_line "x" "n1.py" ∉ render (mkData (Some shared_basename_files) None) "p")
  ∧ (middle_line "x" "n2.py" ∉ render (mkData (Some shared_basename_files) None) "p")
  ∧ (last_line "x" "n5.py" ∉ render (mkData (Some shared_basename_files) None) "p").
Proof.
  split; [by vm_compute|].
  repeat split; apply (bool_decide_unpack _); vm_compute; exact I.
Qed.

(** The lines of the tree, for any list of more than four targets. *)
Lemma render_chain_tree (files : list FileRecord)
    (internal_deps : Od.odict (list string)) (name_no_ext first last : string)
    (middle : list string) :
  4 < length (first :: middle ++ [last]) →
  render_chain files internal_deps name_no_ext (first :: middle ++ [last])
  = [arrow_line name_no_ext first]
    ++ map (middle_line name_no_ext) middle
    ++ [last_line name_no_ext last].
Proof.
  intros Hlen.
  simpl in Hlen. rewrite length_app in Hlen. simpl in Hlen.
  destruct middle as [|m1 middle]; [simpl in Hlen; lia|].
  change (first :: (m1 :: middle) ++ [last])
    with (first :: m1 :: (middle ++ [last])).
  rewrite render_chain_many. cbv zeta.
  change (first :: m1 :: (middle ++ [last]))
    with (first :: (m1 :: middle) ++ [last]).
  destruct (Nat.leb_spec (length (first :: (m1 :: middle) ++ [last])) 4) as [Hle|_].
  { simpl in Hle. rewrite length_app in Hle. simpl in *. lia. }
  rewrite map_cons, map_app.
  change (map strip_ext [last]) with [strip_ext last].
  unfold Py.last_item.
  rewrite last_cons_snoc.
  change (tail (strip_ext first :: map strip_ext (m1 :: middle) ++ [strip_ext last]))
    with (map strip_ext (m1 :: middle) ++ [strip_ext last]).
  rewrite removelast_snoc, map_map. done.
Qed.

(** C7 (amended): for every file with more than four dependency targets
    whose basename has not been rendered earlier in its system, the flow
    renderer prints a branching tree: the first target on the arrow line of
    the source, every target but the first and the last on a [├──▶] line of
    its own, indented and in order, and the last target on an indented [└──▶]
    line; the middle lines are two fewer than the targets, three for five
    targets.  The basename then counts as rendered. *)
Theorem C7_branching_tree (files : list FileRecord)
    (internal_deps : Od.odict (list string))
    (rendered out : list string) (f : FileRecord)
    (first last : string) (middle : list string) :
  let basename := Py.basename (path_of f) in
  let name_no_ext := strip_ext basename in
  let targets := first :: middle ++ [last] in
  Py.mem basename rendered = false →
  Od.get internal_deps (path_of f) = Some targets →
  4 < length targets →
  render_file files internal_deps (rendered, out) f
  = (rendered ++ [basename],
     out ++ [arrow_line name_no_ext first]
         ++ map (middle_line name_no_ext) middle
         ++ [last_line name_no_ext last])
  ∧ length (map (middle_line name_no_ext) middle) = length targets - 2.
Proof.
  intros basename name_no_ext targets Hnew Hget Hlen. split.
  2:{ rewrite length_map. unfold targets. simpl. rewrite length_app. simpl. lia. }
  unfold render_file. fold basename. rewrite Hnew, Hget. simpl default.
  unfold targets at 1.
  fold name_no_ext. fold targets. by rewrite (render_chain_tree _ _ _ _ _ _ Hlen).
Qed.

Lemma C7_witness :
  render_file [] [("main.py", ["a.py"; "b.py"; "c.py"; "d.py"; "e.py"])]
    ([], []) (mkFile (Some "main.py") None None None)
  = (["main.py"],
     ["  main ──┬──▶ a"; "         ├──▶ b"; "         ├──▶ c";
      "         ├──▶ d"; "         └──▶ e"])
  ∧ length (map (middle_line "main") ["b.py"; "c.py"; "d.py"]) = 3.
Proof.
  apply (C7_branching_tree [] [("main.py", ["a.py"; "b.py"; "c.py"; "d.py"; "e.py"])]
           [] [] (mkFile (Some "main.py") None None None)
           "a.py" "e.py" ["b.py"; "c.py"; "d.py"]).
  - reflexivity.
  - reflexivity.
  - simpl. lia.
Defined.

(** ** Hubs *)

Section sorted_facts.
Context {A : Type} (le : A → A → bool).
Hypothesis le_total : ∀ x y, le x y = true ∨ le y x = true.
Hypothesis le_trans : ∀ x y z, le x y = true → le y z = true → le x z = true.

Lemma insert_sorted_perm (x : A) (l : list A) :
  Py.insert_sorted le x l ≡ₚ x :: l.
Proof.
  induction l as [|y l IH]; simpl; [done|].
  destruct (le x y); [done|]. rewrite IH. apply Permutation_swap.
Qed.

Lemma sorted_perm (l : list A) : Py.sorted le l ≡ₚ l.
Proof.
  induction l as [|x l IH]; simpl; [done|].
  rewrite insert_sorted_perm. by rewrite IH.
Qed.

Lemma insert_sorted_sorted (x : A) (l : list A) :
  StronglySorted (fun a b => le a b = true) l →
  StronglySorted (fun a b => le a b = true) (Py.insert_sorted le x l).
Proof.
  induction 1 as [|y l Hs IH Hy]; simpl.
  - repeat constructor.
  - destruct (le x y) eqn:E.
    + constructor; [by constructor|].
      constructor; [done|].
      eapply Forall_impl; [exact Hy|]. intros z Hz. by eapply le_trans.
    + constructor; [done|].
      rewrite insert_sorted_perm. constructor; [|done].
      destruct (le_total x y); congruence.
Qed.

Lemma sorted_sorted (l : list A) :
  StronglySorted (fun a b => le a b = true) (Py.sorted le l).
Proof.
  induction l as [|x l IH]; simpl; [constructor|].
  by apply insert_sorted_sorted.
Qed.
End sorted_facts.

Lemma StronglySorted_sublist {A} (R : relation A) (l k : list A) :
  l `sublist_of` k → StronglySorted R k → StronglySorted R l.
Proof.
  induction 1 as [|x l k Hlk IH|x l k Hlk IH]; intros Hk.
  - constructor.
  - apply StronglySorted_inv in Hk as [Hk Hx]. constructor; [by apply IH|].
    rewrite Forall_forall in *. intros y Hy. apply Hx.
    by eapply elem_of_sublist.
  - apply StronglySorted_inv in Hk as [Hk _]. by apply IH.
Qed.

Lemma compute_hubs_sublist (dep_counts : Od.odict nat) :
  compute_hubs dep_counts `sublist_of` Py.sorted by_count_desc dep_counts.
Proof.
  unfold compute_hubs. etrans; [apply sublist_filter|apply sublist_take].
Qed.

Lemma render_hubs_cases (dep_counts : Od.odict nat) :
  render_hubs dep_counts
  = match compute_hubs dep_counts with
    | [] => []
    | hubs => [Py.repeat "─" 61; "HUBS: " +:+ Py.join ", " (map hub_str hubs)]
    end.
Proof. by destruct dep_counts. Qed.

(** C8: for every input, the hub list has at most six entries, every entry
    is an entry of the incoming-dependency counts with a count of at least
    two, and the counts never increase along the list; the rule and the HUBS
    line are printed exactly when the hub list is not empty. *)
Theorem C8_hub_list (files : list FileRecord) :
  let dep_counts := count_deps (find_internal_deps files) in
  let hubs := compute_hubs dep_counts in
  (length hubs ≤ 6)%nat
  ∧ Forall (fun h => h ∈ dep_counts ∧ (2 ≤ h.2)%nat) hubs
  ∧ StronglySorted (fun x y => (y.2 ≤ x.2)%nat) hubs
  ∧ render_hubs dep_counts
    = match hubs with
      | [] => []
      | _ => [Py.repeat "─" 61; "HUBS: " +:+ Py.join ", " (map hub_str hubs)]
      end.
Proof.
  intros dep_counts hubs. split; [|split; [|split]].
  - unfold hubs, compute_hubs.
    etrans; [apply length_filter|]. rewrite length_take. lia.
  - rewrite Forall_forall. intros h Hh. split.
    + eapply elem_of_sublist in Hh; [|apply compute_hubs_sublist].
      by rewrite sorted_perm in Hh.
    + unfold hubs, compute_hubs in Hh. apply list_elem_of_filter in Hh as [Hh _].
      apply Is_true_true in Hh. by apply Nat.leb_le in Hh.
  - eapply StronglySorted_sublist; [apply compute_hubs_sublist|].
    eapply (Sorted.StronglySorted_ind
              (fun l => StronglySorted (fun x y => (y.2 ≤ x.2)%nat) l)).
    3: apply (sorted_sorted by_count_desc).
    + constructor.
    + intros a l _ IH Ha. constructor; [done|].
      eapply Forall_impl; [exact Ha|]. intros z Hz. by apply Nat.leb_le in Hz.
    + intros x y. unfold by_count_desc. rewrite !Nat.leb_le. lia.
    + intros x y z. unfold by_count_desc. rewrite !Nat.leb_le. lia.
  - rewrite render_hubs_cases. fold hubs. by destruct hubs.
Qed.

(** ** The store: which objects a call can change *)

Section frame_rules.
Import Mem.
Variable n0 : nat.

Lemma frame_ret {A} (a : A) (Q : A → Prop) : Q a → frame n0 (mret a) Q.
Proof. intros HQ s Hs. simpl. auto. Qed.

Lemma frame_bind {A B} (m : M A) (k : A → M B) (Q : A → Prop) (R : B → Prop) :
  frame n0 m Q → (∀ a, Q a → frame n0 (k a) R) → frame n0 (m ≫= k) R.
Proof.
  intros Hm Hk s Hs. unfold mbind, M_bind.
  destruct (Hm s Hs) as (HQ & Hlen & Hkeep).
  destruct (m s) as [a s1]; simpl in *.
  destruct (Hk a HQ s1 ltac:(lia)) as (HR & Hlen' & Hkeep').
  destruct (k a s1) as [b s2]; simpl in *.
  split; [done|]. split; [lia|].
  intros l Hl. rewrite Hkeep' by done. by apply Hkeep.
Qed.

Lemma frame_weaken {A} (m : M A) (Q R : A → Prop) :
  frame n0 m Q → (∀ a, Q a → R a) → frame n0 m R.
Proof. intros Hm HQR s Hs. destruct (Hm s Hs) as (? & ? & ?). auto. Qed.

(** A new object is not one of the old ones. *)
Lemma frame_alloc (o : obj) : frame n0 (alloc o) (fun l => n0 ≤ l).
Proof.
  intros s Hs. simpl. split; [done|]. split.
  - rewrite length_app. lia.
  - intros l Hl. apply lookup_app_l. lia.
Qed.

Lemma frame_read (l : loc) : frame n0 (read l) (fun _ => True).
Proof. intros s Hs. simpl. auto. Qed.

(** Writing is allowed at the new objects only. *)
Lemma frame_write (l : loc) (o : obj) :
  n0 ≤ l → frame n0 (write l o) (fun _ => True).
Proof.
  intros Hl s Hs. simpl. split; [done|]. split.
  - by rewrite length_insert.
  - intros l' Hl'. apply list_lookup_insert_ne. lia.
Qed.

Lemma frame_print (line : string) : frame n0 (print line) (fun _ => True).
Proof. intros s Hs. simpl. auto. Qed.

Lemma frame_for_each {A} (xs : list A) (body : A → M unit) :
  (∀ x, frame n0 (body x) (fun _ => True)) →
  frame n0 (for_each xs body) (fun _ => True).
Proof.
  intros Hbody. induction xs as [|x xs IH]; simpl.
  - by apply frame_ret.
  - eapply frame_bind; [apply Hbody|]. intros _ _. apply IH.
Qed.

Lemma frame_map_m {A B} (f : A → M B) (xs : list A) :
  (∀ x, frame n0 (f x) (fun _ => True)) →
  frame n0 (map_m f xs) (fun _ => True).
Proof.
  intros Hf. induction xs as [|x xs IH]; simpl.
  - by apply frame_ret.
  - eapply frame_bind; [apply Hf|]. intros y _.
    eapply frame_bind; [apply IH|]. intros ys _. by apply frame_ret.
Qed.

Lemma frame_fold_m {A S} (body : S → A → M S) (init : S) (xs : list A) :
  (∀ s x, frame n0 (body s x) (fun _ => True)) →
  frame n0 (fold_m body init xs) (fun _ => True).
Proof.
  intros Hbody. revert init. induction xs as [|x xs IH]; intros init; simpl.
  - by apply frame_ret.
  - eapply frame_bind; [apply Hbody|]. intros s _. apply IH.
Qed.

End frame_rules.

(** The rules, applied along the text of a program.  A [write] must find,
    among the hypotheses, that its location is a new one. *)
Create HintDb frame.
#[local] Hint Resolve Nat.le_refl : frame.
#[local] Hint Resolve frame_alloc frame_read frame_write frame_print : frame.

Ltac frame_go :=
  repeat
    (intros;
     match goal with
     | |- Mem.frame _ (mret _) _ => apply frame_ret; first [exact I | assumption]
     | |- Mem.frame _ (_ ≫= _) _ =>
         first [ eapply frame_bind; [solve [eauto 3 with frame]|]
               | eapply (frame_bind _ _ _ (fun _ => True)) ]
     | |- Mem.frame _ (Mem.for_each _ _) _ => apply frame_for_each
     | |- Mem.frame _ (Mem.map_m _ _) _ => apply frame_map_m
     | |- Mem.frame _ (Mem.fold_m _ _ _) _ => apply frame_fold_m
     | |- Mem.frame _ (match ?x with _ => _ end) _ => destruct x
     | |- Mem.frame _ (if ?b then _ else _) _ => destruct b
     | |- Mem.frame _ (let '(_, _) := ?x in _) _ => destruct x
     | |- Mem.frame _ _ _ => solve [eauto 3 with frame]
     end).

Lemma frame_read_strs n0 l : Mem.frame n0 (Mem.read_strs l) (fun _ => True).
Proof. unfold Mem.read_strs. frame_go. Qed.
Lemma frame_read_refs n0 l : Mem.frame n0 (Mem.read_refs l) (fun _ => True).
Proof. unfold Mem.read_refs. frame_go. Qed.
Lemma frame_read_ext n0 l : Mem.frame n0 (Mem.read_ext l) (fun _ => True).
Proof. unfold Mem.read_ext. frame_go. Qed.
Lemma frame_read_index n0 l : Mem.frame n0 (Mem.read_index l) (fun _ => True).
Proof. unfold Mem.read_index. frame_go. Qed.
Lemma frame_read_deps n0 l : Mem.frame n0 (Mem.read_deps l) (fun _ => True).
Proof. unfold Mem.read_deps. frame_go. Qed.
Lemma frame_read_counts n0 l : Mem.frame n0 (Mem.read_counts l) (fun _ => True).
Proof. unfold Mem.read_counts. frame_go. Qed.
Lemma frame_read_systems n0 l : Mem.frame n0 (Mem.read_systems l) (fun _ => True).
Proof. unfold Mem.read_systems. frame_go. Qed.
#[local] Hint Resolve frame_read_strs frame_read_refs frame_read_ext
  frame_read_index frame_read_deps frame_read_counts frame_read_systems : frame.

Lemma frame_list_or_new n0 field :
  Mem.frame n0 (Mem.list_or_new field) (fun _ => True).
Proof.
  unfold Mem.list_or_new. destruct field; [|eapply frame_weaken; eauto with frame].
  eapply frame_bind; [apply frame_read_strs|]. intros [|x xs] _.
  - eapply frame_weaken; eauto with frame.
  - by apply frame_ret.
Qed.
#[local] Hint Resolve frame_list_or_new : frame.

Lemma frame_get_path n0 f : Mem.frame n0 (Mem.get_path f) (fun _ => True).
Proof. unfold Mem.get_path. frame_go. Qed.
Lemma frame_get_language n0 f : Mem.frame n0 (Mem.get_language f) (fun _ => True).
Proof. unfold Mem.get_language. frame_go. Qed.
Lemma frame_get_imports n0 f : Mem.frame n0 (Mem.get_imports f) (fun _ => True).
Proof. unfold Mem.get_imports. frame_go. Qed.
Lemma frame_get_functions n0 f : Mem.frame n0 (Mem.get_functions f) (fun _ => True).
Proof. unfold Mem.get_functions. frame_go. Qed.
Lemma frame_get_files n0 data : Mem.frame n0 (Mem.get_files data) (fun _ => True).
Proof.
  unfold Mem.get_files. eapply frame_bind; [apply frame_read|]. intros o _.
  destruct o as [[[l|] ?| | | | | | | |]|];
    first [by apply frame_ret | eapply frame_weaken; eauto with frame].
Qed.
Lemma frame_get_external_deps n0 data :
  Mem.frame n0 (Mem.get_external_deps data) (fun _ => True).
Proof.
  unfold Mem.get_external_deps. eapply frame_bind; [apply frame_read|]. intros o _.
  destruct o as [[? [l|]| | | | | | | |]|];
    first [by apply frame_ret | eapply frame_weaken; eauto with frame].
Qed.
Lemma frame_view_file n0 f : Mem.frame n0 (Mem.view_file f) (fun _ => True).
Proof. unfold Mem.view_file, Mem.field_strs. frame_go. Qed.
#[local] Hint Resolve frame_get_path frame_get_language frame_get_imports
  frame_get_functions frame_get_files frame_get_external_deps frame_view_file : frame.

(** The mutating operations, at a new object. *)
Lemma frame_append_str n0 l x :
  n0 ≤ l → Mem.frame n0 (Mem.append_str l x) (fun _ => True).
Proof. intros. unfold Mem.append_str. frame_go. Qed.
Lemma frame_add_str n0 l x :
  n0 ≤ l → Mem.frame n0 (Mem.add_str l x) (fun _ => True).
Proof. intros. unfold Mem.add_str. frame_go. Qed.
Lemma frame_index_append n0 l name info :
  n0 ≤ l → Mem.frame n0 (Mem.index_append l name info) (fun _ => True).
Proof. intros. unfold Mem.index_append. frame_go. Qed.
Lemma frame_deps_touch n0 l path :
  n0 ≤ l → Mem.frame n0 (Mem.deps_touch l path) (fun _ => True).
Proof. intros. unfold Mem.deps_touch. frame_go. Qed.
Lemma frame_deps_append n0 l path x :
  n0 ≤ l → Mem.frame n0 (Mem.deps_append l path x) (fun _ => True).
Proof. intros. unfold Mem.deps_append. frame_go. Qed.
Lemma frame_deps_set n0 l key v :
  n0 ≤ l → Mem.frame n0 (Mem.deps_set l key v) (fun _ => True).
Proof. intros. unfold Mem.deps_set. frame_go. Qed.
Lemma frame_counts_incr n0 l target :
  n0 ≤ l → Mem.frame n0 (Mem.counts_incr l target) (fun _ => True).
Proof. intros. unfold Mem.counts_incr. frame_go. Qed.
Lemma frame_systems_append n0 l system f :
  n0 ≤ l → Mem.frame n0 (Mem.systems_append l system f) (fun _ => True).
Proof. intros. unfold Mem.systems_append. frame_go. Qed.
#[local] Hint Resolve frame_append_str frame_add_str frame_index_append
  frame_deps_touch frame_deps_append frame_deps_set frame_counts_incr
  frame_systems_append : frame.

(** The programs. *)
Lemma frame_find_internal_deps n0 files :
  Mem.frame n0 (Mem.find_internal_deps files) (fun _ => True).
Proof.
  unfold Mem.find_internal_deps, Mem.add_file, Mem.add_import, Mem.add_candidate,
    Mem.index_file.
  frame_go.
Qed.

Lemma frame_render_header n0 ext project_name :
  Mem.frame n0 (Mem.render_header ext project_name) (fun _ => True).
Proof.
  unfold Mem.render_header, Mem.dep_line_step, Mem.ext_by_lang_step,
    Mem.ext_name_step.
  frame_go.
Qed.

Lemma frame_render_system n0 views internal_deps systems system :
  Mem.frame n0 (Mem.render_system views internal_deps systems system) (fun _ => True).
Proof.
  unfold Mem.render_system, Mem.render_file, Mem.standalone_step. frame_go.
Qed.
#[local] Hint Resolve frame_find_internal_deps frame_render_header
  frame_render_system : frame.

Lemma frame_render n0 data project_name :
  Mem.frame n0 (Mem.render data project_name) (fun _ => True).
Proof.
  unfold Mem.render, Mem.name_file, Mem.count_entry, Mem.group_file. frame_go.
Qed.

(** ** Reading a placed input back *)

Section placed.
Import Mem.

Lemma holds_at_app (h : list obj) (base : loc) (a b : list obj) :
  holds_at h base (a ++ b) ↔ holds_at h base a ∧ holds_at h (base + length a) b.
Proof.
  unfold holds_at. split.
  - intros H. split.
    + intros i o Hi. apply H. by apply lookup_app_l_Some.
    + intros i o Hi. rewrite <- Nat.add_assoc. apply H.
      rewrite lookup_app_r by lia. by replace (length a + i - length a) with i by lia.
  - intros [Ha Hb] i o Hi. apply lookup_app_Some in Hi as [Hi|[Hlen Hi]].
    + by apply Ha.
    + replace (base + i) with (base + length a + (i - length a)) by lia.
      by apply Hb.
Qed.

Lemma holds_at_cons (h : list obj) (base : loc) (o : obj) (b : list obj) :
  holds_at h base (o :: b) ↔ h !! base = Some o ∧ holds_at h (S base) b.
Proof.
  unfold holds_at. split.
  - intros H. split.
    + specialize (H 0 o eq_refl). by rewrite Nat.add_0_r in H.
    + intros i o' Hi. specialize (H (S i) o' Hi). by rewrite Nat.add_succ_r in H.
  - intros [Ho Hb] [|i] o' Hi; simpl in Hi.
    + injection Hi as <-. by rewrite Nat.add_0_r.
    + rewrite Nat.add_succ_r. by apply Hb.
Qed.

Lemma keeps_holds_at (h h' : list obj) : keeps h h' ↔ holds_at h' 0 h.
Proof. done. Qed.

Lemma look_file_objs (h : list obj) (base : loc) (f : FileRecord) :
  holds_at h base (file_objs base f) →
  look_file h (base + length (file_objs base f) - 1) = f.
Proof.
  destruct f as [p g [imports|] [functions|]]; unfold file_objs; simpl;
    rewrite ?holds_at_cons; intros H; unfold look_file; simpl.
  - destruct H as (Hi & Hf & Hr & _).
    replace (base + 3 - 1) with (S (S base)) by lia. rewrite Hr. simpl.
    rewrite Hi. replace (base + 1) with (S base) by lia. by rewrite Hf.
  - destruct H as (Hi & Hr & _).
    replace (base + 2 - 1) with (S base) by lia. rewrite Hr. simpl. by rewrite Hi.
  - destruct H as (Hf & Hr & _).
    replace (base + 2 - 1) with (S base) by lia. rewrite Hr. simpl.
    rewrite Nat.add_0_r. by rewrite Hf.
  - destruct H as (Hr & _).
    replace (base + 1 - 1) with base by lia. by rewrite Hr.
Qed.

Lemma look_files_objs (h : list obj) (files : list FileRecord) :
  ∀ base, holds_at h base (files_objs base files).1 →
    map (look_file h) (files_objs base files).2 = files.
Proof.
  induction files as [|f files IH]; intros base H; simpl in *; [done|].
  destruct (files_objs (base + length (file_objs base f)) files) as [objs' locs] eqn:E.
  simpl in *. apply holds_at_app in H as [Hf Hrest].
  rewrite (look_file_objs _ _ _ Hf). f_equal.
  specialize (IH (base + length (file_objs base f))). rewrite E in IH. by apply IH.
Qed.

Lemma look_ext_objs (h : list obj) (ext : Od.odict (list string)) :
  ∀ base, holds_at h base (ext_objs base ext).1 →
    map (fun e : string * loc => (e.1, default [] (look_strs h (Some e.2))))
        (ext_objs base ext).2 = ext.
Proof.
  induction ext as [|[lang deps] ext IH]; intros base H; simpl in *; [done|].
  destruct (ext_objs (S base) ext) as [objs d] eqn:E. simpl in *.
  apply holds_at_cons in H as [Hd Hrest]. rewrite Hd. f_equal.
  specialize (IH (S base)). rewrite E in IH. by apply IH.
Qed.

(** Whatever store keeps the objects of a placed input gives the input
    back. *)
Lemma look_data_place (h0 : list obj) (data : Data) (h : list obj) :
  keeps (place h0 data).1 h → look_data h (place h0 data).2 = data.
Proof.
  rewrite keeps_holds_at. unfold place.
  destruct data as [files ext]. simpl.
  pose proof (look_files_objs h (default [] files) (length h0)) as Hfiles.
  destruct (files_objs (length h0) (default [] files)) as [fobjs flocs]. simpl in Hfiles.
  destruct files as [files|]; simpl in *.
  - pose proof (look_ext_objs h (default [] ext)
                  (length ((h0 ++ fobjs) ++ [ORefs flocs]))) as Hext.
    destruct (ext_objs _ (default [] ext)) as [eobjs ed]. simpl in Hext.
    destruct ext as [ext|]; simpl in *.
    + rewrite !holds_at_app, !holds_at_cons.
      intros (((((_ & Hf) & Hl & _) & He) & Hx & _) & Hd & _).
      change (0 + ?n) with n in *.
      unfold look_data. rewrite Hd. simpl. rewrite Hl, Hx.
      rewrite Hfiles by done. by rewrite Hext.
    + rewrite !holds_at_app, !holds_at_cons.
      intros ((((_ & Hf) & Hl & _) & He) & Hd & _).
      change (0 + ?n) with n in *.
      unfold look_data. rewrite Hd. simpl. rewrite Hl.
      by rewrite Hfiles.
  - pose proof (look_ext_objs h (default [] ext) (length (h0 ++ fobjs))) as Hext.
    destruct (ext_objs _ (default [] ext)) as [eobjs ed]. simpl in Hext.
    destruct ext as [ext|]; simpl in *.
    + rewrite !holds_at_app, !holds_at_cons.
      intros ((((_ & Hf) & He) & Hx & _) & Hd & _).
      change (0 + ?n) with n in *.
      unfold look_data. rewrite Hd. simpl. rewrite Hx. by rewrite Hext.
    + rewrite !holds_at_app, !holds_at_cons.
      intros (((_ & Hf) & He) & Hd & _).
      change (0 + ?n) with n in *.
      unfold look_data. by rewrite Hd.
Qed.

End placed.

(** A call of [render] keeps every object of the store it starts in,
    whatever the store and the location it is given. *)
Lemma render_keeps_store (h : list Mem.obj) (out : list string) (data : Mem.loc)
    (project_name : string) :
  Mem.keeps h (Mem.heap (Mem.render data project_name (Mem.mkState h out)).2).
Proof.
  destruct (frame_render (length h) data project_name (Mem.mkState h out))
    as (_ & _ & Hkeep); [done|].
  intros l o Hl. simpl in Hkeep. rewrite Hkeep; [done|].
  by eapply lookup_lt_Some.
Qed.

(** C9: for every input, [render] and its helpers leave the input unchanged.
    The input is placed in a store next to the objects the caller already
    has; after the call every object of that store is at its location with
    its contents, and the input read back from the store, with the path,
    language, imports and functions of every file record and the
    [external_deps] mapping, is the input that was placed. *)
Theorem C9_render_keeps_input (h0 : list Mem.obj) (data : Data)
    (project_name : string) :
  let h := (Mem.place h0 data).1 in
  let l := (Mem.place h0 data).2 in
  let after := Mem.heap (Mem.render l project_name (Mem.mkState h [])).2 in
  Mem.keeps h after
  ∧ Mem.look_data h l = data
  ∧ Mem.look_data after l = data.
Proof.
  intros h l after.
  assert (Hkeep : Mem.keeps h after) by apply render_keeps_store.
  split; [done|]. split.
  - apply look_data_place. by intros i o.
  - by apply look_data_place.
Qed.

(** ** The store: the printed lines are those of [render]

    The program on the store and the function on values are two readings of
    one Python text.  This part shows that they print the same lines. *)

Section wp_rules.
Import Mem.

Lemma wp_bind {A B} (m : M A) (k : A → M B) (Q : B → state → Prop) (s : state) :
  wp m (fun a s' => wp (k a) Q s') s → wp (m ≫= k) Q s.
Proof. unfold wp, mbind, M_bind. by destruct (m s). Qed.

Lemma wp_ret {A} (a : A) (Q : A → state → Prop) (s : state) :
  Q a s → wp (mret a) Q s.
Proof. done. Qed.

Lemma wp_mono {A} (m : M A) (Q Q' : A → state → Prop) (s : state) :
  wp m Q s → (∀ a s', Q a s' → Q' a s') → wp m Q' s.
Proof. unfold wp. auto. Qed.

Lemma wp_read (l : loc) (Q : option obj → state → Prop) (s : state) :
  Q (heap s !! l) s → wp (read l) Q s.
Proof. done. Qed.

Lemma wp_alloc (o : obj) (Q : loc → state → Prop) (s : state) :
  Q (length (heap s)) (mkState (heap s ++ [o]) (printed s)) → wp (alloc o) Q s.
Proof. done. Qed.

Lemma wp_write (l : loc) (o : obj) (Q : unit → state → Prop) (s : state) :
  Q tt (mkState (<[l := o]> (heap s)) (printed s)) → wp (write l o) Q s.
Proof. done. Qed.

Lemma wp_print (line : string) (Q : unit → state → Prop) (s : state) :
  Q tt (mkState (heap s) (printed s ++ [line])) → wp (print line) Q s.
Proof. done. Qed.

(** What a frame lemma says of one run. *)
Lemma wp_frame {A} (n0 : nat) (m : M A) (R : A → Prop) (s : state) :
  frame n0 m R → n0 ≤ length (heap s) →
  wp m (fun a s' => R a ∧ length (heap s) ≤ length (heap s')
                    ∧ ∀ l, l < n0 → heap s' !! l = heap s !! l) s.
Proof. intros H Hle. exact (H s Hle). Qed.

Lemma wp_quiet {A} (m : M A) (s : state) :
  quiet m → wp m (fun _ s' => printed s' = printed s) s.
Proof. intros H. exact (H s). Qed.

Lemma wp_and {A} (m : M A) (Q Q' : A → state → Prop) (s : state) :
  wp m Q s → wp m Q' s → wp m (fun a s' => Q a s' ∧ Q' a s') s.
Proof. done. Qed.

(** Programs that print nothing. *)
Lemma quiet_ret {A} (a : A) : quiet (mret a : M A).
Proof. done. Qed.
Lemma quiet_bind {A B} (m : M A) (k : A → M B) :
  quiet m → (∀ a, quiet (k a)) → quiet (m ≫= k).
Proof.
  intros Hm Hk s. unfold mbind, M_bind. specialize (Hm s).
  destruct (m s) as [a s1]. simpl in *. rewrite <- Hm. apply Hk.
Qed.
Lemma quiet_alloc o : quiet (alloc o).
Proof. done. Qed.
Lemma quiet_read l : quiet (read l).
Proof. done. Qed.
Lemma quiet_write l o : quiet (write l o).
Proof. done. Qed.
Lemma quiet_for_each {A} (xs : list A) (body : A → M unit) :
  (∀ x, quiet (body x)) → quiet (for_each xs body).
Proof.
  intros H. induction xs as [|x xs IH]; simpl; [done|].
  apply quiet_bind; [apply H|]. intros _. apply IH.
Qed.
Lemma quiet_map_m {A B} (f : A → M B) (xs : list A) :
  (∀ x, quiet (f x)) → quiet (map_m f xs).
Proof.
  intros H. induction xs as [|x xs IH]; simpl; [done|].
  apply quiet_bind; [apply H|]. intros y.
  apply quiet_bind; [apply IH|]. intros ys. done.
Qed.
Lemma quiet_fold_m {A S} (body : S → A → M S) (init : S) (xs : list A) :
  (∀ s x, quiet (body s x)) → quiet (fold_m body init xs).
Proof.
  intros H. revert init. induction xs as [|x xs IH]; intros init; simpl; [done|].
  apply quiet_bind; [apply H|]. intros s. apply IH.
Qed.

Lemma wp_for_each_nil {A} (body : A → M unit) (Q : unit → state → Prop) s :
  Q tt s → wp (for_each [] body) Q s.
Proof. done. Qed.

Lemma wp_for_each_cons {A} (x : A) (xs : list A) (body : A → M unit)
    (Q : unit → state → Prop) s :
  wp (body x) (fun _ s' => wp (for_each xs body) Q s') s →
  wp (for_each (x :: xs) body) Q s.
Proof. intros H. simpl. by apply wp_bind. Qed.

Lemma wp_fold_m_nil {A S} (body : S → A → M S) (init : S)
    (Q : S → state → Prop) s :
  Q init s → wp (fold_m body init []) Q s.
Proof. done. Qed.

Lemma wp_fold_m_cons {A S} (body : S → A → M S) (init : S) (x : A) (xs : list A)
    (Q : S → state → Prop) s :
  wp (body init x) (fun a s' => wp (fold_m body a xs) Q s') s →
  wp (fold_m body init (x :: xs)) Q s.
Proof. intros H. simpl. by apply wp_bind. Qed.

(** A loop of reads returns what each read returns, in a state that does not
    change. *)
Lemma wp_map_m_pure {A B} (f : A → M B) (g : A → B) (xs : list A)
    (Q : list B → state → Prop) s :
  (∀ x, f x s = (g x, s)) → Q (map g xs) s → wp (map_m f xs) Q s.
Proof.
  intros Hf. revert Q. induction xs as [|x xs IH]; intros Q HQ; simpl; [done|].
  apply wp_bind. unfold wp at 1. rewrite Hf. simpl.
  apply wp_bind. apply IH. by apply wp_ret.
Qed.

Lemma wp_for_each_print (xs : list string) (Q : unit → state → Prop) s :
  Q tt (mkState (heap s) (printed s ++ xs)) → wp (for_each xs print) Q s.
Proof.
  revert s. induction xs as [|x xs IH]; intros s HQ.
  - apply wp_for_each_nil. rewrite app_nil_r in HQ. by destruct s.
  - apply wp_for_each_cons, wp_print, IH. simpl. by rewrite <- app_assoc.
Qed.

End wp_rules.

Create HintDb quiet.
#[local] Hint Resolve quiet_ret quiet_alloc quiet_read quiet_write : quiet.

Ltac quiet_go :=
  repeat
    (intros;
     match goal with
     | |- Mem.quiet (mret _) => apply quiet_ret
     | |- Mem.quiet (_ ≫= _) => apply quiet_bind
     | |- Mem.quiet (Mem.for_each _ _) => apply quiet_for_each
     | |- Mem.quiet (Mem.map_m _ _) => apply quiet_map_m
     | |- Mem.quiet (Mem.fold_m _ _ _) => apply quiet_fold_m
     | |- Mem.quiet (match ?x with _ => _ end) => destruct x
     | |- Mem.quiet (if ?b then _ else _) => destruct b
     | |- Mem.quiet (let '(_, _) := ?x in _) => destruct x
     | |- Mem.quiet _ => solve [eauto 3 with quiet]
     end).

Lemma quiet_read_strs l : Mem.quiet (Mem.read_strs l).
Proof. unfold Mem.read_strs. quiet_go. Qed.
Lemma quiet_read_refs l : Mem.quiet (Mem.read_refs l).
Proof. unfold Mem.read_refs. quiet_go. Qed.
Lemma quiet_read_ext l : Mem.quiet (Mem.read_ext l).
Proof. unfold Mem.read_ext. quiet_go. Qed.
Lemma quiet_read_index l : Mem.quiet (Mem.read_index l).
Proof. unfold Mem.read_index. quiet_go. Qed.
Lemma quiet_read_deps l : Mem.quiet (Mem.read_deps l).
Proof. unfold Mem.read_deps. quiet_go. Qed.
Lemma quiet_read_counts l : Mem.quiet (Mem.read_counts l).
Proof. unfold Mem.read_counts. quiet_go. Qed.
Lemma quiet_read_systems l : Mem.quiet (Mem.read_systems l).
Proof. unfold Mem.read_systems. quiet_go. Qed.
#[local] Hint Resolve quiet_read_strs quiet_read_refs quiet_read_ext
  quiet_read_index quiet_read_deps quiet_read_counts quiet_read_systems : quiet.

Lemma quiet_list_or_new field : Mem.quiet (Mem.list_or_new field).
Proof. unfold Mem.list_or_new. quiet_go. Qed.
#[local] Hint Resolve quiet_list_or_new : quiet.
Lemma quiet_get_path f : Mem.quiet (Mem.get_path f).
Proof. unfold Mem.get_path. quiet_go. Qed.
Lemma quiet_get_language f : Mem.quiet (Mem.get_language f).
Proof. unfold Mem.get_language. quiet_go. Qed.
Lemma quiet_get_imports f : Mem.quiet (Mem.get_imports f).
Proof. unfold Mem.get_imports. quiet_go. Qed.
Lemma quiet_get_functions f : Mem.quiet (Mem.get_functions f).
Proof. unfold Mem.get_functions. quiet_go. Qed.
Lemma quiet_get_files data : Mem.quiet (Mem.get_files data).
Proof. unfold Mem.get_files. quiet_go. Qed.
Lemma quiet_get_external_deps data : Mem.quiet (Mem.get_external_deps data).
Proof. unfold Mem.get_external_deps. quiet_go. Qed.
Lemma quiet_view_file f : Mem.quiet (Mem.view_file f).
Proof. unfold Mem.view_file, Mem.field_strs. quiet_go. Qed.
Lemma quiet_append_str l x : Mem.quiet (Mem.append_str l x).
Proof. unfold Mem.append_str. quiet_go. Qed.
Lemma quiet_add_str l x : Mem.quiet (Mem.add_str l x).
Proof. unfold Mem.add_str. quiet_go. Qed.
Lemma quiet_index_append l n i : Mem.quiet (Mem.index_append l n i).
Proof. unfold Mem.index_append. quiet_go. Qed.
Lemma quiet_deps_touch l p : Mem.quiet (Mem.deps_touch l p).
Proof. unfold Mem.deps_touch. quiet_go. Qed.
Lemma quiet_deps_append l p x : Mem.quiet (Mem.deps_append l p x).
Proof. unfold Mem.deps_append. quiet_go. Qed.
Lemma quiet_deps_set l k v : Mem.quiet (Mem.deps_set l k v).
Proof. unfold Mem.deps_set. quiet_go. Qed.
Lemma quiet_counts_incr l t : Mem.quiet (Mem.counts_incr l t).
Proof. unfold Mem.counts_incr. quiet_go. Qed.
Lemma quiet_systems_append l sy f : Mem.quiet (Mem.systems_append l sy f).
Proof. unfold Mem.systems_append. quiet_go. Qed.
#[local] Hint Resolve quiet_get_path quiet_get_language quiet_get_imports
  quiet_get_functions quiet_get_files quiet_get_external_deps quiet_view_file
  quiet_append_str quiet_add_str quiet_index_append quiet_deps_touch
  quiet_deps_append quiet_deps_set quiet_counts_incr quiet_systems_append : quiet.

Lemma quiet_find_internal_deps files : Mem.quiet (Mem.find_internal_deps files).
Proof.
  unfold Mem.find_internal_deps, Mem.add_file, Mem.add_import, Mem.add_candidate,
    Mem.index_file.
  quiet_go.
Qed.

(** *** What the operations return *)

Section wp_ops.
Import Mem.

Lemma wp_read_strs l (Q : list string → state → Prop) s :
  Q (strs_at (heap s) l) s → wp (read_strs l) Q s.
Proof. done. Qed.

Lemma wp_read_refs l (Q : list loc → state → Prop) s :
  Q (match heap s !! l with Some (ORefs xs) => xs | _ => [] end) s →
  wp (read_refs l) Q s.
Proof. done. Qed.

Lemma wp_read_ext l (Q : Od.odict loc → state → Prop) s :
  Q (match heap s !! l with Some (OExt d) => d | _ => [] end) s →
  wp (read_ext l) Q s.
Proof. done. Qed.

Lemma wp_read_index l d (Q : Od.odict (list (string * string)) → state → Prop) s :
  heap s !! l = Some (OIndex d) → Q d s → wp (read_index l) Q s.
Proof. intros H HQ. unfold wp, read_index. simpl. by rewrite H. Qed.

Lemma wp_read_deps l d (Q : Od.odict (list string) → state → Prop) s :
  heap s !! l = Some (ODeps d) → Q d s → wp (read_deps l) Q s.
Proof. intros H HQ. unfold wp, read_deps. simpl. by rewrite H. Qed.

Lemma wp_read_counts l d (Q : Od.odict nat → state → Prop) s :
  heap s !! l = Some (OCounts d) → Q d s → wp (read_counts l) Q s.
Proof. intros H HQ. unfold wp, read_counts. simpl. by rewrite H. Qed.

Lemma wp_read_systems l d (Q : Od.odict (list loc) → state → Prop) s :
  heap s !! l = Some (OSystems d) → Q d s → wp (read_systems l) Q s.
Proof. intros H HQ. unfold wp, read_systems. simpl. by rewrite H. Qed.

Lemma wp_get_path f (Q : string → state → Prop) s :
  Q (path_of (look_file (heap s) f)) s → wp (get_path f) Q s.
Proof.
  unfold wp, get_path, look_file. simpl.
  by destruct (heap s !! f) as [[]|].
Qed.

Lemma wp_get_language f (Q : string → state → Prop) s :
  Q (language_of (look_file (heap s) f)) s → wp (get_language f) Q s.
Proof.
  unfold wp, get_language, look_file. simpl.
  by destruct (heap s !! f) as [[]|].
Qed.

Lemma wp_view_file f (Q : FileRecord → state → Prop) s :
  Q (look_file (heap s) f) s → wp (view_file f) Q s.
Proof.
  intros HQ. unfold view_file. apply wp_bind, wp_read.
  unfold look_file in HQ.
  destruct (heap s !! f) as [o|]; [destruct o|]; try (apply wp_ret; exact HQ).
  unfold field_strs, look_strs in *.
  destruct imports, functions;
    repeat first [apply wp_bind | apply wp_read_strs | apply wp_ret]; exact HQ.
Qed.

(** [v or []] on a list field: the list read afterwards is the field as a
    value, and at most one empty list has been added to the store. *)
Lemma wp_list_or_new field (Q : loc → state → Prop) s :
  (∀ l s', printed s' = printed s →
           (heap s' = heap s ∨ heap s' = heap s ++ [OStrs []]) →
           strs_at (heap s') l = default [] (look_strs (heap s) field) →
           Q l s') →
  wp (list_or_new field) Q s.
Proof.
  intros HQ. unfold list_or_new.
  assert (Hnew : default [] (look_strs (heap s) field) = [] →
                 wp (alloc (OStrs [])) Q s).
  { intros E. apply wp_alloc. apply HQ; simpl; [done|by right|].
    unfold strs_at. rewrite lookup_app_r, Nat.sub_diag by done. by rewrite E. }
  destruct field as [l|]; [|by apply Hnew].
  apply wp_bind, wp_read_strs.
  change (look_strs (heap s) (Some l)) with (Some (strs_at (heap s) l)) in *.
  destruct (strs_at (heap s) l) as [|x xs] eqn:E.
  - by apply Hnew.
  - apply wp_ret. apply HQ; [done|by left|]. by rewrite E.
Qed.

Lemma wp_get_imports f (Q : loc → state → Prop) s :
  (∀ l s', printed s' = printed s →
           (heap s' = heap s ∨ heap s' = heap s ++ [OStrs []]) →
           strs_at (heap s') l = imports_of (look_file (heap s) f) →
           Q l s') →
  wp (get_imports f) Q s.
Proof.
  intros HQ. unfold get_imports. apply wp_bind, wp_read.
  apply wp_list_or_new. intros l s' Hp Hh Hs. apply HQ; [done..|].
  rewrite Hs. unfold look_file, imports_of.
  by destruct (heap s !! f) as [[]|].
Qed.

Lemma wp_get_functions f (Q : loc → state → Prop) s :
  (∀ l s', printed s' = printed s →
           (heap s' = heap s ∨ heap s' = heap s ++ [OStrs []]) →
           strs_at (heap s') l = functions_of (look_file (heap s) f) →
           Q l s') →
  wp (get_functions f) Q s.
Proof.
  intros HQ. unfold get_functions. apply wp_bind, wp_read.
  apply wp_list_or_new. intros l s' Hp Hh Hs. apply HQ; [done..|].
  rewrite Hs. unfold look_file, functions_of.
  by destruct (heap s !! f) as [[]|].
Qed.

Lemma wp_append_str l x (Q : unit → state → Prop) s :
  Q tt (upd s l (OStrs (strs_at (heap s) l ++ [x]))) → wp (append_str l x) Q s.
Proof. done. Qed.

Lemma wp_add_str l x (Q : unit → state → Prop) s :
  Q tt (upd s l (OStrs (if Py.mem x (strs_at (heap s) l)
                        then strs_at (heap s) l else strs_at (heap s) l ++ [x]))) →
  wp (add_str l x) Q s.
Proof. done. Qed.

Lemma wp_index_append l d name info (Q : unit → state → Prop) s :
  heap s !! l = Some (OIndex d) →
  Q tt (upd s l (OIndex (Od.append d name info))) →
  wp (index_append l name info) Q s.
Proof. intros H HQ. unfold wp, index_append. simpl. by rewrite H. Qed.

Lemma wp_deps_touch l d path (Q : list string → state → Prop) s :
  heap s !! l = Some (ODeps d) →
  Q (default [] (Od.get d path)) (upd s l (ODeps (Od.touch [] d path))) →
  wp (deps_touch l path) Q s.
Proof. intros H HQ. unfold wp, deps_touch. simpl. by rewrite H. Qed.

Lemma wp_deps_append l d path x (Q : unit → state → Prop) s :
  heap s !! l = Some (ODeps d) →
  Q tt (upd s l (ODeps (Od.append d path x))) →
  wp (deps_append l path x) Q s.
Proof. intros H HQ. unfold wp, deps_append. simpl. by rewrite H. Qed.

Lemma wp_deps_set l d key v (Q : unit → state → Prop) s :
  heap s !! l = Some (ODeps d) →
  Q tt (upd s l (ODeps (Od.set d key v))) →
  wp (deps_set l key v) Q s.
Proof. intros H HQ. unfold wp, deps_set. simpl. by rewrite H. Qed.

Lemma wp_counts_incr l d target (Q : unit → state → Prop) s :
  heap s !! l = Some (OCounts d) →
  Q tt (upd s l (OCounts (Od.incr d target))) →
  wp (counts_incr l target) Q s.
Proof. intros H HQ. unfold wp, counts_incr. simpl. by rewrite H. Qed.

Lemma wp_systems_append l d system f (Q : unit → state → Prop) s :
  heap s !! l = Some (OSystems d) →
  Q tt (upd s l (OSystems (Od.append d system f))) →
  wp (systems_append l system f) Q s.
Proof. intros H HQ. unfold wp, systems_append. simpl. by rewrite H. Qed.

End wp_ops.

(** *** The input in a store that keeps it *)

Section kept_input.
Variable hp : list Mem.obj.

Lemma keeps_refl : Mem.keeps hp hp.
Proof. by intros l o. Qed.

Lemma keeps_length (h : list Mem.obj) : Mem.keeps hp h → length hp ≤ length h.
Proof.
  intros H. destruct (decide (length hp ≤ length h)) as [|Hn]; [done|].
  destruct (lookup_lt_is_Some_2 hp (length h) ltac:(lia)) as [o Ho].
  apply H in Ho. apply lookup_lt_Some in Ho. lia.
Qed.

Lemma keeps_upd (s : Mem.state) (l : Mem.loc) (o : Mem.obj) :
  Mem.keeps hp (Mem.heap s) → length hp ≤ l →
  Mem.keeps hp (Mem.heap (Mem.upd s l o)).
Proof.
  intros H Hl i x Hi. simpl. rewrite list_lookup_insert_ne; [by apply H|].
  apply lookup_lt_Some in Hi. lia.
Qed.

Lemma keeps_app (h junk : list Mem.obj) :
  Mem.keeps hp h → Mem.keeps hp (h ++ junk).
Proof. intros H i x Hi. apply lookup_app_l_Some. by apply H. Qed.

Lemma keeps_below (h h' : list Mem.obj) (n0 : nat) :
  Mem.keeps hp h → length hp ≤ n0 →
  (∀ l, l < n0 → h' !! l = h !! l) → Mem.keeps hp h'.
Proof.
  intros H Hn Hsame i x Hi. rewrite Hsame; [by apply H|].
  apply lookup_lt_Some in Hi. lia.
Qed.

Lemma reads_nil_inv (fs : list FileRecord) : Mem.reads hp [] fs → fs = [].
Proof. intros H. by rewrite <- (H hp keeps_refl). Qed.

Lemma reads_cons_inv (f : Mem.loc) (fl : list Mem.loc) (fs : list FileRecord) :
  Mem.reads hp (f :: fl) fs →
  ∃ x fs', fs = x :: fs'
           ∧ (∀ h, Mem.keeps hp h → Mem.look_file h f = x)
           ∧ Mem.reads hp fl fs'.
Proof.
  intros H. pose proof (H hp keeps_refl) as H0. simpl in H0.
  exists (Mem.look_file hp f), (map (Mem.look_file hp) fl).
  split; [done|]. split.
  - intros h Hh. specialize (H h Hh). simpl in H. rewrite <- H0 in H. by injection H.
  - intros h Hh. specialize (H h Hh). simpl in H. rewrite <- H0 in H. by injection H.
Qed.

Lemma upd_lookup_eq (s : Mem.state) (l : Mem.loc) (o : Mem.obj) :
  l < length (Mem.heap s) → Mem.heap (Mem.upd s l o) !! l = Some o.
Proof. intros H. simpl. by apply list_lookup_insert_eq. Qed.

Lemma upd_lookup_ne (s : Mem.state) (l l' : Mem.loc) (o : Mem.obj) :
  l ≠ l' → Mem.heap (Mem.upd s l o) !! l' = Mem.heap s !! l'.
Proof. intros H. simpl. by apply list_lookup_insert_ne. Qed.

Lemma upd_upd (s : Mem.state) (l : Mem.loc) (o o' : Mem.obj) :
  Mem.upd (Mem.upd s l o) l o' = Mem.upd s l o'.
Proof. unfold Mem.upd. simpl. by rewrite list_insert_insert_eq. Qed.

Lemma upd_same (s : Mem.state) (l : Mem.loc) (o : Mem.obj) :
  Mem.heap s !! l = Some o → Mem.upd s l o = s.
Proof.
  intros H. unfold Mem.upd. rewrite list_insert_id by done. by destruct s.
Qed.

(** *** [find_internal_deps]: the index *)

Lemma index_loop (ci : Mem.loc) :
  length hp ≤ ci →
  ∀ fl fs s idx,
    Mem.reads hp fl fs → Mem.keeps hp (Mem.heap s) →
    Mem.heap s !! ci = Some (Mem.OIndex idx) →
    Mem.wp (Mem.for_each fl (Mem.index_file ci))
      (fun _ s' => s' = Mem.upd s ci (Mem.OIndex (foldl index_file idx fs))) s.
Proof.
  intros Hci. induction fl as [|f fl IH]; intros fs s idx Hr Hk Hidx.
  - apply reads_nil_inv in Hr as ->. simpl. apply wp_ret.
    by rewrite upd_same.
  - apply reads_cons_inv in Hr as (x & fs' & -> & Hx & Hr).
    simpl. apply wp_bind. unfold Mem.index_file at 1.
    apply wp_bind, wp_get_path. apply wp_bind, wp_get_language.
    eapply wp_index_append; [exact Hidx|].
    rewrite (Hx _ Hk).
    eapply wp_mono.
    { apply (IH fs' _ (index_file idx x)); [done| |].
      - by apply keeps_upd.
      - apply upd_lookup_eq. by eapply lookup_lt_Some. }
    intros _ s' ->. by rewrite upd_upd.
Qed.

(** *** [find_internal_deps]: the dependency dictionary *)

Lemma cand_step (cd : Mem.loc) (path group basename : string) :
  ∀ cand s D,
    Mem.heap s !! cd = Some (Mem.ODeps D) →
    Mem.wp (Mem.add_candidate cd path group basename cand)
      (fun _ s' =>
         s' = Mem.upd s cd (Mem.ODeps (add_candidate path group basename D cand))) s.
Proof.
  intros [tp tg] s D HD. unfold Mem.add_candidate, add_candidate.
  destruct (bool_decide (tp = path)); [apply wp_ret; by rewrite upd_same|].
  destruct (negb (bool_decide (group = tg))); [apply wp_ret; by rewrite upd_same|].
  destruct (bool_decide (Py.basename tp = basename));
    [apply wp_ret; by rewrite upd_same|].
  apply wp_bind. eapply wp_deps_touch; [exact HD|].
  rewrite od_get_touch, decide_True by done. simpl.
  destruct (Py.mem (Py.basename tp) (default [] (Od.get D path))).
  - by apply wp_ret.
  - eapply wp_deps_append.
    + apply upd_lookup_eq. by eapply lookup_lt_Some.
    + by rewrite upd_upd.
Qed.

Lemma cand_loop (cd : Mem.loc) (path group basename : string) :
  ∀ cands s D,
    Mem.heap s !! cd = Some (Mem.ODeps D) →
    Mem.wp (Mem.for_each cands (Mem.add_candidate cd path group basename))
      (fun _ s' =>
         s' = Mem.upd s cd
                (Mem.ODeps (foldl (add_candidate path group basename) D cands))) s.
Proof.
  induction cands as [|cand cands IH]; intros s D HD; simpl.
  - apply wp_ret. by rewrite upd_same.
  - apply wp_bind. eapply wp_mono; [by apply cand_step|].
    intros _ s1 ->. eapply wp_mono.
    { apply IH. apply upd_lookup_eq. by eapply lookup_lt_Some. }
    intros _ s' ->. by rewrite upd_upd.
Qed.

Lemma import_step (ci cd : Mem.loc) (idx : Od.odict (list (string * string)))
    (path lang group : string) :
  ci ≠ cd →
  ∀ imp s D,
    Mem.heap s !! ci = Some (Mem.OIndex idx) →
    Mem.heap s !! cd = Some (Mem.ODeps D) →
    Mem.wp (Mem.add_import ci cd path lang group imp)
      (fun _ s' =>
         s' = Mem.upd s cd (Mem.ODeps (add_import idx path lang group D imp))) s.
Proof.
  intros Hne imp s D Hidx HD. unfold Mem.add_import, add_import.
  destruct (_ && _); [apply wp_ret; by rewrite upd_same|].
  destruct (Py.mem _ stdlib_names); [apply wp_ret; by rewrite upd_same|].
  apply wp_bind. eapply wp_read_index; [exact Hidx|].
  destruct (Od.get idx _) as [cands|]; [|apply wp_ret; by rewrite upd_same].
  by apply cand_loop.
Qed.

Lemma import_loop (ci cd : Mem.loc) (idx : Od.odict (list (string * string)))
    (path lang group : string) :
  ci ≠ cd →
  ∀ imps s D,
    Mem.heap s !! ci = Some (Mem.OIndex idx) →
    Mem.heap s !! cd = Some (Mem.ODeps D) →
    Mem.wp (Mem.for_each imps (Mem.add_import ci cd path lang group))
      (fun _ s' =>
         s' = Mem.upd s cd
                (Mem.ODeps (foldl (add_import idx path lang group) D imps))) s.
Proof.
  intros Hne. induction imps as [|imp imps IH]; intros s D Hidx HD; simpl.
  - apply wp_ret. by rewrite upd_same.
  - apply wp_bind. eapply wp_mono; [by apply import_step|].
    intros _ s1 ->. eapply wp_mono.
    { apply IH.
      - by rewrite upd_lookup_ne.
      - apply upd_lookup_eq. by eapply lookup_lt_Some. }
    intros _ s' ->. by rewrite upd_upd.
Qed.

Lemma file_step (ci cd : Mem.loc) (idx : Od.odict (list (string * string))) :
  ci ≠ cd → length hp ≤ cd →
  ∀ f x s D,
    (∀ h, Mem.keeps hp h → Mem.look_file h f = x) →
    Mem.deps_state hp ci cd idx D s →
    Mem.wp (Mem.add_file ci cd f) (fun _ s' => Mem.deps_state hp ci cd idx (add_file idx D x) s') s.
Proof.
  intros Hne Hcd f x s D Hx (Hk & Hidx & HD). unfold Mem.add_file, add_file.
  apply wp_bind, wp_get_path. apply wp_bind, wp_get_language.
  apply wp_bind, wp_get_imports. intros l s1 _ Hh Hl.
  apply wp_bind, wp_read_strs. rewrite Hl, (Hx _ Hk).
  assert (Hk1 : Mem.keeps hp (Mem.heap s1)).
  { destruct Hh as [-> | ->]; [done|by apply keeps_app]. }
  assert (Hidx1 : Mem.heap s1 !! ci = Some (Mem.OIndex idx)).
  { destruct Hh as [-> | ->]; [done|by apply lookup_app_l_Some]. }
  assert (HD1 : Mem.heap s1 !! cd = Some (Mem.ODeps D)).
  { destruct Hh as [-> | ->]; [done|by apply lookup_app_l_Some]. }
  eapply wp_mono; [by apply import_loop|].
  intros _ s' ->. split; [by apply keeps_upd|]. split.
  - by rewrite upd_lookup_ne.
  - apply upd_lookup_eq. by eapply lookup_lt_Some.
Qed.

Lemma file_loop (ci cd : Mem.loc) (idx : Od.odict (list (string * string))) :
  ci ≠ cd → length hp ≤ cd →
  ∀ fl fs s D,
    Mem.reads hp fl fs → Mem.deps_state hp ci cd idx D s →
    Mem.wp (Mem.for_each fl (Mem.add_file ci cd))
      (fun _ s' => Mem.deps_state hp ci cd idx (foldl (add_file idx) D fs) s') s.
Proof.
  intros Hne Hcd. induction fl as [|f fl IH]; intros fs s D Hr Hs.
  - apply reads_nil_inv in Hr as ->. by apply wp_ret.
  - apply reads_cons_inv in Hr as (x & fs' & -> & Hx & Hr).
    simpl. apply wp_bind. eapply wp_mono; [by apply file_step|].
    intros u s1 Hs1. by apply IH.
Qed.

Lemma find_internal_deps_agrees (lf : Mem.loc) (flocs : list Mem.loc)
    (files : list FileRecord) (s : Mem.state) :
  Mem.reads hp flocs files → Mem.keeps hp (Mem.heap s) →
  Mem.heap s !! lf = Some (Mem.ORefs flocs) →
  Mem.wp (Mem.find_internal_deps lf)
    (fun d s' =>
       Mem.heap s' !! d = Some (Mem.ODeps (find_internal_deps files))
       ∧ length (Mem.heap s) ≤ d) s.
Proof.
  intros Hr Hk Hlf. unfold Mem.find_internal_deps.
  pose proof (keeps_length _ Hk) as Hlen.
  apply wp_bind, wp_alloc. apply wp_bind, wp_read_refs. simpl.
  rewrite (lookup_app_l_Some _ _ _ _ Hlf).
  apply wp_bind. eapply wp_mono.
  { apply (index_loop (length (Mem.heap s))); [done|exact Hr| |].
    - by apply keeps_app.
    - simpl. by rewrite lookup_app_r, Nat.sub_diag by done. }
  intros _ s2 ->. apply wp_bind, wp_alloc. apply wp_bind.
  set (s1 := Mem.mkState (Mem.heap s ++ [Mem.OIndex []]) (Mem.printed s)).
  set (s2 := Mem.upd s1 (length (Mem.heap s)) (Mem.OIndex (foldl index_file [] files))).
  assert (Hlen2 : length (Mem.heap s2) = length (Mem.heap s) + 1).
  { unfold s2, s1. simpl. by rewrite length_insert, length_app. }
  assert (Hci : Mem.heap s2 !! length (Mem.heap s)
                = Some (Mem.OIndex (build_index files))).
  { unfold s2. apply upd_lookup_eq. unfold s1. simpl. rewrite length_app. simpl. lia. }
  assert (Hk2 : Mem.keeps hp (Mem.heap s2)).
  { unfold s2. apply keeps_upd; [|done]. unfold s1. simpl. by apply keeps_app. }
  clearbody s2. clear s1.
  eapply wp_mono.
  { apply (file_loop (length (Mem.heap s)) (length (Mem.heap s2))
             (build_index files)); [lia|lia|exact Hr|].
    split; [|split]; simpl.
    - by apply keeps_app.
    - by apply lookup_app_l_Some.
    - by rewrite lookup_app_r, Nat.sub_diag by done. }
  intros u s4 (_ & _ & HD). apply wp_ret.
  split; [exact HD|lia].
Qed.

(** *** [render]: the counts and the systems *)

Lemma incr_loop (cc : Mem.loc) :
  ∀ targets s dc,
    Mem.heap s !! cc = Some (Mem.OCounts dc) →
    Mem.wp (Mem.for_each targets (Mem.counts_incr cc))
      (fun _ s' => s' = Mem.upd s cc (Mem.OCounts (foldl Od.incr dc targets))) s.
Proof.
  induction targets as [|t targets IH]; intros s dc Hdc; simpl.
  - apply wp_ret. by rewrite upd_same.
  - apply wp_bind. eapply wp_counts_incr; [exact Hdc|].
    eapply wp_mono.
    { apply IH. apply upd_lookup_eq. by eapply lookup_lt_Some. }
    intros u s' ->. by rewrite upd_upd.
Qed.

Lemma counts_loop (cc : Mem.loc) :
  ∀ (idv : Od.odict (list string)) s dc,
    Mem.heap s !! cc = Some (Mem.OCounts dc) →
    Mem.wp (Mem.for_each idv (Mem.count_entry cc))
      (fun _ s' =>
         s' = Mem.upd s cc
                (Mem.OCounts (foldl (fun dep_counts entry =>
                                       foldl Od.incr dep_counts entry.2) dc idv))) s.
Proof.
  induction idv as [|e idv IH]; intros s dc Hdc; simpl.
  - apply wp_ret. by rewrite upd_same.
  - apply wp_bind. eapply wp_mono; [by apply incr_loop|].
    intros u s1 ->. eapply wp_mono.
    { apply IH. apply upd_lookup_eq. by eapply lookup_lt_Some. }
    intros u' s' ->. by rewrite upd_upd.
Qed.

Lemma od_get_look_systems (h : list Mem.obj) (d : Od.odict (list Mem.loc)) (k : string) :
  Od.get (Mem.look_systems h d) k = map (Mem.look_file h) <$> Od.get d k.
Proof.
  induction d as [|[k' v] d IH]; simpl; [done|].
  by destruct (bool_decide (k' = k)).
Qed.

Lemma look_systems_set (h : list Mem.obj) (d : Od.odict (list Mem.loc))
    (k : string) (v : list Mem.loc) :
  Mem.look_systems h (Od.set d k v)
  = Od.set (Mem.look_systems h d) k (map (Mem.look_file h) v).
Proof.
  induction d as [|[k' v'] d IH]; simpl; [done|].
  destruct (bool_decide (k' = k)); simpl; [done|]. by rewrite IH.
Qed.

Lemma look_systems_append (h : list Mem.obj) (d : Od.odict (list Mem.loc))
    (k : string) (f : Mem.loc) :
  Mem.look_systems h (Od.append d k f)
  = Od.append (Mem.look_systems h d) k (Mem.look_file h f).
Proof.
  unfold Od.append. rewrite look_systems_set, od_get_look_systems, map_app.
  by destruct (Od.get d k).
Qed.

Lemma systems_loop (cs : Mem.loc) :
  length hp ≤ cs →
  ∀ fl fs s sd,
    Mem.reads hp fl fs → Mem.keeps hp (Mem.heap s) →
    Mem.heap s !! cs = Some (Mem.OSystems sd) →
    Mem.wp (Mem.for_each fl (Mem.group_file cs))
      (fun _ s' =>
         ∃ sd', s' = Mem.upd s cs (Mem.OSystems sd')
                ∧ ∀ h, Mem.keeps hp h →
                    Mem.look_systems h sd'
                    = foldl (fun systems f =>
                               Od.append systems (system_of (path_of f)) f)
                            (Mem.look_systems h sd) fs) s.
Proof.
  intros Hcs. induction fl as [|f fl IH]; intros fs s sd Hr Hk Hsd.
  - apply reads_nil_inv in Hr as ->. simpl. apply wp_ret.
    exists sd. by rewrite upd_same.
  - apply reads_cons_inv in Hr as (x & fs' & -> & Hx & Hr).
    simpl. apply wp_bind. unfold Mem.group_file at 1. apply wp_bind, wp_get_path.
    eapply wp_systems_append; [exact Hsd|]. rewrite (Hx _ Hk).
    eapply wp_mono.
    { apply (IH fs'); [done| |].
      - by apply keeps_upd.
      - apply upd_lookup_eq. by eapply lookup_lt_Some. }
    intros u s' (sd' & -> & Hsd'). exists sd'. split; [by rewrite upd_upd|].
    intros h Hh. rewrite (Hsd' h Hh), look_systems_append. by rewrite (Hx h Hh).
Qed.

(** *** [render]: the header *)

Lemma upd_comm (s : Mem.state) (l l' : Mem.loc) (o o' : Mem.obj) :
  l ≠ l' → Mem.upd (Mem.upd s l o) l' o' = Mem.upd (Mem.upd s l' o') l o.
Proof. intros H. unfold Mem.upd. simpl. by rewrite list_insert_insert_ne. Qed.

Lemma strs_at_eq (h : list Mem.obj) (l : Mem.loc) (xs : list string) :
  h !! l = Some (Mem.OStrs xs) → Mem.strs_at h l = xs.
Proof. intros H. unfold Mem.strs_at. by rewrite H. Qed.

Lemma foldl_cons {A B} (f : A → B → A) (a : A) (x : B) (xs : list B) :
  foldl f a (x :: xs) = foldl f (f a x) xs.
Proof. reflexivity. Qed.

Lemma ext_name_step_eq (names seen : list string) (d : string) :
  ext_name_step (names, seen) d =
  if ext_name_ok (ext_name d) && negb (Py.mem (ext_name d) seen)
  then (names ++ [ext_name d], seen ++ [ext_name d]) else (names, seen).
Proof. reflexivity. Qed.

Lemma name_loop (cn cs : Mem.loc) :
  cn ≠ cs →
  ∀ ds s names seen,
    Mem.heap s !! cn = Some (Mem.OStrs names) →
    Mem.heap s !! cs = Some (Mem.OStrs seen) →
    Mem.wp (Mem.for_each ds (Mem.ext_name_step cn cs))
      (fun _ s' =>
         s' = Mem.upd (Mem.upd s cs (Mem.OStrs (foldl ext_name_step (names, seen) ds).2))
                cn (Mem.OStrs (foldl ext_name_step (names, seen) ds).1)) s.
Proof.
  intros Hne. induction ds as [|d ds IH]; intros s names seen Hn Hs.
  - apply wp_for_each_nil. simpl.
    rewrite (upd_same s cs) by done. by rewrite upd_same.
  - apply wp_for_each_cons. rewrite foldl_cons.
    rewrite ext_name_step_eq. unfold Mem.ext_name_step at 1. cbv zeta.
    apply wp_bind, wp_read_strs. rewrite (strs_at_eq _ _ _ Hs).
    destruct (ext_name_ok (ext_name d)); simpl andb; [|apply wp_ret; by apply IH].
    destruct (Py.mem (ext_name d) seen) eqn:E2; simpl negb; cbv iota.
    { apply wp_ret. by apply IH. }
    apply wp_bind, wp_add_str. rewrite (strs_at_eq _ _ _ Hs), E2.
    apply wp_append_str.
    rewrite (strs_at_eq _ _ names) by by rewrite upd_lookup_ne.
    eapply wp_mono.
    { apply (IH _ (names ++ [ext_name d]) (seen ++ [ext_name d])).
      - apply upd_lookup_eq. simpl. rewrite length_insert. by eapply lookup_lt_Some.
      - rewrite upd_lookup_ne by done. apply upd_lookup_eq. by eapply lookup_lt_Some. }
    intros u s' ->.
    rewrite (upd_comm _ cn cs) by done. by rewrite !upd_upd.
Qed.

Lemma reads_ext_nil_inv (ext : Od.odict (list string)) :
  Mem.reads_ext hp [] ext → ext = [].
Proof. intros H. by rewrite <- (H hp keeps_refl). Qed.

Lemma reads_ext_cons_inv (lang : string) (l : Mem.loc) (ed : Od.odict Mem.loc)
    (ext : Od.odict (list string)) :
  Mem.reads_ext hp ((lang, l) :: ed) ext →
  ∃ deps ext', ext = (lang, deps) :: ext'
               ∧ (∀ h, Mem.keeps hp h → Mem.strs_at h l = deps)
               ∧ Mem.reads_ext hp ed ext'.
Proof.
  intros H. pose proof (H hp keeps_refl) as H0. simpl in H0.
  eexists _, _. split; [symmetry; exact H0|]. split.
  - intros h Hh. specialize (H h Hh). simpl in H. rewrite <- H0 in H.
    by injection H.
  - intros h Hh. specialize (H h Hh). simpl in H. rewrite <- H0 in H.
    by injection H.
Qed.

Lemma ebl_step (ce l : Mem.loc) (lang : string) (E : Od.odict (list string))
    (s : Mem.state) :
  length hp ≤ ce → Mem.keeps hp (Mem.heap s) →
  Mem.heap s !! ce = Some (Mem.ODeps E) →
  Mem.wp (Mem.ext_by_lang_step ce (lang, l))
    (fun _ s' =>
       Mem.keeps hp (Mem.heap s')
       ∧ Mem.heap s' !! ce
         = Some (Mem.ODeps (ext_by_lang_step E (lang, Mem.strs_at (Mem.heap s) l)))
       ∧ Mem.printed s' = Mem.printed s) s.
Proof.
  intros Hce Hk HE. unfold Mem.ext_by_lang_step.
  pose proof (lookup_lt_Some _ _ _ HE) as Hlt.
  apply wp_bind, wp_read_strs.
  destruct (Mem.strs_at (Mem.heap s) l) as [|d ds]; [by apply wp_ret|].
  apply wp_bind, wp_alloc. apply wp_bind, wp_alloc. apply wp_bind.
  cbn [Mem.heap Mem.printed]. rewrite length_app. simpl (length [_]).
  rewrite <- app_assoc. simpl ([_] ++ [_]).
  replace (length (Mem.heap s) + 1) with (S (length (Mem.heap s))) by lia.
  set (cn := length (Mem.heap s)).
  set (s2 := Mem.mkState _ _).
  assert (Hcn : Mem.heap s2 !! cn = Some (Mem.OStrs [])).
  { unfold s2, cn. simpl. by rewrite lookup_app_r, Nat.sub_diag by done. }
  assert (Hcs : Mem.heap s2 !! S cn = Some (Mem.OStrs [])).
  { unfold s2, cn. simpl. rewrite lookup_app_r by lia.
    by replace (S (length (Mem.heap s)) - length (Mem.heap s)) with 1 by lia. }
  assert (Hce2 : Mem.heap s2 !! ce = Some (Mem.ODeps E)).
  { unfold s2. simpl. by apply lookup_app_l_Some. }
  assert (Hk2 : Mem.keeps hp (Mem.heap s2)).
  { unfold s2. simpl. by apply keeps_app. }
  assert (Hp2 : Mem.printed s2 = Mem.printed s) by done.
  pose proof (keeps_length _ Hk) as Hlen.
  assert (Hlen2 : cn < length (Mem.heap s2)).
  { unfold s2, cn. simpl. rewrite length_app. simpl. lia. }
  clearbody s2.
  eapply wp_mono; [apply (name_loop cn (S cn)); [lia|exact Hcn|exact Hcs]|].
  intros u s3 ->. cbv beta.
  set (r := foldl ext_name_step ([], []) (d :: ds)).
  apply wp_bind, wp_read_strs.
  rewrite (strs_at_eq _ _ r.1)
    by (apply upd_lookup_eq; simpl; rewrite length_insert; by eapply lookup_lt_Some).
  assert (Hne1 : S cn ≠ ce) by (unfold cn; lia).
  assert (Hne2 : cn ≠ ce) by (unfold cn; lia).
  assert (Hce3 : Mem.heap (Mem.upd (Mem.upd s2 (S cn) (Mem.OStrs r.2)) cn
                             (Mem.OStrs r.1)) !! ce = Some (Mem.ODeps E)).
  { by rewrite !upd_lookup_ne. }
  assert (Hk3 : Mem.keeps hp (Mem.heap (Mem.upd (Mem.upd s2 (S cn) (Mem.OStrs r.2)) cn
                                          (Mem.OStrs r.1)))).
  { apply keeps_upd; [apply keeps_upd|]; [done|unfold cn; lia..]. }
  change (ext_by_lang_step E (lang, d :: ds))
    with (match r.1 with [] => E | n :: ns => Od.set E lang (n :: ns) end).
  destruct r.1 as [|n ns]; [by apply wp_ret|].
  eapply wp_deps_set; [exact Hce3|]. split; [|split].
  - apply keeps_upd; [done|lia].
  - apply upd_lookup_eq. by eapply lookup_lt_Some.
  - done.
Qed.

Lemma ebl_loop (ce : Mem.loc) :
  length hp ≤ ce →
  ∀ ed ext s E,
    Mem.reads_ext hp ed ext → Mem.keeps hp (Mem.heap s) →
    Mem.heap s !! ce = Some (Mem.ODeps E) →
    Mem.wp (Mem.for_each ed (Mem.ext_by_lang_step ce))
      (fun _ s' =>
         Mem.keeps hp (Mem.heap s')
         ∧ Mem.heap s' !! ce = Some (Mem.ODeps (foldl ext_by_lang_step E ext))
         ∧ Mem.printed s' = Mem.printed s) s.
Proof.
  intros Hce. induction ed as [|[lang l] ed IH]; intros ext s E Hr Hk HE.
  - apply reads_ext_nil_inv in Hr as ->. by apply wp_for_each_nil.
  - apply reads_ext_cons_inv in Hr as (deps & ext' & -> & Hl & Hr).
    apply wp_for_each_cons. eapply wp_mono; [by apply ebl_step|].
    intros u s1 (Hk1 & HE1 & Hp1). rewrite (Hl _ Hk) in HE1.
    eapply wp_mono; [by apply (IH ext')|].
    intros u' s2 (Hk2 & HE2 & Hp2). rewrite foldl_cons. by rewrite Hp2.
Qed.

Lemma dep_line_step_eq (ebl : Od.odict (list string)) (dl : list string)
    (mw : nat) (lang : string) :
  dep_line_step ebl (dl, mw) lang =
  match Od.get ebl lang with
  | Some names =>
      let line := default (Py.title lang) (Od.get lang_labels lang)
                  +:+ ": " +:+ Py.join ", " names in
      (dl ++ [line],
       if (mw <? String.length line + 4)%nat then String.length line + 4 else mw)
  | None => (dl, mw)
  end.
Proof. reflexivity. Qed.

Lemma dep_lines_loop (ebl : Od.odict (list string)) (cd : Mem.loc) :
  ∀ langs s dl mw,
    Mem.heap s !! cd = Some (Mem.OStrs dl) →
    Mem.wp (Mem.fold_m (Mem.dep_line_step ebl cd) mw langs)
      (fun mw' s' =>
         s' = Mem.upd s cd (Mem.OStrs (foldl (dep_line_step ebl) (dl, mw) langs).1)
         ∧ mw' = (foldl (dep_line_step ebl) (dl, mw) langs).2) s.
Proof.
  induction langs as [|lang langs IH]; intros s dl mw Hcd.
  - apply wp_fold_m_nil. simpl. by rewrite upd_same.
  - apply wp_fold_m_cons. rewrite foldl_cons, dep_line_step_eq.
    unfold Mem.dep_line_step at 1.
    destruct (Od.get ebl lang) as [names|]; cbv zeta.
    + apply wp_bind, wp_append_str, wp_ret. rewrite (strs_at_eq _ _ _ Hcd).
      eapply wp_mono.
      { apply IH. apply upd_lookup_eq. by eapply lookup_lt_Some. }
      intros mw' s' [-> ->]. by rewrite upd_upd.
    + apply wp_ret. by apply IH.
Qed.

Lemma wp_for_each_print_all {A} (g : A → list string) (xs : list A)
    (Q : unit → Mem.state → Prop) (s : Mem.state) :
  Q tt (Mem.mkState (Mem.heap s) (Mem.printed s ++ concat (map g xs))) →
  Mem.wp (Mem.for_each xs (fun x => Mem.for_each (g x) Mem.print)) Q s.
Proof.
  revert s. induction xs as [|x xs IH]; intros s HQ.
  - apply wp_for_each_nil. simpl in HQ. rewrite app_nil_r in HQ. by destruct s.
  - apply wp_for_each_cons, wp_for_each_print, IH. simpl.
    simpl in HQ. by rewrite <- app_assoc.
Qed.

Lemma lookup_new (h : list Mem.obj) (o : Mem.obj) : (h ++ [o]) !! length h = Some o.
Proof. by rewrite lookup_app_r, Nat.sub_diag by done. Qed.

(** The header panel prints the lines of [render_header]. *)
Lemma render_header_agrees (le : Mem.loc) (ed : Od.odict Mem.loc)
    (ext : Od.odict (list string)) (project_name : string) (s : Mem.state) :
  Mem.reads_ext hp ed ext → Mem.keeps hp (Mem.heap s) →
  Mem.heap s !! le = Some (Mem.OExt ed) →
  Mem.wp (Mem.render_header le project_name)
    (fun _ s' => Mem.printed s' = Mem.printed s ++ render_header ext project_name) s.
Proof.
  intros Hr Hk Hle. pose proof (keeps_length _ Hk) as Hlen.
  unfold Mem.render_header.
  apply wp_bind, wp_print. apply wp_bind, wp_alloc. apply wp_bind, wp_read_ext.
  cbn [Mem.heap Mem.printed]. rewrite (lookup_app_l_Some _ _ _ _ Hle).
  apply wp_bind. eapply wp_mono.
  { apply (ebl_loop (length (Mem.heap s)) Hlen ed ext _ []); [exact Hr| |].
    - by apply keeps_app.
    - apply lookup_new. }
  intros u s1 (Hk1 & HE1 & Hp1). cbn [Mem.printed] in Hp1.
  apply wp_bind, wp_alloc. apply wp_bind.
  eapply wp_read_deps; [cbn [Mem.heap]; by apply lookup_app_l_Some|].
  apply wp_bind. eapply wp_mono.
  { apply (dep_lines_loop _ (length (Mem.heap s1)) lang_order _ []). apply lookup_new. }
  intros mw s2 [-> ->]. cbv zeta.
  unfold render_header, build_ext_by_lang.
  destruct (foldl (dep_line_step (foldl ext_by_lang_step [] ext))
              ([], String.length (project_name +:+ " - Dependency Flow") + 6)
              lang_order) as [dl mw].
  cbn [fst snd].
  apply wp_bind, wp_print. apply wp_bind, wp_print.
  apply wp_bind, wp_read_strs. cbn [Mem.heap Mem.printed Mem.upd].
  rewrite (strs_at_eq _ _ dl)
    by (apply list_lookup_insert_eq; rewrite length_app; simpl; lia).
  rewrite Hp1. destruct dl as [|x dl].
  - apply wp_bind, wp_ret, wp_bind, wp_print, wp_print. cbn [Mem.printed].
    by rewrite <- !app_assoc.
  - apply wp_bind, wp_bind, wp_print. apply wp_for_each_print_all.
    apply wp_bind, wp_print, wp_print. cbn [Mem.printed].
    by rewrite <- !app_assoc.
Qed.

(** *** [render]: one system *)

(** A part of the program that writes at new objects only and prints
    nothing. *)
Lemma wp_silent {A} (n0 : nat) (m : Mem.M A) (R : A → Prop) (s : Mem.state) :
  Mem.frame n0 m R → Mem.quiet m →
  Mem.keeps hp (Mem.heap s) → length hp ≤ n0 → n0 ≤ length (Mem.heap s) →
  Mem.wp m (fun a s' =>
              R a ∧ Mem.keeps hp (Mem.heap s')
              ∧ Mem.printed s' = Mem.printed s
              ∧ length (Mem.heap s) ≤ length (Mem.heap s')
              ∧ ∀ l, l < n0 → Mem.heap s' !! l = Mem.heap s !! l) s.
Proof.
  intros Hf Hq Hk Hn Hs. destruct (Hf s Hs) as (HR & Hlen & Hsame).
  unfold Mem.wp. split; [done|]. split; [by eapply keeps_below|].
  split; [apply Hq|]. done.
Qed.

Lemma view_file_run (f : Mem.loc) (s : Mem.state) :
  Mem.view_file f s = (Mem.look_file (Mem.heap s) f, s).
Proof.
  pose proof (wp_view_file f
    (fun a s' => (a, s') = (Mem.look_file (Mem.heap s) f, s)) s eq_refl) as H.
  unfold Mem.wp in H. by destruct (Mem.view_file f s).
Qed.

Lemma render_file_eq (files : list FileRecord) (idv : Od.odict (list string))
    (rendered out : list string) (f : FileRecord) :
  render_file files idv (rendered, out) f =
  if Py.mem (Py.basename (path_of f)) rendered then (rendered, out)
  else match default [] (Od.get idv (path_of f)) with
       | [] => (rendered, out)
       | t :: ts =>
           (rendered ++ [Py.basename (path_of f)],
            out ++ render_chain files idv (strip_ext (Py.basename (path_of f)))
                     (t :: ts))
       end.
Proof. reflexivity. Qed.

Lemma render_file_out (files : list FileRecord) (idv : Od.odict (list string))
    (fs : list FileRecord) :
  ∀ rendered out,
    foldl (render_file files idv) (rendered, out) fs
    = ((foldl (render_file files idv) (rendered, []) fs).1,
       out ++ (foldl (render_file files idv) (rendered, []) fs).2).
Proof.
  induction fs as [|f fs IH]; intros rendered out.
  - simpl. by rewrite app_nil_r.
  - rewrite !foldl_cons, !render_file_eq.
    destruct (Py.mem _ rendered); [apply IH|].
    destruct (default [] (Od.get idv (path_of f))) as [|t ts]; [apply IH|].
    rewrite (IH _ (out ++ _)), (IH _ ([] ++ _)). simpl. by rewrite app_assoc.
Qed.

Lemma file_chain_step (views : list FileRecord) (idv : Od.odict (list string))
    (cr f : Mem.loc) (s : Mem.state) (rendered : list string) :
  length hp ≤ cr → Mem.keeps hp (Mem.heap s) →
  Mem.heap s !! cr = Some (Mem.OStrs rendered) →
  Mem.wp (Mem.render_file views idv cr f)
    (fun _ s' =>
       Mem.keeps hp (Mem.heap s')
       ∧ Mem.heap s' !! cr
         = Some (Mem.OStrs (render_file views idv (rendered, Mem.printed s)
                              (Mem.look_file (Mem.heap s) f)).1)
       ∧ Mem.printed s'
         = (render_file views idv (rendered, Mem.printed s)
              (Mem.look_file (Mem.heap s) f)).2) s.
Proof.
  intros Hcr Hk Hr. unfold Mem.render_file. rewrite render_file_eq.
  pose proof (lookup_lt_Some _ _ _ Hr) as Hlt.
  apply wp_bind, wp_get_path. apply wp_bind, wp_read_strs.
  rewrite (strs_at_eq _ _ _ Hr).
  set (x := Mem.look_file (Mem.heap s) f).
  destruct (Py.mem (Py.basename (path_of x)) rendered) eqn:Em; [by apply wp_ret|].
  destruct (default [] (Od.get idv (path_of x))) as [|t ts]; [by apply wp_ret|].
  apply wp_bind, wp_alloc. apply wp_bind, wp_alloc. apply wp_bind.
  cbn [Mem.heap Mem.printed].
  set (s2 := Mem.mkState _ _).
  assert (Hk2 : Mem.keeps hp (Mem.heap s2)) by (by do 2 apply keeps_app).
  assert (Hlen2 : S (length (Mem.heap s)) < length (Mem.heap s2)).
  { unfold s2. simpl. rewrite !length_app. simpl. lia. }
  assert (Hr2 : Mem.heap s2 !! cr = Some (Mem.OStrs rendered)).
  { unfold s2. simpl. by do 2 apply lookup_app_l_Some. }
  assert (Hp2 : Mem.printed s2 = Mem.printed s) by done.
  rewrite length_app. simpl (length [_]).
  clearbody s2.
  eapply wp_mono.
  { apply (wp_silent (length (Mem.heap s)) _ (fun _ => True)); [| |done|lia|lia].
    - frame_go; apply frame_append_str; lia.
    - quiet_go. }
  intros u s3 (_ & Hk3 & Hp3 & Hlen3 & Hsame). cbv beta.
  apply wp_bind, wp_for_each_print. apply wp_add_str.
  cbn [Mem.heap Mem.printed].
  assert (Hr3 : Mem.heap s3 !! cr = Some (Mem.OStrs rendered)) by (by rewrite Hsame).
  rewrite (strs_at_eq _ _ rendered) by done.
  fold x. rewrite Em. split; [|split].
  - apply keeps_upd; [|done]. done.
  - apply upd_lookup_eq. simpl. lia.
  - simpl. by rewrite Hp3, Hp2.
Qed.

Lemma file_chain_loop (views : list FileRecord) (idv : Od.odict (list string))
    (cr : Mem.loc) :
  length hp ≤ cr →
  ∀ fl fs s rendered,
    Mem.reads hp fl fs → Mem.keeps hp (Mem.heap s) →
    Mem.heap s !! cr = Some (Mem.OStrs rendered) →
    Mem.wp (Mem.for_each fl (Mem.render_file views idv cr))
      (fun _ s' =>
         Mem.keeps hp (Mem.heap s')
         ∧ Mem.heap s' !! cr
           = Some (Mem.OStrs (foldl (render_file views idv)
                                (rendered, Mem.printed s) fs).1)
         ∧ Mem.printed s'
           = (foldl (render_file views idv) (rendered, Mem.printed s) fs).2) s.
Proof.
  intros Hcr. induction fl as [|f fl IH]; intros fs s rendered Hr Hk Hc.
  - apply reads_nil_inv in Hr as ->. by apply wp_for_each_nil.
  - apply reads_cons_inv in Hr as (x & fs' & -> & Hx & Hr).
    apply wp_for_each_cons. eapply wp_mono; [by apply file_chain_step|].
    intros u s1 (Hk1 & Hc1 & Hp1). rewrite (Hx _ Hk) in Hc1, Hp1.
    eapply wp_mono; [by apply (IH fs')|].
    intros u' s2 (Hk2 & Hc2 & Hp2). rewrite foldl_cons.
    rewrite Hp1 in Hc2, Hp2. rewrite <- surjective_pairing in Hc2, Hp2. done.
Qed.

Lemma standalone_loop (rs : list string) :
  ∀ fl fs s count,
    Mem.reads hp fl fs → Mem.keeps hp (Mem.heap s) →
    Mem.wp (Mem.fold_m (Mem.standalone_step rs) count fl)
      (fun count' s' =>
         count' = count
                  + length (filter (fun f =>
                                      negb (Py.mem (Py.basename (path_of f)) rs)
                                      && negb (bool_decide (functions_of f = [])))
                                   fs)
         ∧ Mem.keeps hp (Mem.heap s')
         ∧ Mem.printed s' = Mem.printed s) s.
Proof.
  induction fl as [|f fl IH]; intros fs s count Hr Hk.
  - apply reads_nil_inv in Hr as ->. apply wp_fold_m_nil. simpl.
    by rewrite Nat.add_0_r.
  - apply reads_cons_inv in Hr as (x & fs' & -> & Hx & Hr).
    apply wp_fold_m_cons. unfold Mem.standalone_step at 1.
    apply wp_bind, wp_get_path. apply wp_bind, wp_get_functions.
    intros l s1 Hp1 Hh1 Hl. apply wp_bind, wp_read_strs, wp_ret.
    rewrite Hl, (Hx _ Hk).
    assert (Hk1 : Mem.keeps hp (Mem.heap s1)).
    { destruct Hh1 as [->| ->]; [done|by apply keeps_app]. }
    eapply wp_mono; [by apply (IH fs')|].
    intros c s2 (-> & Hk2 & Hp2). split; [|by rewrite Hp2].
    rewrite filter_cons.
    destruct (negb (Py.mem (Py.basename (path_of x)) rs)
              && negb (bool_decide (functions_of x = []))); simpl; lia.
Qed.

Lemma reads_system (sd : Od.odict (list Mem.loc))
    (systems : Od.odict (list FileRecord)) (system : string) :
  (∀ h, Mem.keeps hp h → Mem.look_systems h sd = systems) →
  Mem.reads hp (default [] (Od.get sd system)) (default [] (Od.get systems system)).
Proof.
  intros H h Hh. rewrite <- (H h Hh), od_get_look_systems.
  by destruct (Od.get sd system).
Qed.

(** One system prints the lines of [render_system]. *)
Lemma render_system_agrees (views : list FileRecord) (idv : Od.odict (list string))
    (cid cs : Mem.loc) (sd : Od.odict (list Mem.loc))
    (systems : Od.odict (list FileRecord)) (system : string) (s : Mem.state) :
  Mem.keeps hp (Mem.heap s) →
  Mem.heap s !! cs = Some (Mem.OSystems sd) →
  Mem.heap s !! cid = Some (Mem.ODeps idv) →
  (∀ h, Mem.keeps hp h → Mem.look_systems h sd = systems) →
  Mem.wp (Mem.render_system views cid cs system)
    (fun _ s' =>
       Mem.printed s' = Mem.printed s ++ render_system views idv systems system) s.
Proof.
  intros Hk Hcs Hcid Hsd. pose proof (keeps_length _ Hk) as Hlen.
  pose proof (reads_system sd systems system Hsd) as Hr.
  unfold Mem.render_system, render_system.
  eapply wp_bind, wp_read_systems; [exact Hcs|].
  eapply wp_bind, wp_read_deps; [exact Hcid|].
  apply wp_bind, (wp_map_m_pure _ (Mem.look_file (Mem.heap s)));
    [intros x; apply view_file_run|].
  rewrite (Hr _ Hk).
  set (sys_files := default [] (Od.get systems system)) in *.
  set (sys_locs := default [] (Od.get sd system)) in *.
  destruct (existsb (has_content_file idv) sys_files); simpl negb; cbv iota;
    [|apply wp_ret; by rewrite app_nil_r].
  apply wp_bind, wp_print. apply wp_bind, wp_alloc. apply wp_bind.
  cbn [Mem.heap Mem.printed].
  eapply wp_mono.
  { apply (file_chain_loop views idv (length (Mem.heap s)) Hlen sys_locs sys_files
             _ []); [exact Hr|by apply keeps_app|apply lookup_new]. }
  cbn [Mem.printed]. rewrite render_file_out.
  destruct (foldl (render_file views idv) ([], []) sys_files) as [rendered chains].
  cbn [fst snd]. intros u s1 (Hk1 & Hc1 & Hp1).
  apply wp_bind, wp_read_strs. rewrite (strs_at_eq _ _ _ Hc1).
  apply wp_bind. eapply wp_mono; [by apply (standalone_loop rendered sys_locs sys_files)|].
  intros count s2 (-> & Hk2 & Hp2). cbv beta. rewrite Nat.add_0_l.
  apply wp_bind.
  destruct (0 <? _).
  - apply wp_print, wp_print. cbn [Mem.printed]. rewrite Hp2, Hp1.
    by rewrite <- !app_assoc.
  - apply wp_ret, wp_print. cbn [Mem.printed]. rewrite Hp2, Hp1.
    by rewrite <- !app_assoc.
Qed.

Lemma render_systems_agree (views : list FileRecord) (idv : Od.odict (list string))
    (cid cs : Mem.loc) (sd : Od.odict (list Mem.loc))
    (systems : Od.odict (list FileRecord)) :
  (∀ h, Mem.keeps hp h → Mem.look_systems h sd = systems) →
  ∀ names s,
    Mem.keeps hp (Mem.heap s) →
    Mem.heap s !! cs = Some (Mem.OSystems sd) →
    Mem.heap s !! cid = Some (Mem.ODeps idv) →
    Mem.wp (Mem.for_each names (Mem.render_system views cid cs))
      (fun _ s' =>
         Mem.printed s'
         = Mem.printed s ++ concat (map (render_system views idv systems) names)
         ∧ ∀ l, l < length (Mem.heap s) → Mem.heap s' !! l = Mem.heap s !! l) s.
Proof.
  intros Hsd. induction names as [|name names IH]; intros s Hk Hcs Hcid.
  - apply wp_for_each_nil. simpl. by rewrite app_nil_r.
  - apply wp_for_each_cons. eapply wp_mono.
    { apply wp_and; [by eapply (render_system_agrees views idv cid cs)|].
      apply (wp_frame (length (Mem.heap s)) _ (fun _ => True));
        [apply frame_render_system|done]. }
    intros u s1 (Hp1 & _ & Hlen1 & Hsame1). cbv beta.
    pose proof (lookup_lt_Some _ _ _ Hcs).
    pose proof (lookup_lt_Some _ _ _ Hcid).
    eapply wp_mono.
    { apply IH.
      - eapply keeps_below; [exact Hk|by apply keeps_length|exact Hsame1].
      - by rewrite Hsame1.
      - by rewrite Hsame1. }
    intros u' s2 (Hp2 & Hsame2). split.
    + rewrite Hp2, Hp1. simpl. by rewrite <- app_assoc.
    + intros l Hl. rewrite Hsame2 by lia. by apply Hsame1.
Qed.

(** *** [render] *)

Lemma keeps_lookup (h : list Mem.obj) (l : Mem.loc) (o : Mem.obj) :
  Mem.keeps hp h → hp !! l = Some o → h !! l = Some o.
Proof. intros H. apply H. Qed.

Lemma get_files_at (l : Mem.loc) (data : Data) (s : Mem.state) :
  Mem.data_at hp l data → Mem.keeps hp (Mem.heap s) →
  Mem.wp (Mem.get_files l)
    (fun lf s' =>
       (∃ fl, Mem.heap s' !! lf = Some (Mem.ORefs fl)
              ∧ Mem.reads hp fl (default [] (d_files data)))
       ∧ Mem.keeps hp (Mem.heap s')
       ∧ Mem.printed s' = Mem.printed s) s.
Proof.
  intros (lfiles & lext & Hl & Hf & _) Hk. unfold Mem.get_files.
  apply wp_bind, wp_read. rewrite (keeps_lookup _ _ _ Hk Hl).
  destruct lfiles as [lf|].
  - destruct Hf as (fl & Hlf & Hr). apply wp_ret. split; [|done].
    exists fl. split; [by apply Hk|done].
  - apply wp_alloc. rewrite Hf. split; [|split; [by apply keeps_app|done]].
    exists []. split; [apply lookup_new|]. by intros h Hh.
Qed.

Lemma get_external_deps_at (l : Mem.loc) (data : Data) (s : Mem.state) :
  Mem.data_at hp l data → Mem.keeps hp (Mem.heap s) →
  Mem.wp (Mem.get_external_deps l)
    (fun le s' =>
       (∃ ed, Mem.heap s' !! le = Some (Mem.OExt ed)
              ∧ Mem.reads_ext hp ed (default [] (d_external_deps data)))
       ∧ Mem.keeps hp (Mem.heap s')
       ∧ Mem.keeps (Mem.heap s) (Mem.heap s')
       ∧ Mem.printed s' = Mem.printed s) s.
Proof.
  intros (lfiles & lext & Hl & _ & He) Hk. unfold Mem.get_external_deps.
  apply wp_bind, wp_read. rewrite (keeps_lookup _ _ _ Hk Hl).
  assert (Hnew : d_external_deps data = None →
                 Mem.wp (Mem.alloc (Mem.OExt []))
                   (fun le s' =>
                      (∃ ed, Mem.heap s' !! le = Some (Mem.OExt ed)
                             ∧ Mem.reads_ext hp ed (default [] (d_external_deps data)))
                      ∧ Mem.keeps hp (Mem.heap s')
                      ∧ Mem.keeps (Mem.heap s) (Mem.heap s')
                      ∧ Mem.printed s' = Mem.printed s) s).
  { intros E. apply wp_alloc. rewrite E. split; [|split; [by apply keeps_app|]].
    - exists []. split; [apply lookup_new|]. by intros h Hh.
    - split; [|done]. intros i o Hi. by apply lookup_app_l_Some. }
  destruct lext as [le|]; [|by apply Hnew].
  destruct He as (ed & Hle & Hr). apply wp_ret.
  split; [|split; [done|split; [by intros i o|done]]].
  exists ed. split; [by apply Hk|done].
Qed.

Lemma render_nonempty (data : Data) (project_name : string) :
  default [] (d_files data) ≠ [] →
  render data project_name =
  let files := default [] (d_files data) in
  let internal_deps := find_internal_deps files in
  render_header (default [] (d_external_deps data)) project_name
  ++ concat (map (render_system files internal_deps (group_systems files))
               (Py.sorted String.leb (Od.keys (group_systems files))))
  ++ render_hubs (count_deps internal_deps)
  ++ render_summary files internal_deps.
Proof. intros H. unfold render. by destruct (default [] (d_files data)). Qed.

Lemma keys_look_systems (h : list Mem.obj) (d : Od.odict (list Mem.loc)) :
  Od.keys (Mem.look_systems h d) = Od.keys d.
Proof. unfold Od.keys, Mem.look_systems. rewrite map_map. by apply map_ext. Qed.

(** In a store that holds the input, [render] prints the lines of the
    function on values. *)
Lemma render_agrees_at (l : Mem.loc) (data : Data) (project_name : string)
    (s : Mem.state) :
  Mem.data_at hp l data → Mem.keeps hp (Mem.heap s) →
  Mem.wp (Mem.render l project_name)
    (fun _ s' => Mem.printed s' = Mem.printed s ++ render data project_name) s.
Proof.
  intros Hd Hk. unfold Mem.render.
  apply wp_bind. eapply wp_mono; [by apply (get_files_at l data)|].
  intros lf s1 ((fl & Hlf & Hr) & Hk1 & Hp1). cbv beta.
  apply wp_bind. eapply wp_mono; [by apply (get_external_deps_at l data)|].
  intros le s2 ((ed & Hle & Hre) & Hk2 & Hkeep2 & Hp2). cbv beta.
  apply Hkeep2 in Hlf.
  apply wp_bind, wp_read_refs.
  replace (Mem.heap s2 !! lf) with (Some (Mem.ORefs fl)) by (symmetry; exact Hlf).
  destruct fl as [|f fl']; cbv beta iota.
  { apply reads_nil_inv in Hr. apply wp_print. cbn [Mem.printed].
    unfold render. rewrite Hr. by rewrite Hp2, Hp1. }
  assert (Hne : default [] (d_files data) ≠ []).
  { pose proof Hr as Hr'. apply reads_cons_inv in Hr' as (x & fs' & E & _).
    by rewrite E. }
  rewrite (render_nonempty _ _ Hne). cbv zeta.
  set (files := default [] (d_files data)) in *.
  set (ext := default [] (d_external_deps data)) in *.
  set (fl := f :: fl') in *.
  set (idv := find_internal_deps files).
  pose proof (lookup_lt_Some _ _ _ Hlf) as Hlflt.
  pose proof (lookup_lt_Some _ _ _ Hle) as Hlelt.
  (* internal_names *)
  apply wp_bind, wp_alloc. apply wp_bind.
  eapply wp_mono.
  { apply (wp_silent (length (Mem.heap s2)) _ (fun _ => True));
      [| |by apply keeps_app|by apply keeps_length
       |cbn [Mem.heap]; rewrite length_app; simpl; lia].
    - unfold Mem.name_file. frame_go.
    - unfold Mem.name_file. quiet_go. }
  intros u s3 (_ & Hk3 & Hp3 & Hlen3 & Hsame3). cbv beta.
  cbn [Mem.heap Mem.printed] in Hp3, Hlen3, Hsame3.
  rewrite length_app in Hlen3. simpl in Hlen3.
  assert (Hlf3 : Mem.heap s3 !! lf = Some (Mem.ORefs fl)).
  { rewrite Hsame3 by done. by apply lookup_app_l_Some. }
  assert (Hle3 : Mem.heap s3 !! le = Some (Mem.OExt ed)).
  { rewrite Hsame3 by done. by apply lookup_app_l_Some. }
  (* internal_deps *)
  apply wp_bind. eapply wp_mono.
  { apply wp_and; [by apply (find_internal_deps_agrees lf fl files)|].
    apply (wp_silent (length (Mem.heap s3)) _ (fun _ => True));
      [apply frame_find_internal_deps|apply quiet_find_internal_deps|done
      |by apply keeps_length|done]. }
  intros cid s4 ((Hcid & Hge) & _ & Hk4 & Hp4 & Hlen4 & Hsame4). cbv beta.
  fold idv in Hcid.
  assert (Hle4 : Mem.heap s4 !! le = Some (Mem.OExt ed)).
  { rewrite Hsame4; [done|lia]. }
  pose proof (lookup_lt_Some _ _ _ Hcid) as Hcidlt.
  (* dep_counts *)
  apply wp_bind, wp_alloc. cbn [Mem.heap Mem.printed].
  eapply wp_bind, wp_read_deps; [by apply lookup_app_l_Some|].
  apply wp_bind. eapply wp_mono; [apply (counts_loop _ idv _ []); apply lookup_new|].
  intros u1 s5' ->. cbv beta.
  set (cc := length (Mem.heap s4)).
  set (s5 := Mem.upd _ cc _).
  assert (Hk5 : Mem.keeps hp (Mem.heap s5)).
  { apply keeps_upd; [by apply keeps_app|]. unfold cc. by apply keeps_length. }
  assert (Hcc5 : Mem.heap s5 !! cc = Some (Mem.OCounts (count_deps idv))).
  { apply upd_lookup_eq. cbn [Mem.heap]. rewrite length_app. simpl. unfold cc. lia. }
  assert (Hle5 : Mem.heap s5 !! le = Some (Mem.OExt ed)).
  { unfold s5. rewrite upd_lookup_ne by (unfold cc; lia).
    by apply lookup_app_l_Some. }
  assert (Hcid5 : Mem.heap s5 !! cid = Some (Mem.ODeps idv)).
  { unfold s5. rewrite upd_lookup_ne by (unfold cc; lia).
    by apply lookup_app_l_Some. }
  assert (Hp5 : Mem.printed s5 = Mem.printed s) by (simpl; congruence).
  assert (Hlen5 : cc < length (Mem.heap s5)).
  { by eapply lookup_lt_Some. }
  clearbody s5 cc.
  (* systems *)
  apply wp_bind, wp_alloc. apply wp_bind. cbn [Mem.heap Mem.printed].
  eapply wp_mono.
  { apply (systems_loop (length (Mem.heap s5)) (keeps_length _ Hk5) fl files _ []);
      [exact Hr|by apply keeps_app|apply lookup_new]. }
  intros u2 s6' (sd & -> & Hsd). cbv beta.
  assert (Hsd' : ∀ h, Mem.keeps hp h → Mem.look_systems h sd = group_systems files).
  { intros h Hh. by rewrite (Hsd h Hh). }
  set (cs := length (Mem.heap s5)).
  set (s6 := Mem.upd _ cs _).
  assert (Hk6 : Mem.keeps hp (Mem.heap s6)).
  { apply keeps_upd; [by apply keeps_app|]. unfold cs. by apply keeps_length. }
  assert (Hcs6 : Mem.heap s6 !! cs = Some (Mem.OSystems sd)).
  { apply upd_lookup_eq. cbn [Mem.heap]. rewrite length_app. simpl. unfold cs. lia. }
  assert (Hcc6 : Mem.heap s6 !! cc = Some (Mem.OCounts (count_deps idv))).
  { unfold s6. rewrite upd_lookup_ne by (unfold cs; lia).
    by apply lookup_app_l_Some. }
  assert (Hle6 : Mem.heap s6 !! le = Some (Mem.OExt ed)).
  { unfold s6. rewrite upd_lookup_ne
      by (unfold cs; apply lookup_lt_Some in Hle5; lia).
    by apply lookup_app_l_Some. }
  assert (Hcid6 : Mem.heap s6 !! cid = Some (Mem.ODeps idv)).
  { unfold s6. rewrite upd_lookup_ne
      by (unfold cs; apply lookup_lt_Some in Hcid5; lia).
    by apply lookup_app_l_Some. }
  assert (Hp6 : Mem.printed s6 = Mem.printed s) by done.
  pose proof (lookup_lt_Some _ _ _ Hcs6) as Hcslt.
  pose proof (lookup_lt_Some _ _ _ Hcc6) as Hcclt.
  pose proof (lookup_lt_Some _ _ _ Hle6) as Hlelt6.
  pose proof (lookup_lt_Some _ _ _ Hcid6) as Hcidlt6.
  clearbody s6 cs.
  (* the header *)
  apply wp_bind. eapply wp_mono.
  { apply wp_and; [by eapply (render_header_agrees le ed ext)|].
    apply (wp_frame (length (Mem.heap s6)) _ (fun _ => True));
      [apply frame_render_header|done]. }
  intros u3 s7 (Hp7 & _ & Hlen7 & Hsame7). cbv beta.
  assert (Hk7 : Mem.keeps hp (Mem.heap s7)).
  { eapply keeps_below; [exact Hk6|by apply keeps_length|exact Hsame7]. }
  (* the systems *)
  eapply wp_bind, wp_read_systems; [by rewrite Hsame7|].
  apply wp_bind, (wp_map_m_pure _ (Mem.look_file (Mem.heap s7)));
    [intros x; apply view_file_run|].
  rewrite (Hr _ Hk7).
  apply wp_bind. eapply wp_mono.
  { apply (render_systems_agree files idv cid cs sd (group_systems files) Hsd');
      [done|by rewrite Hsame7..]. }
  intros u4 s8 (Hp8 & Hsame8). cbv beta.
  (* hubs and summary *)
  eapply wp_bind, wp_read_counts; [by rewrite Hsame8, Hsame7 by lia|].
  apply wp_bind, wp_for_each_print, wp_for_each_print. cbn [Mem.printed].
  rewrite Hp8, Hp7, Hp6.
  rewrite <- (keys_look_systems hp sd), (Hsd' hp keeps_refl).
  by rewrite <- !app_assoc.
Qed.

End kept_input.

(** *** A placed input *)

Lemma place_data_at (h0 : list Mem.obj) (data : Data) :
  Mem.data_at (Mem.place h0 data).1 (Mem.place h0 data).2 data.
Proof.
  unfold Mem.place. destruct data as [files ext]. simpl.
  pose proof (fun h => look_files_objs h (default [] files) (length h0)) as Hfiles.
  destruct (Mem.files_objs (length h0) (default [] files)) as [fobjs flocs].
  simpl in Hfiles.
  destruct files as [files|]; simpl in *.
  - pose proof (fun h => look_ext_objs h (default [] ext)
                  (length ((h0 ++ fobjs) ++ [Mem.ORefs flocs]))) as Hext.
    destruct (Mem.ext_objs _ (default [] ext)) as [eobjs ed]. simpl in Hext.
    destruct ext as [ext|]; simpl in *.
    + set (hp := _ ++ [Mem.OData _ _]).
      assert (Hall : ∀ h, Mem.keeps hp h →
                h !! length ((((h0 ++ fobjs) ++ [Mem.ORefs flocs]) ++ eobjs)
                             ++ [Mem.OExt ed])
                = Some (Mem.OData (Some (length (h0 ++ fobjs)))
                          (Some (length (((h0 ++ fobjs) ++ [Mem.ORefs flocs])
                                         ++ eobjs))))
                ∧ h !! length (h0 ++ fobjs) = Some (Mem.ORefs flocs)
                ∧ Mem.holds_at h (length h0) fobjs
                ∧ h !! length (((h0 ++ fobjs) ++ [Mem.ORefs flocs]) ++ eobjs)
                  = Some (Mem.OExt ed)
                ∧ Mem.holds_at h (length ((h0 ++ fobjs) ++ [Mem.ORefs flocs])) eobjs).
      { intros h. unfold hp. rewrite keeps_holds_at, !holds_at_app, !holds_at_cons.
        intros (((((_ & Hf) & Hl & _) & He) & Hx & _) & Hd & _).
        change (0 + ?n) with n in *. done. }
      destruct (Hall hp (keeps_refl hp)) as (Hd & Hl & _ & Hx & _).
      eexists _, _. split; [exact Hd|]. split.
      * exists flocs. split; [exact Hl|]. intros h Hh. apply Hfiles, (Hall h Hh).
      * exists ed. split; [exact Hx|]. intros h Hh. apply Hext, (Hall h Hh).
    + set (hp := _ ++ [Mem.OData _ _]).
      assert (Hall : ∀ h, Mem.keeps hp h →
                h !! length (((h0 ++ fobjs) ++ [Mem.ORefs flocs]) ++ eobjs)
                = Some (Mem.OData (Some (length (h0 ++ fobjs))) None)
                ∧ h !! length (h0 ++ fobjs) = Some (Mem.ORefs flocs)
                ∧ Mem.holds_at h (length h0) fobjs).
      { intros h. unfold hp. rewrite keeps_holds_at, !holds_at_app, !holds_at_cons.
        intros ((((_ & Hf) & Hl & _) & He) & Hd & _).
        change (0 + ?n) with n in *. done. }
      destruct (Hall hp (keeps_refl hp)) as (Hd & Hl & _).
      eexists _, _. split; [exact Hd|]. split; [|done].
      exists flocs. split; [exact Hl|]. intros h Hh. apply Hfiles, (Hall h Hh).
  - pose proof (fun h => look_ext_objs h (default [] ext) (length (h0 ++ fobjs)))
      as Hext.
    destruct (Mem.ext_objs _ (default [] ext)) as [eobjs ed]. simpl in Hext.
    destruct ext as [ext|]; simpl in *.
    + set (hp := _ ++ [Mem.OData _ _]).
      assert (Hall : ∀ h, Mem.keeps hp h →
                h !! length (((h0 ++ fobjs) ++ eobjs) ++ [Mem.OExt ed])
                = Some (Mem.OData None (Some (length ((h0 ++ fobjs) ++ eobjs))))
                ∧ h !! length ((h0 ++ fobjs) ++ eobjs) = Some (Mem.OExt ed)
                ∧ Mem.holds_at h (length (h0 ++ fobjs)) eobjs).
      { intros h. unfold hp. rewrite keeps_holds_at, !holds_at_app, !holds_at_cons.
        intros ((((_ & Hf) & He) & Hx & _) & Hd & _).
        change (0 + ?n) with n in *. done. }
      destruct (Hall hp (keeps_refl hp)) as (Hd & Hx & _).
      eexists _, _. split; [exact Hd|]. split; [done|].
      exists ed. split; [exact Hx|]. intros h Hh. apply Hext, (Hall h Hh).
    + set (hp := _ ++ [Mem.OData _ _]).
      assert (Hd : hp !! length ((h0 ++ fobjs) ++ eobjs) = Some (Mem.OData None None)).
      { apply lookup_new. }
      eexists _, _. split; [exact Hd|]. done.
Qed.

(** X29: what [render] prints depends on the contents of its input only.
    Run on a store in which the input's dictionaries and lists are objects
    next to any other objects [h0], it prints the lines of [render] on the
    input as a value: the program on the store and the function on values
    are one program. *)
Theorem render_agrees (h0 : list Mem.obj) (data : Data) (project_name : string) :
  (Mem.run_render h0 data project_name).1 = render data project_name.
Proof.
  unfold Mem.run_render.
  pose proof (place_data_at h0 data) as Hd.
  destruct (Mem.place h0 data) as [h l]. simpl in Hd.
  pose proof (render_agrees_at h l data project_name (Mem.mkState h []) Hd
                (keeps_refl h)) as H.
  unfold Mem.wp in H. by destruct (Mem.render l project_name _).
Qed.

(** * Further properties of the code *)

(** ** [truncate_with_ellipsis] and [draw_box] *)

Lemma string_length_take (n : nat) (s : string) :
  String.length (Py.take n s) = Nat.min n (String.length s).
Proof.
  revert s. induction n as [|n IH]; intros [|c s]; simpl; try done.
  by rewrite IH.
Qed.

Lemma take_all (n : nat) (s : string) : String.length s ≤ n → Py.take n s = s.
Proof.
  revert s. induction n as [|n IH]; intros [|c s] H; simpl in *; try done; [lia|].
  rewrite IH; [done|lia].
Qed.

Lemma length_repeat_space (n : nat) : String.length (Py.repeat " " n) = n.
Proof.
  induction n as [|n IH]; [done|].
  change (Py.repeat " " (S n)) with (" " +:+ Py.repeat " " n).
  rewrite string_length_app, IH. done.
Qed.

Lemma length_ljust (w : nat) (s : string) :
  String.length (Py.ljust w s) = Nat.max w (String.length s).
Proof. unfold Py.ljust. rewrite string_length_app, length_repeat_space. lia. Qed.

Lemma truncate_cut (text : string) (max_len : Z) :
  (2 ≤ max_len)%Z → (max_len < Py.len text)%Z →
  truncate_with_ellipsis text max_len = Py.take (Z.to_nat (max_len - 2)) text +:+ ".."
  ∧ Py.len (truncate_with_ellipsis text max_len) = max_len.
Proof.
  intros Hmax Hgt. unfold truncate_with_ellipsis, Py.slice_to.
  rewrite (proj2 (Z.leb_gt _ _)) by done.
  rewrite (proj2 (Z.ltb_ge _ _)) by lia. split; [done|].
  unfold Py.len in *. rewrite string_length_app, string_length_take. simpl. lia.
Qed.

Lemma truncate_length_le (text : string) (max_len : Z) :
  (2 ≤ max_len)%Z → (Py.len (truncate_with_ellipsis text max_len) ≤ max_len)%Z.
Proof.
  intros Hmax. destruct (Z.leb_spec (Py.len text) max_len) as [Hle|Hgt].
  - unfold truncate_with_ellipsis. by rewrite (proj2 (Z.leb_le _ _)) by done.
  - destruct (truncate_cut text max_len Hmax Hgt) as [_ ->]. lia.
Qed.

(** X1: with [max_len >= 2] the result of [truncate_with_ellipsis] is never
    longer than [max_len]: a text that fits comes back unchanged, and a
    longer one is cut to its first [max_len - 2] characters followed by two
    dots, which makes exactly [max_len] characters. *)
Theorem truncate_with_ellipsis_fits (text : string) (max_len : Z) :
  (2 ≤ max_len)%Z →
  (Py.len (truncate_with_ellipsis text max_len) ≤ max_len)%Z
  ∧ ((Py.len text ≤ max_len)%Z → truncate_with_ellipsis text max_len = text)
  ∧ ((max_len < Py.len text)%Z →
     truncate_with_ellipsis text max_len
     = Py.take (Z.to_nat (max_len - 2)) text +:+ ".."
     ∧ Py.len (truncate_with_ellipsis text max_len) = max_len).
Proof.
  intros Hmax. split; [by apply truncate_length_le|]. split.
  - intros Hle. unfold truncate_with_ellipsis. by rewrite (proj2 (Z.leb_le _ _)) by done.
  - by apply truncate_cut.
Qed.

Lemma truncate_with_ellipsis_fits_witness :
  (2 ≤ 5)%Z
  ∧ (Py.len (truncate_with_ellipsis "depgraph.py" 5) ≤ 5)%Z
  ∧ ((Py.len "depgraph.py" ≤ 5)%Z → truncate_with_ellipsis "depgraph.py" 5 = "depgraph.py")
  ∧ ((5 < Py.len "depgraph.py")%Z →
     truncate_with_ellipsis "depgraph.py" 5 = Py.take (Z.to_nat (5 - 2)) "depgraph.py" +:+ ".."
     ∧ Py.len (truncate_with_ellipsis "depgraph.py" 5) = 5%Z).
Proof. split; [lia|]. apply (truncate_with_ellipsis_fits "depgraph.py" 5). lia. Defined.

(** X2: with [max_len < 2] a text that does not fit is not shortened to
    [max_len]: the slice index [max_len - 2] is zero or counts from the end,
    the two dots are added all the same, and the result is longer than
    [max_len]. *)
Theorem truncate_with_ellipsis_below_two (text : string) (max_len : Z) :
  (max_len < 2)%Z → (max_len < Py.len text)%Z →
  (max_len < Py.len (truncate_with_ellipsis text max_len))%Z.
Proof.
  intros Hmax Hlen. unfold truncate_with_ellipsis.
  rewrite (proj2 (Z.leb_gt _ _)) by done.
  unfold Py.len. rewrite string_length_app. simpl. lia.
Qed.

Lemma truncate_with_ellipsis_below_two_witness :
  (1 < 2)%Z ∧ (1 < Py.len "ab")%Z
  ∧ (1 < Py.len (truncate_with_ellipsis "ab" 1))%Z.
Proof.
  split; [lia|]. split; [by vm_compute|].
  apply (truncate_with_ellipsis_below_two "ab" 1); [lia|by vm_compute].
Defined.

(** The rows of [draw_box], one per content line. *)
Lemma draw_box_map (lines : list string) (width : Z) :
  draw_box lines width
  = ["┌" +:+ Py.repeat_z "─" (width - 2) +:+ "┐"]
    ++ map (fun line =>
              "│ " +:+ Py.ljust (Z.to_nat (width - 4)) (Py.slice_to (width - 4) line)
              +:+ " │") lines
    ++ ["└" +:+ Py.repeat_z "─" (width - 2) +:+ "┘"].
Proof.
  unfold draw_box.
  rewrite (foldl_append_map
             (fun line =>
                "│ " +:+ Py.ljust (Z.to_nat (width - 4)) (Py.slice_to (width - 4) line)
                +:+ " │")).
  by rewrite <- app_assoc.
Qed.

Lemma row_text_eq (inner : Z) (line : string) :
  (0 ≤ inner)%Z →
  Py.ljust (Z.to_nat inner) (Py.slice_to inner line) = row_text (Z.to_nat inner) line.
Proof.
  intros H. unfold Py.slice_to, row_text, Py.ljust.
  rewrite (proj2 (Z.ltb_ge _ _)) by done.
  destruct (Nat.leb_spec (String.length line) (Z.to_nat inner)) as [Hle|Hgt].
  - by rewrite take_all.
  - rewrite string_length_take.
    replace (Z.to_nat inner - Nat.min (Z.to_nat inner) (String.length line)) with 0 by lia.
    simpl. apply string_app_nil_r.
Qed.

Lemma length_row_text (inner : nat) (line : string) :
  String.length (row_text inner line) = inner.
Proof.
  unfold row_text. destruct (Nat.leb_spec (String.length line) inner).
  - rewrite string_length_app, length_repeat_space. lia.
  - rewrite string_length_take. lia.
Qed.

Lemma draw_box_row_text (lines : list string) (width : Z) :
  (4 ≤ width)%Z →
  draw_box lines width
  = ["┌" +:+ Py.repeat_z "─" (width - 2) +:+ "┐"]
    ++ map (fun line => "│ " +:+ row_text (Z.to_nat (width - 4)) line +:+ " │") lines
    ++ ["└" +:+ Py.repeat_z "─" (width - 2) +:+ "┘"].
Proof.
  intros Hw. rewrite draw_box_map. f_equal. f_equal. apply map_ext. intros line.
  by rewrite row_text_eq by lia.
Qed.

(** X3: for [width >= 4], [draw_box] returns the top border, one row per
    content line in order, and the bottom border; the text of every row is
    exactly [width - 4] characters wide: a line that fits is padded with
    spaces on the right, a longer line is cut off after [width - 4]
    characters. *)
Theorem draw_box_rows (lines : list string) (width : Z) :
  (4 ≤ width)%Z →
  let inner := Z.to_nat (width - 4) in
  draw_box lines width
  = ["┌" +:+ Py.repeat_z "─" (width - 2) +:+ "┐"]
    ++ map (fun line => "│ " +:+ row_text inner line +:+ " │") lines
    ++ ["└" +:+ Py.repeat_z "─" (width - 2) +:+ "┘"]
  ∧ Forall (fun line => String.length (row_text inner line) = inner) lines
  ∧ length (draw_box lines width) = length lines + 2.
Proof.
  intros Hw inner. rewrite draw_box_row_text by done. split; [done|]. split.
  - apply Forall_forall. intros line _. apply length_row_text.
  - rewrite !length_app, length_map. simpl. lia.
Qed.

Lemma draw_box_rows_witness :
  (4 ≤ 8)%Z
  ∧ draw_box ["ab"; "abcdefgh"] 8
    = ["┌" +:+ Py.repeat_z "─" (8 - 2) +:+ "┐"]
      ++ map (fun line => "│ " +:+ row_text (Z.to_nat (8 - 4)) line +:+ " │")
           ["ab"; "abcdefgh"]
      ++ ["└" +:+ Py.repeat_z "─" (8 - 2) +:+ "┘"]
  ∧ Forall (fun line => String.length (row_text (Z.to_nat (8 - 4)) line)
                        = Z.to_nat (8 - 4)) ["ab"; "abcdefgh"]
  ∧ length (draw_box ["ab"; "abcdefgh"] 8) = length ["ab"; "abcdefgh"] + 2.
Proof. split; [lia|]. apply (draw_box_rows ["ab"; "abcdefgh"] 8). lia. Defined.

(** X4: for [width < 4] the inner width is negative: no row is padded, and
    every row shows its line without the last [4 - width] characters. *)
Theorem draw_box_narrow (lines : list string) (width : Z) :
  (width < 4)%Z →
  draw_box lines width
  = ["┌" +:+ Py.repeat_z "─" (width - 2) +:+ "┐"]
    ++ map (fun line =>
              "│ " +:+ Py.take (String.length line - Z.to_nat (4 - width)) line
              +:+ " │") lines
    ++ ["└" +:+ Py.repeat_z "─" (width - 2) +:+ "┘"].
Proof.
  intros Hw. rewrite draw_box_map. f_equal. f_equal. apply map_ext. intros line.
  unfold Py.slice_to, Py.ljust. rewrite (proj2 (Z.ltb_lt _ _)) by lia.
  replace (Z.to_nat (width - 4)) with 0 by lia. simpl.
  rewrite string_app_nil_r. by replace (- (width - 4))%Z with (4 - width)%Z by lia.
Qed.

Lemma draw_box_narrow_witness :
  (3 < 4)%Z
  ∧ draw_box ["abc"] 3
    = ["┌" +:+ Py.repeat_z "─" (3 - 2) +:+ "┐"]
      ++ map (fun line =>
                "│ " +:+ Py.take (String.length line - Z.to_nat (4 - 3)) line
                +:+ " │") ["abc"]
      ++ ["└" +:+ Py.repeat_z "─" (3 - 2) +:+ "┘"].
Proof. split; [lia|]. apply (draw_box_narrow ["abc"] 3). lia. Defined.

(** X5: the two helpers compose: for [width >= 6] the first content line of
    [create_box_lines], the file name after [truncate_with_ellipsis], fits
    the box, so [draw_box] shows all of it, padded and never cut. *)
Theorem draw_box_keeps_title (path : string) (functions external : list string)
    (width : Z) :
  (6 ≤ width)%Z →
  let title := truncate_with_ellipsis (Py.basename path) (width - 4) in
  let content := create_box_lines path functions external width in
  content !! 0 = Some title
  ∧ draw_box content width !! 1
    = Some ("│ " +:+ title
            +:+ Py.repeat " " (Z.to_nat (width - 4) - String.length title) +:+ " │").
Proof.
  intros Hw title content. unfold content.
  rewrite create_box_lines_parts. split; [done|].
  rewrite draw_box_row_text by lia.
  simpl. f_equal. f_equal. unfold row_text. fold title.
  pose proof (truncate_length_le (Py.basename path) (width - 4) ltac:(lia)) as Hfit.
  fold title in Hfit. unfold Py.len in Hfit.
  rewrite (proj2 (Nat.leb_le _ _)) by lia.
  apply string_app_assoc.
Qed.

Lemma draw_box_keeps_title_witness :
  (6 ≤ 10)%Z
  ∧ create_box_lines "src/renderer/depgraph.py" ["render"] [] 10 !! 0
    = Some (truncate_with_ellipsis (Py.basename "src/renderer/depgraph.py") (10 - 4))
  ∧ draw_box (create_box_lines "src/renderer/depgraph.py" ["render"] [] 10) 10 !! 1
    = Some ("│ " +:+ truncate_with_ellipsis (Py.basename "src/renderer/depgraph.py") (10 - 4)
            +:+ Py.repeat " "
                  (Z.to_nat (10 - 4)
                   - String.length
                       (truncate_with_ellipsis (Py.basename "src/renderer/depgraph.py")
                          (10 - 4)))
            +:+ " │").
Proof.
  split; [lia|].
  apply (draw_box_keeps_title "src/renderer/depgraph.py" ["render"] [] 10). lia.
Defined.

(** ** [get_system_name] *)

Lemma chr_title_mark (x c : ascii) :
  x ∈ name_marks →
  bool_decide (Py.chr_lower c = x) = bool_decide (c = x)
  ∧ bool_decide (Py.chr_upper c = x) = bool_decide (c = x).
Proof.
  intros Hx. unfold name_marks in Hx.
  repeat (apply elem_of_cons in Hx as [->|Hx]); try by apply elem_of_nil in Hx.
  all: by destruct c as [[] [] [] [] [] [] [] []].
Qed.

Lemma contains_title_go (x : ascii) (s : string) (prev : bool) :
  x ∈ name_marks → Py.contains x (Py.title_go prev s) = Py.contains x s.
Proof.
  intros Hx. revert prev. induction s as [|a s IH]; intros prev; simpl; [done|].
  rewrite IH. destruct (chr_title_mark x a Hx) as [Hl Hu].
  destruct prev; by rewrite ?Hl, ?Hu.
Qed.

Lemma contains_title (x : ascii) (s : string) :
  x ∈ name_marks → Py.contains x (Py.title s) = Py.contains x s.
Proof. apply contains_title_go. Qed.

Lemma contains_lower_mark (x : ascii) (s : string) :
  x ∈ name_marks → Py.contains x (Py.lower s) = Py.contains x s.
Proof.
  intros Hx. induction s as [|a s IH]; simpl; [done|].
  destruct (chr_title_mark x a Hx) as [Hl _]. by rewrite Hl, IH.
Qed.

Lemma contains_replace_gone (a b : ascii) (s : string) :
  a ≠ b → Py.contains a (Py.replace a b s) = false.
Proof.
  intros Hab. induction s as [|c s IH]; simpl; [done|]. rewrite IH.
  destruct (decide (c = a)) as [->|Hc].
  - rewrite (bool_decide_true (a = a)) by done. by rewrite bool_decide_false by congruence.
  - rewrite (bool_decide_false (c = a)) by done. by rewrite bool_decide_false.
Qed.

Lemma contains_replace_other (x a b : ascii) (s : string) :
  x ≠ b → Py.contains x s = false → Py.contains x (Py.replace a b s) = false.
Proof.
  intros Hxb. induction s as [|c s IH]; simpl; [done|].
  intros H. apply orb_false_iff in H as [Hc Hs]. rewrite (IH Hs).
  destruct (bool_decide (c = a)); [by rewrite bool_decide_false by congruence|].
  by rewrite Hc.
Qed.

Lemma replace_idem (a b : ascii) (s : string) :
  a ≠ b → Py.replace a b (Py.replace a b s) = Py.replace a b s.
Proof.
  intros Hab. induction s as [|c s IH]; simpl; [done|]. rewrite IH. f_equal.
  destruct (decide (c = a)) as [->|Hc].
  - rewrite (bool_decide_true (a = a)) by done. by rewrite bool_decide_false by congruence.
  - rewrite (bool_decide_false (c = a)) by done. by rewrite bool_decide_false.
Qed.

(** No part of a split contains the separator, and a character that is
    not in the string is in no part. *)
Lemma split_parts_without (x sep : ascii) (s : string) :
  x = sep ∨ Py.contains x s = false →
  Forall (fun p => Py.contains x p = false) (Py.split sep s).
Proof.
  induction s as [|a s IH]; intros Hx.
  - by repeat constructor.
  - assert (Hs : x = sep ∨ Py.contains x s = false).
    { destruct Hx as [?|H]; [by left|right]. simpl in H.
      by apply orb_false_iff in H as [_ ?]. }
    specialize (IH Hs). simpl.
    destruct (decide (a = sep)) as [->|Ha].
    { rewrite bool_decide_true by done. by constructor. }
    rewrite bool_decide_false by done.
    assert (Hax : bool_decide (a = x) = false).
    { destruct Hx as [->|H]; [by rewrite bool_decide_false|]. simpl in H.
      by apply orb_false_iff in H as [? _]. }
    destruct (Py.split sep s) as [|h t]; simpl.
    + constructor; [|done]. simpl. by rewrite Hax.
    + apply Forall_cons in IH as [Hh Ht]. constructor; [|done]. simpl.
      by rewrite Hh, Hax.
Qed.

Lemma path_parts_clean (x : ascii) (path : string) :
  x = "/"%char ∨ x = "\"%char →
  Forall (fun p => Py.contains x p = false) (path_parts path).
Proof.
  intros Hx. unfold path_parts. apply split_parts_without.
  destruct Hx as [->| ->]; [by left|right]. by apply contains_replace_gone.
Qed.

Lemma skip_parts_clean (x : ascii) (p : string) :
  x ∈ name_marks → Py.mem (Py.lower p) skip_parts = true → Py.contains x p = false.
Proof.
  intros Hx Hp. rewrite <- (contains_lower_mark x p Hx).
  unfold Py.mem in Hp. apply bool_decide_eq_true in Hp.
  unfold skip_parts, name_marks in *.
  repeat (apply elem_of_cons in Hp as [->|Hp]); try by apply elem_of_nil in Hp.
  all: repeat (apply elem_of_cons in Hx as [->|Hx]); try by apply elem_of_nil in Hx.
  all: reflexivity.
Qed.

Lemma last_item_elem (l : list string) : l ≠ [] → Py.last_item l ∈ l.
Proof.
  unfold Py.last_item. induction l as [|x l IH]; [done|]. intros _.
  destruct l as [|y l]; [left|]. right. by apply IH.
Qed.

(** X6: whatever the directory path, the system name contains no slash, no
    backslash, no underscore and no hyphen: it is one path segment, with
    underscores and hyphens turned into spaces. *)
Theorem get_system_name_clean (dir_path : string) (x : ascii) :
  x ∈ name_marks → Py.contains x (get_system_name dir_path) = false.
Proof.
  intros Hx. unfold get_system_name.
  destruct (filter _ (path_parts dir_path)) as [|m rest] eqn:Hm.
  - destruct (path_parts dir_path) as [|p parts] eqn:Hp; [|rewrite <- Hp in *].
    { unfold name_marks in Hx.
      repeat (apply elem_of_cons in Hx as [->|Hx]); try by apply elem_of_nil in Hx.
      all: reflexivity. }
    rewrite contains_title by done. apply skip_parts_clean; [done|].
    assert (Hin : Py.last_item (path_parts dir_path) ∈ path_parts dir_path).
    { apply last_item_elem. by rewrite Hp. }
    destruct (Py.mem _ skip_parts) eqn:E; [done|].
    assert (Py.last_item (path_parts dir_path)
            ∈ filter (fun p => negb (Py.mem (Py.lower p) skip_parts))
                (path_parts dir_path)) as Hf.
    { apply list_elem_of_filter. split; [by rewrite E|done]. }
    rewrite Hm in Hf. by apply elem_of_nil in Hf.
  - assert (Hin : m ∈ path_parts dir_path).
    { assert (m ∈ filter (fun p => negb (Py.mem (Py.lower p) skip_parts))
                  (path_parts dir_path)) as Hf by (rewrite Hm; left).
      by apply list_elem_of_filter in Hf as [_ ?]. }
    unfold name_marks in Hx.
    repeat (apply elem_of_cons in Hx as [->|Hx]); try by apply elem_of_nil in Hx.
    + apply contains_replace_other; [done|]. apply contains_replace_other; [done|].
      rewrite contains_title by (unfold name_marks; set_solver).
      pose proof (path_parts_clean "/" dir_path (or_introl eq_refl)) as H.
      rewrite Forall_forall in H. by apply H.
    + apply contains_replace_other; [done|]. apply contains_replace_other; [done|].
      rewrite contains_title by (unfold name_marks; set_solver).
      pose proof (path_parts_clean "\" dir_path (or_intror eq_refl)) as H.
      rewrite Forall_forall in H. by apply H.
    + apply contains_replace_other; [done|]. by apply contains_replace_gone.
    + by apply contains_replace_gone.
Qed.

Lemma get_system_name_clean_witness :
  "_"%char ∈ name_marks
  ∧ Py.contains "_" (get_system_name "src/my_render-core/util") = false.
Proof.
  assert (H : "_"%char ∈ name_marks) by (apply (bool_decide_unpack _); vm_compute; exact I).
  split; [exact H|]. exact (get_system_name_clean "src/my_render-core/util" "_" H).
Defined.

(** X7: a path written with backslashes names the same system as the path
    written with slashes. *)
Theorem get_system_name_backslash (dir_path : string) :
  get_system_name (Py.replace "\" "/" dir_path) = get_system_name dir_path.
Proof. unfold get_system_name, path_parts. by rewrite replace_idem. Qed.

(** ** Dictionaries filled in a loop: keys and groups *)

Section od_keys.
Context {V : Type}.
Implicit Types (d : Od.odict V) (k : string) (v : V).

Lemma od_keys_get d k : k ∈ Od.keys d ↔ is_Some (Od.get d k).
Proof.
  unfold Od.keys. induction d as [|[k0 v0] d IH]; simpl.
  - split; [intros H; by apply elem_of_nil in H|intros [? ?]; done].
  - rewrite elem_of_cons, IH. case_bool_decide as Hk.
    + split; [by eauto|]. intros _. by left.
    + split; [intros [?|?]; [congruence|done]|by right].
Qed.

Lemma od_keys_set d k v :
  Od.keys (Od.set d k v) = if Od.has d k then Od.keys d else Od.keys d ++ [k].
Proof.
  unfold Od.keys, Od.has. induction d as [|[k0 v0] d IH]; simpl; [done|].
  destruct (decide (k0 = k)) as [->|Hne].
  - rewrite !bool_decide_true; [done|by eauto|done].
  - rewrite !(bool_decide_false (k0 = k)) by done.
    destruct (bool_decide (is_Some (Od.get d k))); simpl; f_equal; exact IH.
Qed.

Lemma od_keys_set_elem d k v k' :
  k' ∈ Od.keys (Od.set d k v) ↔ k' = k ∨ k' ∈ Od.keys d.
Proof.
  rewrite od_keys_set. unfold Od.has. case_bool_decide as H.
  - apply od_keys_get in H. split; [by right|]. by intros [->|?].
  - rewrite elem_of_app, list_elem_of_singleton. tauto.
Qed.

Lemma od_keys_set_nodup d k v : NoDup (Od.keys d) → NoDup (Od.keys (Od.set d k v)).
Proof.
  intros Hd. rewrite od_keys_set. unfold Od.has. case_bool_decide as H; [done|].
  apply NoDup_app. split; [done|]. split; [|apply NoDup_singleton].
  intros x Hx Hx'. apply list_elem_of_singleton in Hx' as ->.
  by apply H, od_keys_get.
Qed.
End od_keys.

Section grouping.
Context {A : Type} (key : A → string).

Lemma group_get (l : list A) :
  ∀ (d : Od.odict (list A)) (k : string),
    default [] (Od.get (foldl (fun d x => Od.append d (key x) x) d l) k)
    = default [] (Od.get d k) ++ group_of key k l.
Proof.
  unfold group_of. induction l as [|x l IH]; intros d k; simpl.
  - by rewrite app_nil_r.
  - rewrite IH, od_get_append. rewrite filter_cons.
    destruct (decide (key x = k)) as [->|Hne]; simpl.
    + by rewrite <- app_assoc.
    + done.
Qed.

Lemma group_keys (l : list A) :
  ∀ (d : Od.odict (list A)) (k : string),
    k ∈ Od.keys (foldl (fun d x => Od.append d (key x) x) d l)
    ↔ k ∈ Od.keys d ∨ ∃ x, x ∈ l ∧ key x = k.
Proof.
  induction l as [|x l IH]; intros d k; simpl.
  - split; [by left|]. intros [?|(x & Hx & _)]; [done|by apply elem_of_nil in Hx].
  - rewrite IH. unfold Od.append. rewrite od_keys_set_elem. split.
    + intros [[->|?]|(y & Hy & Hk)].
      * right. exists x. split; [left|done].
      * by left.
      * right. exists y. split; [by right|done].
    + intros [?|(y & Hy & Hk)]; [by left; right|].
      apply elem_of_cons in Hy as [->|Hy]; [by left; left|].
      right. by exists y.
Qed.

Lemma group_keys_nodup (l : list A) :
  ∀ d : Od.odict (list A),
    NoDup (Od.keys d) → NoDup (Od.keys (foldl (fun d x => Od.append d (key x) x) d l)).
Proof.
  induction l as [|x l IH]; intros d Hd; simpl; [done|].
  apply IH. by apply od_keys_set_nodup.
Qed.
End grouping.

(** X8: [render] files every record under exactly one system, the first
    segment of its path, or [.] for a path without a separator: the list
    filed under a key is the sequence of input records with that key, in
    input order; no key occurs twice and every key has a record. *)
Theorem group_systems_groups (files : list FileRecord) :
  (∀ k, default [] (Od.get (group_systems files) k)
        = group_of (fun f => system_of (path_of f)) k files)
  ∧ NoDup (Od.keys (group_systems files))
  ∧ (∀ k, k ∈ Od.keys (group_systems files)
          ↔ ∃ f, f ∈ files ∧ system_of (path_of f) = k).
Proof.
  unfold group_systems. split; [|split].
  - intros k. by rewrite (group_get (fun f => system_of (path_of f))).
  - apply (group_keys_nodup (fun f => system_of (path_of f))). constructor.
  - intros k. rewrite (group_keys (fun f => system_of (path_of f))).
    split; [intros [H|H]; [by apply elem_of_nil in H|done]|by right].
Qed.

(** X9: [build_dependency_chains] returns the records grouped by the first
    segment of their path, whatever [internal_deps] is: the list filed under
    a key is the sequence of input records with that first segment, in input
    order; no key occurs twice and every key has a record. *)
Theorem build_dependency_chains_groups (files : list FileRecord)
    (internal_deps : Od.odict (list string)) :
  (∀ k, default [] (Od.get (build_dependency_chains files internal_deps) k)
        = group_of (fun f => first_part (path_of f)) k files)
  ∧ NoDup (Od.keys (build_dependency_chains files internal_deps))
  ∧ (∀ k, k ∈ Od.keys (build_dependency_chains files internal_deps)
          ↔ ∃ f, f ∈ files ∧ first_part (path_of f) = k).
Proof.
  unfold build_dependency_chains. split; [|split].
  - intros k. by rewrite (group_get (fun f => first_part (path_of f))).
  - apply (group_keys_nodup (fun f => first_part (path_of f))). constructor.
  - intros k. rewrite (group_keys (fun f => first_part (path_of f))).
    split; [intros [H|H]; [by apply elem_of_nil in H|done]|by right].
Qed.

(** X10: the two groupings agree on a path with a separator and differ on a
    top-level file: [render] files it under [.], while
    [build_dependency_chains] files it under its own name. *)
Theorem top_level_file_keys (path : string) :
  let p := Py.replace "\" "/" path in
  if Py.contains "/" p
  then system_of path = first_part path
  else system_of path = "." ∧ first_part path = p.
Proof.
  intros p. unfold system_of, first_part, path_parts. fold p.
  destruct (Py.contains "/" p) eqn:E.
  - destruct (split_sep _ _ E) as (h & x & t & ->). done.
  - by rewrite (split_no_sep _ _ E).
Qed.

(** ** [find_internal_deps]: where an edge comes from, and when there is one *)

Lemma foldl_reach {A B} (P : A → Prop) (f : A → B → A) (l : list B) (x : B) :
  x ∈ l → (∀ a, P (f a x)) → (∀ a y, P a → P (f a y)) → ∀ a, P (foldl f a l).
Proof.
  intros Hx Hat Hkeep. induction l as [|y l IH]; intros a; simpl.
  - by apply elem_of_nil in Hx.
  - apply elem_of_cons in Hx as [<-|Hx].
    + apply foldl_invariant; [apply Hat|]. intros a' z _. apply Hkeep.
    + by apply IH.
Qed.

Section deps_edges.
Variable files : list FileRecord.

(** The index files each record under the key of its basename. *)
Lemma build_index_keyed_gen (l : list FileRecord) idx :
  (∀ name cands tp tg, Od.get idx name = Some cands → (tp, tg) ∈ cands →
     normalize_basename (Py.basename tp) = name) →
  ∀ name cands tp tg,
    Od.get (foldl index_file idx l) name = Some cands → (tp, tg) ∈ cands →
    normalize_basename (Py.basename tp) = name.
Proof.
  intros H0.
  apply (foldl_invariant
           (fun idx => ∀ name cands tp tg, Od.get idx name = Some cands →
              (tp, tg) ∈ cands → normalize_basename (Py.basename tp) = name));
    [done|].
  intros idx' f _ Hidx name cands tp tg Hget Hin.
  unfold index_file in Hget. rewrite od_get_append in Hget.
  case_decide as Hk; [|by eapply Hidx].
  injection Hget as <-. apply elem_of_app in Hin as [Hin|Hin].
  - destruct (Od.get idx' _) as [c|] eqn:E; simpl in Hin.
    + subst name. by eapply Hidx.
    + by apply elem_of_nil in Hin.
  - apply list_elem_of_singleton in Hin. by injection Hin as -> ->.
Qed.

Lemma build_index_keyed name cands tp tg :
  Od.get (build_index files) name = Some cands → (tp, tg) ∈ cands →
  normalize_basename (Py.basename tp) = name.
Proof. apply build_index_keyed_gen. intros ? ? ? ? ?. discriminate. Qed.

(** Every record of the input is in the index, under its key. *)
Lemma build_index_complete g :
  g ∈ files →
  ∃ cands,
    Od.get (build_index files) (normalize_basename (Py.basename (path_of g)))
    = Some cands
    ∧ (path_of g, lang_group (language_of g)) ∈ cands.
Proof.
  intros Hg. unfold build_index.
  apply (foldl_reach
           (fun idx => ∃ cands,
              Od.get idx (normalize_basename (Py.basename (path_of g))) = Some cands
              ∧ (path_of g, lang_group (language_of g)) ∈ cands)
           index_file files g Hg).
  - intros idx. unfold index_file. rewrite od_get_append, decide_True by done.
    eexists. split; [done|]. apply elem_of_app. right. left.
  - intros idx f (cands & Hget & Hin). unfold index_file. rewrite od_get_append.
    case_decide as Hk; [|by eauto].
    eexists. split; [done|]. rewrite Hk, Hget. simpl.
    apply elem_of_app. by left.
Qed.

(** What is known of every entry of the dictionary under construction. *)
Lemma add_candidate_edges (P : string → string → Prop) f deps cand :
  (∀ p l, Od.get deps p = Some l → l ≠ [] ∧ ∀ t, t ∈ l → P p t) →
  (cand.1 ≠ path_of f →
   lang_group (language_of f) = cand.2 →
   Py.basename cand.1 ≠ Py.basename (path_of f) →
   P (path_of f) (Py.basename cand.1)) →
  ∀ p l,
    Od.get (add_candidate (path_of f) (lang_group (language_of f))
              (Py.basename (path_of f)) deps cand) p = Some l →
    l ≠ [] ∧ ∀ t, t ∈ l → P p t.
Proof.
  intros Hdeps Hnew. destruct cand as [tp tg]; simpl in *.
  unfold add_candidate.
  case_bool_decide as H1; [done|].
  case_bool_decide as H2; simpl; [|done].
  case_bool_decide as H3; [done|].
  destruct (Od.get deps (path_of f)) as [l0|] eqn:E.
  - assert (Ht : Od.touch [] deps (path_of f) = deps).
    { unfold Od.touch. by rewrite E. }
    rewrite Ht, E. simpl. unfold Py.mem. case_bool_decide as H4; [done|].
    intros p l. rewrite od_get_append. case_decide as Hp; [|by apply Hdeps].
    subst p. rewrite E. simpl. intros [= <-]. split; [by destruct l0|].
    intros t Ht'. apply elem_of_app in Ht' as [Ht'|Ht'].
    + by apply (Hdeps _ _ E).
    + apply list_elem_of_singleton in Ht' as ->. by apply Hnew.
  - assert (Hg : Od.get (Od.touch [] deps (path_of f)) (path_of f) = Some []).
    { rewrite od_get_touch, decide_True by done. by rewrite E. }
    rewrite Hg. simpl.
    intros p l. rewrite od_get_append. case_decide as Hp.
    + subst p. rewrite Hg. simpl. intros [= <-]. split; [done|].
      intros t Ht'. apply list_elem_of_singleton in Ht' as ->. by apply Hnew.
    + rewrite od_get_touch, decide_False by done. by apply Hdeps.
Qed.

(** An edge of the dictionary: [t] is listed under [p] because a record
    filed under [p] has an import whose normalised name is the key of a
    record [g] with basename [t], in the same language group, under another
    path, and the name is not one of the standard-library names. *)
Lemma find_internal_deps_edges :
  ∀ p l, Od.get (find_internal_deps files) p = Some l →
    l ≠ []
    ∧ ∀ t, t ∈ l →
        ∃ f imp g,
          f ∈ files ∧ path_of f = p ∧ imp ∈ imports_of f
          ∧ g ∈ files ∧ Py.basename (path_of g) = t
          ∧ normalize_basename (Py.basename (path_of g))
            = normalize_import imp (language_of f)
          ∧ (normalize_import imp (language_of f) ∉ stdlib_names)
          ∧ path_of g ≠ p
          ∧ lang_group (language_of g) = lang_group (language_of f).
Proof.
  set (P := fun p t =>
          ∃ f imp g,
            f ∈ files ∧ path_of f = p ∧ imp ∈ imports_of f
            ∧ g ∈ files ∧ Py.basename (path_of g) = t
            ∧ normalize_basename (Py.basename (path_of g))
              = normalize_import imp (language_of f)
            ∧ (normalize_import imp (language_of f) ∉ stdlib_names)
            ∧ path_of g ≠ p
            ∧ lang_group (language_of g) = lang_group (language_of f)).
  unfold find_internal_deps.
  apply (foldl_invariant
           (fun deps => ∀ p l, Od.get deps p = Some l →
              l ≠ [] ∧ ∀ t, t ∈ l → P p t)).
  { intros p l Hget. discriminate. }
  intros deps f Hf Hdeps. unfold add_file.
  apply (foldl_invariant
           (fun deps => ∀ p l, Od.get deps p = Some l →
              l ≠ [] ∧ ∀ t, t ∈ l → P p t)); [done|].
  intros deps' imp Himp Hd. unfold add_import.
  destruct (_ && _); [done|].
  destruct (Py.mem _ stdlib_names) eqn:Hstd; [done|].
  destruct (Od.get (build_index files) _) as [cands|] eqn:E; [|done].
  apply (foldl_invariant
           (fun deps => ∀ p l, Od.get deps p = Some l →
              l ≠ [] ∧ ∀ t, t ∈ l → P p t)); [done|].
  intros deps'' [tp tg] Hin Hd'. apply (add_candidate_edges P f); [done|].
  simpl. intros Hne Hgrp Hbase.
  destruct (build_index_ok files _ _ E tp tg Hin) as (g & Hg & Hgp & Hgg).
  exists f, imp, g. subst tp tg.
  split; [done|]. split; [done|]. split; [done|]. split; [done|]. split; [done|].
  split; [by eapply build_index_keyed|].
  split; [|done]. unfold Py.mem in Hstd. by apply bool_decide_eq_false in Hstd.
Qed.
End deps_edges.

(** X11: every key of the dependency map is the path of an input record
    that has imports, and the list under a key is never empty: a path is
    filed only at the moment its first target is appended. *)
Theorem find_internal_deps_entries (files : list FileRecord) (p : string)
    (l : list string) :
  Od.get (find_internal_deps files) p = Some l →
  l ≠ [] ∧ ∃ f, f ∈ files ∧ path_of f = p ∧ imports_of f ≠ [].
Proof.
  intros Hget. destruct (find_internal_deps_edges files p l Hget) as [Hne Hl].
  split; [done|]. destruct l as [|t l]; [done|].
  destruct (Hl t ltac:(left)) as (f & imp & g & Hf & Hp & Himp & _).
  exists f. split; [done|]. split; [done|]. intros E. rewrite E in Himp.
  by apply elem_of_nil in Himp.
Qed.

Lemma find_internal_deps_entries_witness :
  Od.get (find_internal_deps scenario1) "a.py" = Some ["b.py"]
  ∧ ["b.py"] ≠ []
  ∧ ∃ f, f ∈ scenario1 ∧ path_of f = "a.py" ∧ imports_of f ≠ [].
Proof.
  split; [reflexivity|].
  apply (find_internal_deps_entries scenario1 "a.py" ["b.py"]). reflexivity.
Defined.

(** X12: every target [t] listed for a path [p] is backed by an import: some
    record filed under [p] has an import whose normalised name is the index
    key of a record with basename [t], that record is in the same language
    group and under another path, and the normalised name is not a
    standard-library name. *)
Theorem dependency_has_import (files : list FileRecord) (p t : string) :
  t ∈ dependency_map files p →
  ∃ f imp g,
    f ∈ files ∧ path_of f = p ∧ imp ∈ imports_of f
    ∧ g ∈ files ∧ Py.basename (path_of g) = t
    ∧ normalize_basename (Py.basename (path_of g))
      = normalize_import imp (language_of f)
    ∧ (normalize_import imp (language_of f) ∉ stdlib_names)
    ∧ path_of g ≠ p
    ∧ lang_group (language_of g) = lang_group (language_of f).
Proof.
  unfold dependency_map.
  destruct (Od.get (find_internal_deps files) p) as [l|] eqn:E; simpl.
  - intros Ht. by apply (find_internal_deps_edges files p l E).
  - intros Ht. by apply elem_of_nil in Ht.
Qed.

Lemma dependency_has_import_witness :
  "b.py" ∈ dependency_map scenario1 "a.py"
  ∧ ∃ f imp g,
      f ∈ scenario1 ∧ path_of f = "a.py" ∧ imp ∈ imports_of f
      ∧ g ∈ scenario1 ∧ Py.basename (path_of g) = "b.py"
      ∧ normalize_basename (Py.basename (path_of g))
        = normalize_import imp (language_of f)
      ∧ (normalize_import imp (language_of f) ∉ stdlib_names)
      ∧ path_of g ≠ "a.py"
      ∧ lang_group (language_of g) = lang_group (language_of f).
Proof.
  assert (H : "b.py" ∈ dependency_map scenario1 "a.py")
    by (apply (bool_decide_unpack _); vm_compute; exact I).
  split; [exact H|]. exact (dependency_has_import scenario1 "a.py" "b.py" H).
Defined.

(** *** A matching import always gives the edge *)

Lemma stdlib_names_unquoted :
  Forall (fun w => Py.strip quote_chars w = w) stdlib_names.
Proof. repeat constructor. Qed.

(** The first test of the loop body skips nothing the second would keep. *)
Lemma bare_stdlib_import (imp lang : string) :
  Py.contains "/" imp = false → Py.contains "." imp = false →
  Py.mem (Py.lower imp) stdlib_names = true →
  Py.mem (normalize_import imp lang) stdlib_names = true.
Proof.
  intros Hs Hd Hm. rewrite normalize_import_no_dot by done. cbv zeta.
  rewrite (contains_strip "/" quote_chars imp Hs), <- strip_lower.
  unfold Py.mem in *. apply bool_decide_eq_true in Hm. apply bool_decide_eq_true.
  pose proof stdlib_names_unquoted as H. rewrite Forall_forall in H.
  by rewrite (H _ Hm).
Qed.

Lemma add_candidate_keeps (path src_group src_basename : string)
    (deps : Od.odict (list string)) (cand : string * string) (p t : string) :
  t ∈ default [] (Od.get deps p) →
  t ∈ default [] (Od.get (add_candidate path src_group src_basename deps cand) p).
Proof.
  intros Ht. destruct cand as [tp tg]. unfold add_candidate.
  destruct (bool_decide (tp = path)); [done|].
  destruct (negb _); [done|].
  destruct (bool_decide (Py.basename tp = src_basename)); [done|].
  assert (Ht' : t ∈ default [] (Od.get (Od.touch [] deps path) p)).
  { rewrite od_get_touch. case_decide as Hp; [|done]. by subst p. }
  destruct (Py.mem _ _); [done|].
  rewrite od_get_append. case_decide as Hp; [|done]. subst p. simpl.
  apply elem_of_app. by left.
Qed.

Lemma add_candidate_adds (path src_group src_basename : string)
    (deps : Od.odict (list string)) (tp tg : string) :
  tp ≠ path → src_group = tg → Py.basename tp ≠ src_basename →
  Py.basename tp
  ∈ default [] (Od.get (add_candidate path src_group src_basename deps (tp, tg)) path).
Proof.
  intros H1 H2 H3. unfold add_candidate.
  rewrite (bool_decide_false (tp = path)) by done.
  rewrite (bool_decide_true (src_group = tg)) by done. simpl.
  rewrite (bool_decide_false (Py.basename tp = src_basename)) by done.
  unfold Py.mem. case_bool_decide as H4.
  - destruct (Od.get (Od.touch [] deps path) path); [done|].
    by apply elem_of_nil in H4.
  - rewrite od_get_append, decide_True by done. simpl.
    apply elem_of_app. right. left.
Qed.

Lemma add_import_keeps idx (path src_lang src_group : string)
    (deps : Od.odict (list string)) (imp p t : string) :
  t ∈ default [] (Od.get deps p) →
  t ∈ default [] (Od.get (add_import idx path src_lang src_group deps imp) p).
Proof.
  intros Ht. unfold add_import.
  destruct (_ && _); [done|].
  destruct (Py.mem _ _); [done|].
  destruct (Od.get idx _) as [cands|]; [|done].
  apply (foldl_invariant (fun deps => t ∈ default [] (Od.get deps p))); [done|].
  intros deps' cand _ Hd. by apply add_candidate_keeps.
Qed.

Lemma add_file_keeps idx (deps : Od.odict (list string)) (f : FileRecord)
    (p t : string) :
  t ∈ default [] (Od.get deps p) →
  t ∈ default [] (Od.get (add_file idx deps f) p).
Proof.
  intros Ht. unfold add_file.
  apply (foldl_invariant (fun deps => t ∈ default [] (Od.get deps p))); [done|].
  intros deps' imp _ Hd. by apply add_import_keeps.
Qed.

(** X13: an import that names a project file gives the edge.  If a record
    [f] of the input has an import whose normalised name is not a
    standard-library name and is the index key of a record [g] of the input,
    [g] is under another path, in the language group of [f], and has another
    basename, then the basename of [g] is listed for the path of [f]. *)
Theorem import_gives_dependency (files : list FileRecord) (f g : FileRecord)
    (imp : string) :
  f ∈ files → imp ∈ imports_of f → g ∈ files →
  normalize_import imp (language_of f) ∉ stdlib_names →
  normalize_basename (Py.basename (path_of g)) = normalize_import imp (language_of f) →
  path_of g ≠ path_of f →
  lang_group (language_of g) = lang_group (language_of f) →
  Py.basename (path_of g) ≠ Py.basename (path_of f) →
  Py.basename (path_of g) ∈ dependency_map files (path_of f).
Proof.
  intros Hf Himp Hg Hstd Hkey Hpath Hgroup Hbase.
  unfold dependency_map, find_internal_deps.
  set (M := fun deps : Od.odict (list string) =>
              Py.basename (path_of g) ∈ default [] (Od.get deps (path_of f))).
  apply (foldl_reach M (add_file (build_index files)) files f Hf);
    [|intros deps f' Hd; by apply add_file_keeps].
  intros deps. unfold add_file.
  apply (foldl_reach M _ (imports_of f) imp Himp);
    [|intros deps' imp' Hd; by apply add_import_keeps].
  intros deps'. unfold add_import.
  assert (Hstd' : Py.mem (normalize_import imp (language_of f)) stdlib_names = false).
  { unfold Py.mem. by apply bool_decide_eq_false. }
  destruct (negb (Py.contains "/" imp) && negb (Py.contains "." imp)
            && Py.mem (Py.lower imp) stdlib_names) eqn:Hbare.
  { apply andb_true_iff in Hbare as [Hbare Hm].
    apply andb_true_iff in Hbare as [Hs Hd].
    apply negb_true_iff in Hs, Hd.
    by rewrite (bare_stdlib_import imp (language_of f) Hs Hd Hm) in Hstd'. }
  rewrite Hstd'.
  destruct (build_index_complete files g Hg) as (cands & Hget & Hin).
  rewrite <- Hkey, Hget.
  apply (foldl_reach M _ cands _ Hin);
    [|intros deps'' cand Hd; by apply add_candidate_keeps].
  intros deps''. by apply add_candidate_adds.
Qed.

Lemma import_gives_dependency_witness :
  Py.basename "b.py" ∈ dependency_map scenario1 "a.py".
Proof.
  apply (import_gives_dependency scenario1
           (mkFile (Some "a.py") (Some "python") (Some ["b"]) None)
           (mkFile (Some "b.py") (Some "python") (Some []) None) "b").
  - left.
  - left.
  - right. left.
  - apply (bool_decide_unpack _). vm_compute. exact I.
  - reflexivity.
  - discriminate.
  - reflexivity.
  - discriminate.
Defined.

(** ** [get_external_uses] *)

Lemma foldl_reach_inv {A B} (I P : A → Prop) (f : A → B → A) (l : list B) (x : B) :
  x ∈ l →
  (∀ a y, I a → I (f a y)) →
  (∀ a, I a → P (f a x)) →
  (∀ a y, I a → P a → P (f a y)) →
  ∀ a, I a → P (foldl f a l).
Proof.
  intros Hx HI Hat Hkeep. induction l as [|y l IH]; intros a Ha; simpl.
  - by apply elem_of_nil in Hx.
  - apply elem_of_cons in Hx as [<-|Hx]; [|by apply IH, HI].
    apply (foldl_invariant (fun a => I a ∧ P a)).
    + split; [by apply HI|by apply Hat].
    + intros a' z _ [Hi Hp]. split; [by apply HI|by apply Hkeep].
Qed.

(** The loop keeps [seen] equal to [external], without duplicates. *)
Lemma external_step_seen (lang : string) (internal_names : list string)
    (st : list string * list string) (imp : string) :
  st.2 = st.1 ∧ NoDup st.1 →
  (external_step lang internal_names st imp).2
  = (external_step lang internal_names st imp).1
  ∧ NoDup (external_step lang internal_names st imp).1.
Proof.
  destruct st as [external seen]. simpl. intros [-> Hnd].
  destruct (_ && _); [|done].
  unfold Py.mem. case_bool_decide as Hin; simpl; [done|].
  split; [done|]. apply NoDup_app. split; [done|]. split; [|apply NoDup_singleton].
  intros x Hx Hx'. apply list_elem_of_singleton in Hx' as ->. done.
Qed.

(** X14: the external uses of a record are exactly the normalised names of
    its imports that are not internal names, not in the standard-library
    table of the function, and longer than one character; no name is listed
    twice. *)
Theorem get_external_uses_spec (f : FileRecord) (internal_names : list string) :
  NoDup (get_external_uses f internal_names)
  ∧ ∀ x, x ∈ get_external_uses f internal_names
         ↔ ∃ imp, imp ∈ imports_of f
                  ∧ x = normalize_import imp (language_of f)
                  ∧ (x ∉ internal_names) ∧ (x ∉ uses_stdlib)
                  ∧ 1 < String.length x.
Proof.
  unfold get_external_uses.
  set (step := external_step (language_of f) internal_names).
  set (I := fun st : list string * list string => st.2 = st.1 ∧ NoDup st.1).
  assert (HI : ∀ st imp, I st → I (step st imp)).
  { intros st imp. apply external_step_seen. }
  assert (H0 : I ([], [])) by (split; [done|constructor]).
  split; [|intros x; split].
  - apply (foldl_invariant I); [done|]. intros st imp _. apply HI.
  - revert x.
    apply (foldl_invariant
             (fun st : list string * list string =>
                ∀ x, x ∈ st.1 →
                  ∃ imp, imp ∈ imports_of f
                         ∧ x = normalize_import imp (language_of f)
                         ∧ (x ∉ internal_names) ∧ (x ∉ uses_stdlib)
                         ∧ 1 < String.length x)).
    { intros x Hx. by apply elem_of_nil in Hx. }
    intros [external seen] imp Himp Hst x. unfold step, external_step.
    destruct (negb (Py.mem _ internal_names) && negb (Py.mem _ uses_stdlib)
              && (1 <? _)) eqn:Hok; [|by apply Hst].
    destruct (negb (Py.mem _ seen)); [|by apply Hst].
    simpl. intros Hx. apply elem_of_app in Hx as [Hx|Hx]; [by apply Hst|].
    apply list_elem_of_singleton in Hx as ->. exists imp.
    apply andb_true_iff in Hok as [Hok Hlen].
    apply andb_true_iff in Hok as [Hint Hstd].
    apply negb_true_iff in Hint, Hstd. unfold Py.mem in Hint, Hstd.
    apply bool_decide_eq_false in Hint, Hstd. apply Nat.ltb_lt in Hlen.
    done.
  - intros (imp & Himp & -> & Hint & Hstd & Hlen).
    apply (foldl_reach_inv I
             (fun st => normalize_import imp (language_of f) ∈ st.1)
             step (imports_of f) imp Himp HI); [| |done].
    + intros [external seen] [Hseen _]. simpl in Hseen. subst seen.
      unfold step, external_step. unfold Py.mem.
      rewrite (bool_decide_false (_ ∈ internal_names)) by done.
      rewrite (bool_decide_false (_ ∈ uses_stdlib)) by done.
      rewrite (proj2 (Nat.ltb_lt _ _)) by done. simpl.
      case_bool_decide as Hin; simpl; [done|].
      apply elem_of_app. right. left.
    + intros [external seen] imp' _ Hin. unfold step, external_step. simpl in *.
      destruct (_ && _); [|done]. destruct (negb _); [|done].
      simpl. apply elem_of_app. by left.
Qed.

(** ** The keys: [normalize_import] and the extension of a basename *)

Lemma contains_strip_trailing_ext_lf (c : ascii) (s : string) :
  c ≠ Py.LF → Py.contains c s = false →
  Py.contains c (strip_trailing_ext_lf s) = false.
Proof.
  intros Hc. induction s as [|a s IH]; [done|].
  intros H. simpl in H. apply orb_false_iff in H as [Ha Hs].
  rewrite strip_trailing_ext_lf_cons.
  destruct (_ && _); [done|]. destruct (_ && _).
  - simpl. by rewrite bool_decide_false by congruence.
  - simpl. by rewrite Ha, IH.
Qed.

Lemma dot_mark : "."%char ∈ marks.
Proof. left. Qed.

Lemma slash_mark : "/"%char ∈ marks.
Proof. right. left. Qed.

Lemma startswith_lower_dot (s : string) :
  Py.startswith "." (Py.lower s) = Py.startswith "." s.
Proof.
  destruct s as [|a s]; [done|]. simpl. apply chr_lower_mark, dot_mark.
Qed.

(** X15: the key [normalize_import] returns has no slash and is in lower
    case, and it has a dot only when it starts with one: every dotted module
    path is reduced to its last component, and only a relative import keeps
    its dots. *)
Theorem normalize_import_key (imp lang : string) :
  let key := normalize_import imp lang in
  Py.contains "/" key = false
  ∧ Py.lower key = key
  ∧ (Py.contains "." key = true → Py.startswith "." key = true).
Proof.
  intros key. unfold key, normalize_import. rewrite !last_split, sub_known_ext.
  set (s1 := Py.strip quote_chars imp).
  set (s2 := if Py.contains "/" s1 then after_last "/" s1 else s1).
  assert (H2 : Py.contains "/" s2 = false).
  { unfold s2. destruct (Py.contains "/" s1) eqn:E; [|done]. apply after_last_no_more. }
  set (s3 := if Py.contains "." s2 && negb (Py.startswith "." s2)
             then after_last "." s2 else s2).
  assert (H3 : Py.contains "/" s3 = false).
  { unfold s3. destruct (_ && _); [|done]. by apply contains_after_last. }
  assert (H3' : Py.contains "." s3 = false ∨ Py.startswith "." s3 = true).
  { unfold s3. destruct (Py.contains "." s2) eqn:Ed; [|by left].
    destruct (Py.startswith "." s2) eqn:Es; simpl; [by right|].
    left. apply after_last_no_more. }
  split; [|split].
  - rewrite contains_lower by apply slash_mark.
    by apply contains_strip_trailing_ext_lf.
  - apply lower_idem.
  - rewrite contains_lower by apply dot_mark.
    rewrite startswith_lower_dot.
    destruct H3' as [Hno|Hdot].
    + by rewrite contains_strip_trailing_ext_lf.
    + destruct s3 as [|a r]; [done|]. simpl in Hdot.
      rewrite strip_trailing_ext_lf_cons.
      destruct (_ && _); [done|]. destruct (_ && _); [done|].
      intros _. done.
Qed.

(** *** The pattern that takes the extension off a basename *)

Lemma at_eol_dot (b ext : string) : Re.at_eol (b +:+ "." +:+ ext) = false.
Proof.
  destruct b as [|x b]; [by destruct ext|].
  destruct b as [|y b]; done.
Qed.

Lemma last_ext_match (pos : nat) (a : ascii) (t : string) :
  Re.match_at re_last_ext pos (String a t)
  = if bool_decide (a = "."%char)
    then Re.plus_greedy (Re.CNot ["."%char]) (S pos) t
           (fun pos' s' => if Re.at_eol s' then take_rest pos' s' else None)
    else None.
Proof. reflexivity. Qed.

(** From a dot that is not the last one the pattern cannot reach the end. *)
Lemma plus_greedy_blocked (pos : nat) (b ext : string) :
  Re.plus_greedy (Re.CNot ["."%char]) pos (b +:+ "." +:+ ext)
    (fun pos' s' => if Re.at_eol s' then take_rest pos' s' else None) = None.
Proof.
  revert pos. induction b as [|c b IH]; intros pos; [reflexivity|].
  change (String c b +:+ "." +:+ ext) with (String c (b +:+ "." +:+ ext)).
  change (Re.plus_greedy ?c0 pos (String c ?t) ?k)
    with (if Re.cls_ok c0 c
          then match Re.plus_greedy c0 (S pos) t k with
               | Some rest => Some rest
               | None => k (S pos) t
               end
          else None).
  destruct (Re.cls_ok _ c); [|done]. cbv beta.
  by rewrite IH, at_eol_dot.
Qed.

Lemma sub_from_last_ext (ext : string) :
  Py.contains "." ext = false →
  ∀ (base : string) (pos : nat),
    Re.sub_from re_last_ext pos 0 (base +:+ "." +:+ ext)
    = match ext with "" => base +:+ "." | _ => base end.
Proof.
  intros Hext. induction base as [|a base IH]; intros pos.
  - change ("" +:+ "." +:+ ext) with (String "." ext).
    rewrite sub_from_cons, last_ext_match. rewrite bool_decide_true by done.
    destruct ext as [|e ext]; [done|].
    rewrite plus_greedy_to_end by done.
    rewrite Nat.sub_0_r. apply sub_from_skip_all.
  - change (String a base +:+ "." +:+ ext) with (String a (base +:+ "." +:+ ext)).
    rewrite sub_from_cons, last_ext_match.
    destruct (bool_decide (a = "."%char)).
    + rewrite plus_greedy_blocked, IH. by destruct ext.
    + rewrite IH. by destruct ext.
Qed.

(** X16: taking the extension off removes exactly the last dot and what
    follows it: for every [base] and every non-empty [ext] without a dot,
    [base.ext] gives [base], also when [base] has dots of its own or is
    empty (a dot-file gives the empty string); the index key of such a
    basename is [base] in lower case. *)
Theorem strip_ext_last_extension (base ext : string) :
  ext ≠ "" → Py.contains "." ext = false →
  strip_ext (base +:+ "." +:+ ext) = base
  ∧ normalize_basename (base +:+ "." +:+ ext) = Py.lower base.
Proof.
  intros Hne Hext. unfold normalize_basename, strip_ext, Re.sub.
  rewrite (sub_from_last_ext ext Hext). by destruct ext.
Qed.

Lemma strip_ext_last_extension_witness :
  "gz" ≠ "" ∧ Py.contains "." "gz" = false
  ∧ strip_ext ("Archive.tar" +:+ "." +:+ "gz") = "Archive.tar"
  ∧ normalize_basename ("Archive.tar" +:+ "." +:+ "gz") = Py.lower "Archive.tar".
Proof.
  split; [discriminate|]. split; [reflexivity|].
  apply (strip_ext_last_extension "Archive.tar" "gz"); [discriminate|reflexivity].
Defined.

(** X17: a basename without an extension is left as it is: one without a
    dot, and one that ends in a dot. *)
Theorem strip_ext_no_extension (s : string) :
  (Py.contains "." s = false → strip_ext s = s)
  ∧ strip_ext (s +:+ ".") = s +:+ ".".
Proof.
  split.
  - intros H. by apply sub_without_first_char.
  - unfold strip_ext, Re.sub.
    replace (s +:+ ".") with (s +:+ "." +:+ "") by done.
    by rewrite (sub_from_last_ext "" eq_refl).
Qed.

(** ** [render]: the incoming counts *)

Lemma sum_values_incr (d : Od.odict nat) (k : string) :
  sum_list (Od.values (Od.incr d k)) = sum_list (Od.values d) + 1.
Proof.
  unfold Od.incr, Od.values. induction d as [|[k0 v0] d IH]; simpl; [done|].
  destruct (bool_decide (k0 = k)); simpl; [lia|].
  change (list_fmap _ _ snd ?l) with (l.*2). rewrite IH. lia.
Qed.

Lemma sum_values_incr_loop (targets : list string) :
  ∀ d : Od.odict nat,
    sum_list (Od.values (foldl Od.incr d targets))
    = sum_list (Od.values d) + length targets.
Proof.
  induction targets as [|t targets IH]; intros d; simpl; [lia|].
  rewrite IH, sum_values_incr. lia.
Qed.

Lemma count_deps_sum (internal_deps : Od.odict (list string)) :
  ∀ dc : Od.odict nat,
    sum_list (Od.values
                (foldl (fun dep_counts entry => foldl Od.incr dep_counts entry.2)
                   dc internal_deps))
    = sum_list (Od.values dc)
      + sum_list (map (fun e : string * list string => length e.2) internal_deps).
Proof.
  induction internal_deps as [|[p l] d IH]; intros dc; simpl; [lia|].
  rewrite IH, sum_values_incr_loop. lia.
Qed.

Lemma lengths_of_values (d : Od.odict (list string)) :
  map length (Od.values d) = map (fun e : string * list string => length e.2) d.
Proof. unfold Od.values. induction d as [|e d IH]; simpl; [done|]. by f_equal. Qed.

(** X18: the incoming counts add up to the number of edges: the sum of
    [dep_counts] over all targets is the number the summary line prints as
    [deps], the total length of the dependency lists. *)
Theorem dep_counts_total (internal_deps : Od.odict (list string)) :
  sum_list (Od.values (count_deps internal_deps))
  = sum_list (map length (Od.values internal_deps)).
Proof. unfold count_deps. by rewrite count_deps_sum, lengths_of_values. Qed.

Lemma od_get_incr (d : Od.odict nat) (k k' : string) :
  default 0 (Od.get (Od.incr d k) k')
  = default 0 (Od.get d k') + (if decide (k = k') then 1 else 0).
Proof.
  unfold Od.incr. rewrite od_get_set. case_decide as H; [subst; simpl|]; lia.
Qed.

Lemma od_get_incr_loop (targets : list string) (t : string) :
  ∀ d : Od.odict nat,
    default 0 (Od.get (foldl Od.incr d targets) t)
    = default 0 (Od.get d t) + length (filter (fun x => x = t) targets).
Proof.
  induction targets as [|x targets IH]; intros d; simpl; [lia|].
  rewrite IH, od_get_incr, filter_cons. case_decide; simpl; lia.
Qed.

Lemma count_deps_get (internal_deps : Od.odict (list string)) (t : string) :
  default 0 (Od.get (count_deps internal_deps) t)
  = sum_list (map (fun e : string * list string =>
                     length (filter (fun x => x = t) e.2)) internal_deps).
Proof.
  unfold count_deps.
  enough (H : ∀ dc : Od.odict nat,
            default 0 (Od.get (foldl (fun dep_counts entry =>
                                        foldl Od.incr dep_counts entry.2)
                                 dc internal_deps) t)
            = default 0 (Od.get dc t)
              + sum_list (map (fun e : string * list string =>
                                 length (filter (fun x => x = t) e.2)) internal_deps)).
  { by rewrite H. }
  induction internal_deps as [|[p l] d IH]; intros dc; simpl; [lia|].
  rewrite IH, od_get_incr_loop. lia.
Qed.

Lemma nodup_count (l : list string) (t : string) :
  NoDup l → length (filter (fun x => x = t) l) = if decide (t ∈ l) then 1 else 0.
Proof.
  induction 1 as [|x l Hx Hl IH].
  - by rewrite decide_False by apply not_elem_of_nil.
  - rewrite filter_cons. destruct (decide (x = t)) as [->|Hne]; simpl; rewrite IH.
    + rewrite decide_False by done. by rewrite decide_True by left.
    + destruct (decide (t ∈ l)) as [Hin|Hin].
      * by rewrite decide_True by (by right).
      * rewrite decide_False; [done|]. rewrite elem_of_cons. intros [?|?]; congruence.
Qed.

Lemma od_elem_get {V} (d : Od.odict V) (k : string) (v : V) :
  NoDup (Od.keys d) → (k, v) ∈ d → Od.get d k = Some v.
Proof.
  unfold Od.keys. induction d as [|[k0 v0] d IH]; simpl; intros Hnd Hin.
  - by apply elem_of_nil in Hin.
  - apply NoDup_cons in Hnd as [Hk0 Hnd].
    apply elem_of_cons in Hin as [[= -> ->]|Hin].
    + by rewrite bool_decide_true.
    + rewrite bool_decide_false; [by apply IH|].
      intros ->. apply Hk0. apply list_elem_of_fmap. by exists (k, v).
Qed.

Lemma od_keys_touch_nodup {V} (dflt : V) (d : Od.odict V) (k : string) :
  NoDup (Od.keys d) → NoDup (Od.keys (Od.touch dflt d k)).
Proof.
  intros H. unfold Od.touch. destruct (Od.get d k); [done|].
  by apply od_keys_set_nodup.
Qed.

Lemma find_internal_deps_keys_nodup (files : list FileRecord) :
  NoDup (Od.keys (find_internal_deps files)).
Proof.
  unfold find_internal_deps.
  apply (foldl_invariant (fun deps => NoDup (Od.keys deps))); [constructor|].
  intros deps f _ Hd. unfold add_file.
  apply (foldl_invariant (fun deps => NoDup (Od.keys deps))); [done|].
  intros deps' imp _ Hd'. unfold add_import.
  destruct (_ && _); [done|]. destruct (Py.mem _ _); [done|].
  destruct (Od.get _ _) as [cands|]; [|done].
  apply (foldl_invariant (fun deps => NoDup (Od.keys deps))); [done|].
  intros deps'' [tp tg] _ Hd''. unfold add_candidate.
  destruct (bool_decide _); [done|]. destruct (negb _); [done|].
  destruct (bool_decide _); [done|].
  destruct (Py.mem _ _); [by apply od_keys_touch_nodup|].
  unfold Od.append. by apply od_keys_set_nodup, od_keys_touch_nodup.
Qed.

(** X19: the count [render] keeps for a target is the number of paths
    whose dependency list names it: each list names a target at most once,
    so an entry with count [n] has [n] different dependents. *)
Theorem dep_count_is_dependents (files : list FileRecord) (t : string) :
  default 0 (Od.get (count_deps (find_internal_deps files)) t)
  = length (filter (fun e : string * list string => t ∈ e.2)
              (find_internal_deps files)).
Proof.
  rewrite count_deps_get.
  pose proof (find_internal_deps_keys_nodup files) as Hkeys.
  pose proof (find_internal_deps_ok files) as Hok.
  assert (Hall : Forall (fun e : string * list string => NoDup e.2)
                   (find_internal_deps files)).
  { apply Forall_forall. intros [p l] Hin. simpl.
    by destruct (Hok p l (od_elem_get _ _ _ Hkeys Hin)) as (? & _). }
  clear Hkeys Hok. induction Hall as [|[p l] d Hl Hd IH]; [done|].
  unfold Od.odict in *. rewrite filter_cons. cbn [map sum_list snd].
  rewrite IH, nodup_count by done.
  by destruct (decide (t ∈ l)).
Qed.

(** ** [render]: which targets the HUBS line leaves out *)

Lemma by_count_desc_total (x y : string * nat) :
  by_count_desc x y = true ∨ by_count_desc y x = true.
Proof. unfold by_count_desc. rewrite !Nat.leb_le. lia. Qed.

Lemma by_count_desc_trans (x y z : string * nat) :
  by_count_desc x y = true → by_count_desc y z = true → by_count_desc x z = true.
Proof. unfold by_count_desc. rewrite !Nat.leb_le. lia. Qed.

(** X20: the hub list is the top of the counts: a target of [dep_counts]
    is left off only when fewer than two paths depend on it, or when six
    other entries have at least as many dependents. *)
Theorem hubs_are_the_top (dep_counts : Od.odict nat) (e : string * nat) :
  e ∈ dep_counts →
  e ∈ compute_hubs dep_counts
  ∨ e.2 < 2
  ∨ ∃ top, length top = 6 ∧ top ++ [e] ⊆+ dep_counts
           ∧ ∀ h, h ∈ top → e.2 ≤ h.2.
Proof.
  intros He. unfold compute_hubs.
  set (sorted := Py.sorted by_count_desc dep_counts).
  assert (Hperm : sorted ≡ₚ dep_counts) by apply sorted_perm.
  assert (Hsorted : StronglySorted (fun a b => by_count_desc a b = true) sorted).
  { apply sorted_sorted; [apply by_count_desc_total|apply by_count_desc_trans]. }
  assert (He' : e ∈ sorted) by by rewrite Hperm.
  rewrite <- (take_drop 6 sorted) in He', Hsorted, Hperm.
  apply elem_of_app in He' as [Htop|Hrest].
  - destruct (decide (2 ≤ e.2)) as [Hc|Hc]; [|right; left; lia].
    left. apply list_elem_of_filter. split; [|done].
    apply Is_true_true. by apply Nat.leb_le.
  - right. right. exists (take 6 sorted). split; [|split].
    + rewrite length_take. apply list_elem_of_lookup in Hrest as (i & Hi).
      apply lookup_lt_Some in Hi. rewrite length_drop in Hi. lia.
    + rewrite <- Hperm. apply submseteq_skips_l. by apply singleton_submseteq_l.
    + intros h Hh.
      pose proof (StronglySorted_app_1_elem_of _ _ _ h e Hsorted Hh Hrest) as H.
      unfold by_count_desc in H. by apply Nat.leb_le in H.
Qed.

Lemma hubs_are_the_top_witness :
  ("b.py", 1) ∈ count_deps (find_internal_deps scenario1)
  ∧ (("b.py", 1) ∈ compute_hubs (count_deps (find_internal_deps scenario1))
     ∨ ("b.py", 1).2 < 2
     ∨ ∃ top, length top = 6
              ∧ top ++ [("b.py", 1)] ⊆+ count_deps (find_internal_deps scenario1)
              ∧ ∀ h, h ∈ top → ("b.py", 1).2 ≤ h.2).
Proof.
  assert (H : ("b.py", 1) ∈ count_deps (find_internal_deps scenario1))
    by (apply (bool_decide_unpack _); vm_compute; exact I).
  split; [exact H|].
  exact (hubs_are_the_top (count_deps (find_internal_deps scenario1)) ("b.py", 1) H).
Defined.

(** ** [render]: the header panel *)

(** *** The names listed for a language *)

Lemma ext_name_step_inv (Q : string → Prop) (d : string)
    (st : list string * list string) :
  (ext_name_ok (ext_name d) = true → Q (ext_name d)) →
  st.2 = st.1 ∧ NoDup st.1 ∧ (∀ n, n ∈ st.1 → Q n) →
  (ext_name_step st d).2 = (ext_name_step st d).1
  ∧ NoDup (ext_name_step st d).1
  ∧ (∀ n, n ∈ (ext_name_step st d).1 → Q n).
Proof.
  destruct st as [names seen]. simpl. intros HQ (-> & Hnd & Hall).
  destruct (ext_name_ok (ext_name d)) eqn:Hok; [|done].
  unfold Py.mem. case_bool_decide as Hin; simpl; [done|].
  split; [done|]. split.
  - apply NoDup_app. split; [done|]. split; [|apply NoDup_singleton].
    intros x Hx Hx'. by apply list_elem_of_singleton in Hx' as ->.
  - intros n Hn. apply elem_of_app in Hn as [Hn|Hn]; [by apply Hall|].
    apply list_elem_of_singleton in Hn as ->. by apply HQ.
Qed.

Lemma ext_names_inv (deps : list string) :
  let names := (foldl ext_name_step ([], []) deps).1 in
  NoDup names
  ∧ ∀ n, n ∈ names →
      1 < String.length n ∧ Re.matches re_version n = false
      ∧ ∃ d, d ∈ deps ∧ n = ext_name d.
Proof.
  set (Q := fun n => 1 < String.length n ∧ Re.matches re_version n = false
                     ∧ ∃ d, d ∈ deps ∧ n = ext_name d).
  enough (H : (foldl ext_name_step ([], []) deps).2
              = (foldl ext_name_step ([], []) deps).1
              ∧ NoDup (foldl ext_name_step ([], []) deps).1
              ∧ ∀ n, n ∈ (foldl ext_name_step ([], []) deps).1 → Q n).
  { by destruct H as (_ & ? & ?). }
  apply (foldl_invariant
           (fun st : list string * list string =>
              st.2 = st.1 ∧ NoDup st.1 ∧ ∀ n, n ∈ st.1 → Q n)).
  { split; [done|]. split; [constructor|]. intros n Hn. by apply elem_of_nil in Hn. }
  intros st d Hd Hst. apply ext_name_step_inv; [|done].
  unfold ext_name_ok. intros Hok. apply andb_true_iff in Hok as [Hv Hlen].
  apply negb_true_iff in Hv. apply Nat.ltb_lt in Hlen.
  split; [done|]. split; [done|]. by exists d.
Qed.

Lemma ext_by_lang_step_cases (E : Od.odict (list string)) (lang : string)
    (deps : list string) :
  ext_by_lang_step E (lang, deps) = E
  ∨ ∃ n ns, (foldl ext_name_step ([], []) deps).1 = n :: ns
            ∧ ext_by_lang_step E (lang, deps) = Od.set E lang (n :: ns).
Proof.
  unfold ext_by_lang_step. destruct deps as [|d deps]; [by left|].
  destruct (foldl ext_name_step ([], []) (d :: deps)).1 as [|n ns]; [by left|].
  right. by exists n, ns.
Qed.

(** X21: a language is listed in the header only with names: the list kept
    for it is never empty and has no duplicate, and every name in it is
    longer than one character, is not a version segment such as [v2], and is
    the last path segment of one of the language's dependency paths, or the
    segment before a final version segment. *)
Theorem ext_by_lang_names (external_deps_data : Od.odict (list string))
    (lang : string) (names : list string) :
  Od.get (build_ext_by_lang external_deps_data) lang = Some names →
  names ≠ [] ∧ NoDup names
  ∧ ∀ n, n ∈ names →
      1 < String.length n ∧ Re.matches re_version n = false
      ∧ ∃ deps d, (lang, deps) ∈ external_deps_data ∧ d ∈ deps ∧ n = ext_name d.
Proof.
  unfold build_ext_by_lang. revert lang names.
  apply (foldl_invariant
           (fun E : Od.odict (list string) =>
              ∀ lang names, Od.get E lang = Some names →
                names ≠ [] ∧ NoDup names
                ∧ ∀ n, n ∈ names →
                    1 < String.length n ∧ Re.matches re_version n = false
                    ∧ ∃ deps d, (lang, deps) ∈ external_deps_data
                                ∧ d ∈ deps ∧ n = ext_name d)).
  { intros lang names H. discriminate. }
  intros E [lang0 deps] Hin HE lang names.
  destruct (ext_by_lang_step_cases E lang0 deps) as [->|(n0 & ns & Hnames & ->)];
    [by apply HE|].
  pose proof (ext_names_inv deps) as [Hnd Hall]. rewrite Hnames in Hnd, Hall.
  rewrite od_get_set. case_decide as Hl; [|by apply HE].
  intros [= <-]. subst lang0. split; [done|]. split; [done|].
  intros n Hn. destruct (Hall n Hn) as (H1 & H2 & d & Hd & ->).
  split; [done|]. split; [done|]. by exists deps, d.
Qed.

Lemma ext_by_lang_names_witness :
  Od.get (build_ext_by_lang [("go", ["github.com/spf13/cobra"; "gopkg.in/yaml.v3/v3"])])
    "go" = Some ["cobra"; "yaml.v3"]
  ∧ ["cobra"; "yaml.v3"] ≠ [] ∧ NoDup ["cobra"; "yaml.v3"]
  ∧ ∀ n, n ∈ ["cobra"; "yaml.v3"] →
      1 < String.length n ∧ Re.matches re_version n = false
      ∧ ∃ deps d,
          ("go", deps) ∈ [("go", ["github.com/spf13/cobra"; "gopkg.in/yaml.v3/v3"])]
          ∧ d ∈ deps ∧ n = ext_name d.
Proof.
  split; [reflexivity|].
  apply (ext_by_lang_names
           [("go", ["github.com/spf13/cobra"; "gopkg.in/yaml.v3/v3"])] "go").
  reflexivity.
Defined.

(** *** The wrapped rows *)

Lemma prefix_length (sub s : string) :
  String.prefix sub s = true → String.length sub ≤ String.length s.
Proof.
  intros H. apply prefix_split in H.
  assert (Hl := f_equal String.length H). rewrite string_length_app in Hl. lia.
Qed.

Lemma rfind_bound (sub s : string) (i : nat) :
  Py.rfind sub s = Some i → i + String.length sub ≤ String.length s.
Proof.
  revert i. induction s as [|a s IH]; intros i H.
  - simpl in H. destruct sub; [|done]. injection H as <-. done.
  - rewrite rfind_cons in H. destruct (Py.rfind sub s) as [j|] eqn:E.
    + injection H as <-. specialize (IH j eq_refl). simpl. lia.
    + destruct (String.prefix sub (String a s)) eqn:Hp; [|done].
      injection H as <-. by apply prefix_length in Hp.
Qed.

Lemma length_ljust_fits (w : nat) (s : string) :
  String.length s ≤ w → String.length (Py.ljust w s) = w.
Proof. intros H. rewrite length_ljust. lia. Qed.

(** X22: every row the header prints for a dependency line has exactly
    [content_width] characters between its two borders, whatever the line:
    a piece is cut at most [content_width] characters long and is padded on
    the right, so the right border of the panel stays in one column. *)
Theorem wrap_dep_line_rows (fuel content_width : nat) (line : string) :
  Forall (fun row => ∃ text, row = "│ " +:+ text +:+ " │"
                             ∧ String.length text = content_width)
         (wrap_dep_line fuel content_width line).
Proof.
  revert line. induction fuel as [|fuel IH]; intros line.
  - simpl. destruct (Nat.ltb_spec content_width (String.length line)); [done|].
    constructor; [|done]. eexists. split; [done|]. by apply length_ljust_fits.
  - destruct (Nat.ltb_spec content_width (String.length line)) as [Hlt|Hge].
    + rewrite wrap_dep_line_step by done. constructor; [|apply IH].
      eexists. split; [done|]. apply length_ljust_fits.
      rewrite string_length_take.
      destruct (Py.rfind ", " (Py.take content_width line)) as [i|] eqn:E; [|lia].
      apply rfind_bound in E. rewrite string_length_take in E. simpl in E. lia.
    + simpl. rewrite (proj2 (Nat.ltb_ge _ _)) by done.
      constructor; [|done]. eexists. split; [done|]. by apply length_ljust_fits.
Qed.

(** *** The wrapping loop ends *)

Lemma wrap_dep_line_wraps (content_width : nat) :
  5 < content_width →
  ∀ fuel line,
    Py.contains "," (Py.take 3 line) = false →
    String.length line ≤ fuel →
    wraps content_width line (wrap_dep_line fuel content_width line).
Proof.
  intros Hcw. induction fuel as [|fuel IH]; intros line Hno Hf.
  - destruct line; [|simpl in Hf; lia]. simpl. apply wraps_done. simpl. lia.
  - destruct (Nat.ltb_spec content_width (String.length line)) as [Hlt|Hge].
    + rewrite wrap_dep_line_step by done.
      destruct (next_line_shorter content_width line Hcw Hlt Hno) as [Hs Hno'].
      apply wraps_step; [done|]. apply IH; [done|lia].
    + simpl. rewrite (proj2 (Nat.ltb_ge _ _)) by done. by apply wraps_done.
Qed.

(** X23: in [render] the loop that wraps a dependency line of the header
    always ends: the panel is at least 24 wide and every line starts with a
    label, so each round shortens the line; the rows are those the loop
    prints until the line fits. *)
Theorem header_wrap_ends (external_deps_data : Od.odict (list string))
    (project_name : string) :
  let title := project_name +:+ " - Dependency Flow" in
  let st := foldl (dep_line_step (build_ext_by_lang external_deps_data))
              ([], String.length title + 6) lang_order in
  let content_width := Nat.min st.2 80 - 2 - 2 in
  19 < content_width
  ∧ Forall (fun line =>
              wraps content_width line
                (wrap_dep_line (String.length line) content_width line)) st.1.
Proof.
  intros title st content_width.
  destruct (dep_lines_invariant (build_ext_by_lang external_deps_data) lang_order
              ltac:(done) [] (String.length title + 6) ltac:(constructor))
    as [Hlines Hwidth].
  fold st in Hlines, Hwidth.
  assert (Hcw : 19 < content_width).
  { unfold content_width, title in *. rewrite string_length_app in Hwidth.
    simpl in Hwidth. lia. }
  split; [done|].
  eapply Forall_impl; [exact Hlines|]. intros line Hline.
  apply wrap_dep_line_wraps; [lia|done|done].
Qed.

(** ** [create_box_lines]: the width of the [uses:] lines *)

Lemma uses_loop_fit (inner : Z) (Q : string → Prop) (external : list string) :
  (∀ line addition, Q line →
     (Py.len line + Py.len addition <=? inner)%Z = true → Q (line +:+ addition)) →
  (∀ dep, dep ∈ external → Q ("      " +:+ dep)) →
  ∀ (i : nat) (lines : list string) (cur : string),
    Forall Q lines → Q cur →
    Forall Q (uses_loop inner i external lines cur).1
    ∧ Q (uses_loop inner i external lines cur).2.
Proof.
  intros Hadd. induction external as [|dep rest IH]; intros Hnew i lines cur Hl Hc.
  - done.
  - simpl. destruct (_ <=? _)%Z eqn:E.
    + apply IH; [|done|by apply Hadd]. intros d Hd. apply Hnew. by right.
    + apply IH.
      * intros d Hd. apply Hnew. by right.
      * apply Forall_app. split; [done|]. by constructor.
      * apply Hnew. left.
Qed.

(** X24: after the title, the rule and the function lines, the box content
    holds the lines of the external uses: none when there is no external
    name, otherwise a blank line first; and for an inner width of at least 6
    each of these lines fits the inner width, unless it is a continuation
    line that holds a single name too long for it. *)
Theorem create_box_lines_uses (path : string) (functions external : list string)
    (width : Z) :
  (10 ≤ width)%Z →
  ∃ uses,
    create_box_lines path functions external width
    = [truncate_with_ellipsis (Py.basename path) (width - 4);
       Py.repeat_z "─" (width - 4)]
      ++ function_lines functions ++ uses
    ∧ (external = [] → uses = [])
    ∧ (external ≠ [] → head uses = Some "")
    ∧ Forall (fun line =>
                (Py.len line ≤ width - 4)%Z
                ∨ ∃ dep, dep ∈ external ∧ line = "      " +:+ dep) uses.
Proof.
  intros Hw. exists (uses_lines (width - 4) external).
  split; [apply create_box_lines_parts|].
  unfold uses_lines. destruct external as [|d0 rest] eqn:Hext; [done|].
  rewrite <- Hext. split; [by rewrite Hext|].
  set (Q := fun line => (Py.len line ≤ width - 4)%Z
                        ∨ ∃ dep, dep ∈ external ∧ line = "      " +:+ dep).
  pose proof (uses_loop_app (width - 4) external 0 [""] [] "uses: ") as Happ.
  simpl app in Happ.
  destruct (uses_loop_fit (width - 4) Q external) with (i := 0) (lines := [""])
    (cur := "uses: ") as [Hlines Hcur].
  - intros line addition [Hfit|(dep & Hd & ->)] Hle.
    + left. apply Z.leb_le in Hle. unfold Py.len in *.
      rewrite string_length_app. lia.
    + left. apply Z.leb_le in Hle. unfold Py.len in *.
      rewrite string_length_app. lia.
  - intros dep Hd. right. by exists dep.
  - constructor; [|done]. left. unfold Py.len. simpl. lia.
  - left. unfold Py.len. simpl. lia.
  - destruct (uses_loop (width - 4) 0 external [""] "uses: ") as [lines cur] eqn:E.
    simpl in *. split.
    + intros _. injection Happ as Hl _. rewrite Hl.
      by destruct (Py.is_empty _).
    + destruct (Py.is_empty _); [done|]. apply Forall_app. split; [done|].
      by constructor.
Qed.

Lemma create_box_lines_uses_witness :
  (10 ≤ 34)%Z
  ∧ ∃ uses,
      create_box_lines "src/a.py" ["f"] ["requests"; "numpy"] 34
      = [truncate_with_ellipsis (Py.basename "src/a.py") (34 - 4);
         Py.repeat_z "─" (34 - 4)]
        ++ function_lines ["f"] ++ uses
      ∧ (["requests"; "numpy"] = [] → uses = [])
      ∧ (["requests"; "numpy"] ≠ [] → head uses = Some "")
      ∧ Forall (fun line =>
                  (Py.len line ≤ 34 - 4)%Z
                  ∨ ∃ dep, dep ∈ ["requests"; "numpy"] ∧ line = "      " +:+ dep) uses.
Proof.
  split; [lia|].
  apply (create_box_lines_uses "src/a.py" ["f"] ["requests"; "numpy"] 34). lia.
Defined.

(** ** [render]: the order of the systems *)

Lemma string_compare_trans (a : string) :
  ∀ b c, String.compare a b ≠ Gt → String.compare b c ≠ Gt → String.compare a c ≠ Gt.
Proof.
  induction a as [|x a IH]; intros [|y b] [|z c]; simpl; try done.
  unfold Ascii.compare.
  destruct (N.compare_spec (N_of_ascii x) (N_of_ascii y)) as [Exy|Exy|Exy]; [| |done];
    destruct (N.compare_spec (N_of_ascii y) (N_of_ascii z)) as [Eyz|Eyz|Eyz];
    try done; intros H1 H2.
  - rewrite Exy, Eyz, N.compare_refl. by eapply IH.
  - by rewrite (proj2 (N.compare_lt_iff _ _)) by lia.
  - by rewrite (proj2 (N.compare_lt_iff _ _)) by lia.
  - by rewrite (proj2 (N.compare_lt_iff _ _)) by lia.
Qed.

Lemma string_leb_trans (a b c : string) :
  String.leb a b = true → String.leb b c = true → String.leb a c = true.
Proof.
  unfold String.leb. intros H1 H2.
  pose proof (string_compare_trans a b c) as H.
  destruct (String.compare a b), (String.compare b c), (String.compare a c);
    try done; exfalso; by apply H.
Qed.

(** X25: [render] goes through the systems in ascending order of their
    keys, each key once: the sequence it iterates is sorted, without
    repetition, and holds exactly the keys of the records. *)
Theorem systems_in_order (files : list FileRecord) :
  let order := Py.sorted String.leb (Od.keys (group_systems files)) in
  StronglySorted (fun a b => String.leb a b = true ∧ a ≠ b) order
  ∧ ∀ k, k ∈ order ↔ ∃ f, f ∈ files ∧ system_of (path_of f) = k.
Proof.
  intros order.
  assert (Hperm : order ≡ₚ Od.keys (group_systems files)) by apply sorted_perm.
  assert (Hnd : NoDup order).
  { rewrite Hperm. unfold group_systems.
    apply (group_keys_nodup (fun f => system_of (path_of f))). constructor. }
  assert (Hs : StronglySorted (fun a b => String.leb a b = true) order).
  { apply sorted_sorted; [apply String.leb_total|apply string_leb_trans]. }
  split.
  - clear Hperm. induction Hs as [|x l Hl IH Hx]; [constructor|].
    apply NoDup_cons in Hnd as [Hxl Hnd]. constructor; [by apply IH|].
    rewrite Forall_forall in *. intros y Hy. split; [by apply Hx|].
    intros ->. done.
  - intros k. rewrite Hperm. unfold group_systems.
    rewrite (group_keys (fun f => system_of (path_of f))).
    split; [intros [H|H]; [by apply elem_of_nil in H|done]|by right].
Qed.

(** ** Language groups *)

Lemma lang_group_cases (lang : string) :
  lang_group lang ∈ Od.values LANG_GROUPS ∨ lang_group lang = lang.
Proof.
  unfold lang_group, LANG_GROUPS. simpl.
  repeat (case_bool_decide;
          [left; apply (bool_decide_unpack _); vm_compute; exact I|]).
  by right.
Qed.

(** X26: a language group is its own group: grouping twice is grouping
    once, for the languages of the table and for every other tag, so the
    comparison of two groups never depends on how often [LANG_GROUPS] was
    applied. *)
Theorem lang_group_idempotent (lang : string) :
  lang_group (lang_group lang) = lang_group lang.
Proof.
  destruct (lang_group_cases lang) as [H|H]; [|by rewrite !H].
  unfold Od.values, LANG_GROUPS in H. simpl in H.
  repeat (apply elem_of_cons in H as [->|H]); try by apply elem_of_nil in H.
  all: reflexivity.
Qed.

(** ** [render]: the title row of the header *)

Lemma center_left_le (marg w : nat) :
  marg / 2 + (if Nat.odd marg && Nat.odd w then 1 else 0) ≤ marg.
Proof.
  destruct marg as [|m]; [done|].
  pose proof (Nat.div_lt (S m) 2 ltac:(lia) ltac:(lia)) as H.
  destruct (Nat.odd (S m) && Nat.odd w); lia.
Qed.

Lemma length_center (w : nat) (s : string) :
  String.length (Py.center w s) = Nat.max w (String.length s).
Proof.
  unfold Py.center. rewrite !string_length_app, !length_repeat_space.
  pose proof (center_left_le (w - String.length s) w). lia.
Qed.

(** X27: for a project name of at most 60 characters the title row of the
    header is as wide as the panel: between its two borders it has exactly
    [inner_width] characters, the number of dashes in the top border. *)
Theorem header_title_row (external_deps_data : Od.odict (list string))
    (project_name : string) :
  String.length project_name ≤ 60 →
  let title := project_name +:+ " - Dependency Flow" in
  let st := foldl (dep_line_step (build_ext_by_lang external_deps_data))
              ([], String.length title + 6) lang_order in
  let inner_width := Nat.min st.2 80 - 2 in
  ∃ text rest,
    render_header external_deps_data project_name
    = "" :: ("╭" +:+ Py.repeat "─" inner_width +:+ "╮")
         :: ("│" +:+ text +:+ "│") :: rest
    ∧ String.length text = inner_width.
Proof.
  intros Hlen title st inner_width.
  destruct (dep_lines_invariant (build_ext_by_lang external_deps_data) lang_order
              ltac:(done) [] (String.length title + 6) ltac:(constructor))
    as [_ Hwidth].
  fold st in Hwidth.
  assert (Htitle : String.length title = String.length project_name + 18).
  { unfold title. by rewrite string_length_app. }
  unfold render_header. fold title. fold st. destruct st as [dep_lines max_width].
  simpl in Hwidth, inner_width. fold inner_width.
  eexists _, _. split; [reflexivity|].
  rewrite length_center. unfold inner_width. lia.
Qed.

Lemma header_title_row_witness :
  String.length "codemap" ≤ 60
  ∧ ∃ text rest,
      render_header [] "codemap"
      = "" :: ("╭" +:+ Py.repeat "─"
                        (Nat.min (foldl (dep_line_step (build_ext_by_lang []))
                                    ([], String.length ("codemap" +:+ " - Dependency Flow") + 6)
                                    lang_order).2 80 - 2) +:+ "╮")
           :: ("│" +:+ text +:+ "│") :: rest
      ∧ String.length text
        = Nat.min (foldl (dep_line_step (build_ext_by_lang []))
                     ([], String.length ("codemap" +:+ " - Dependency Flow") + 6)
                     lang_order).2 80 - 2.
Proof.
  split; [simpl; lia|]. apply (header_title_row [] "codemap"). simpl. lia.
Defined.

(** X30: a longer project name overflows the panel: the width is capped at
    80, so the borders have 78 dashes, while the title row holds the whole
    title, which is longer. *)
Theorem header_title_overflow (external_deps_data : Od.odict (list string))
    (project_name : string) :
  60 < String.length project_name →
  let title := project_name +:+ " - Dependency Flow" in
  ∃ rest,
    render_header external_deps_data project_name
    = "" :: ("╭" +:+ Py.repeat "─" 78 +:+ "╮")
         :: ("│" +:+ title +:+ "│") :: rest
    ∧ 78 < String.length title.
Proof.
  intros Hlen title.
  destruct (dep_lines_invariant (build_ext_by_lang external_deps_data) lang_order
              ltac:(done) [] (String.length title + 6) ltac:(constructor))
    as [_ Hwidth].
  assert (Htitle : String.length title = String.length project_name + 18).
  { unfold title. by rewrite string_length_app. }
  unfold render_header. fold title.
  destruct (foldl _ _ lang_order) as [dep_lines max_width]. simpl in Hwidth.
  replace (Nat.min max_width 80 - 2) with 78 by lia.
  assert (Hc : Py.center 78 title = title).
  { unfold Py.center. replace (78 - String.length title) with 0 by lia.
    simpl. apply string_app_nil_r. }
  rewrite Hc. eexists. split; [reflexivity|lia].
Qed.

Lemma header_title_overflow_witness :
  60 < String.length (Py.repeat "x" 61)
  ∧ ∃ rest,
      render_header [] (Py.repeat "x" 61)
      = "" :: ("╭" +:+ Py.repeat "─" 78 +:+ "╮")
           :: ("│" +:+ (Py.repeat "x" 61 +:+ " - Dependency Flow") +:+ "│") :: rest
      ∧ 78 < String.length (Py.repeat "x" 61 +:+ " - Dependency Flow").
Proof.
  assert (H : 60 < String.length (Py.repeat "x" 61)) by (vm_compute; lia).
  split; [exact H|]. exact (header_title_overflow [] (Py.repeat "x" 61) H).
Defined.

(** ** [render]: which files of a system are drawn *)

Lemma render_file_rendered (files : list FileRecord) (idv : Od.odict (list string))
    (sys_files : list FileRecord) :
  let rendered := (foldl (render_file files idv) ([], []) sys_files).1 in
  NoDup rendered
  ∧ ∀ b, b ∈ rendered
         ↔ ∃ f, f ∈ sys_files ∧ Py.basename (path_of f) = b
                ∧ default [] (Od.get idv (path_of f)) ≠ [].
Proof.
  intros rendered. unfold rendered. clear rendered.
  set (has := fun f b => Py.basename (path_of f) = b
                         ∧ default [] (Od.get idv (path_of f)) ≠ []).
  change (NoDup (foldl (render_file files idv) ([], []) sys_files).1
          ∧ ∀ b, b ∈ (foldl (render_file files idv) ([], []) sys_files).1
                 ↔ ∃ f, f ∈ sys_files ∧ has f b).
  enough (H : ∀ st : list string * list string,
            NoDup st.1 →
            NoDup (foldl (render_file files idv) st sys_files).1
            ∧ ∀ b, b ∈ (foldl (render_file files idv) st sys_files).1
                   ↔ b ∈ st.1 ∨ ∃ f, f ∈ sys_files ∧ has f b).
  { destruct (H ([], []) ltac:(constructor)) as [Hnd Hiff]. split; [done|].
    intros b. rewrite Hiff. simpl. split; [|by right].
    intros [Hb|?]; [by apply elem_of_nil in Hb|done]. }
  induction sys_files as [|f l IH]; intros [rendered out] Hnd.
  - simpl. split; [done|]. intros b. split; [by left|].
    intros [?|(f & Hf & _)]; [done|by apply elem_of_nil in Hf].
  - rewrite foldl_cons, render_file_eq.
    destruct (Py.mem (Py.basename (path_of f)) rendered) eqn:Em.
    + destruct (IH (rendered, out) Hnd) as [H1 H2]. split; [done|].
      intros b. rewrite H2. simpl. split.
      * intros [?|(g & Hg & Hh)]; [by left|]. right. exists g. split; [by right|done].
      * intros [?|(g & Hg & Hh)]; [by left|].
        apply elem_of_cons in Hg as [->|Hg]; [|right; by exists g].
        left. destruct Hh as [<- _]. unfold Py.mem in Em.
        by apply bool_decide_eq_true in Em.
    + destruct (default [] (Od.get idv (path_of f))) as [|t ts] eqn:Et.
      * destruct (IH (rendered, out) Hnd) as [H1 H2]. split; [done|].
        intros b. rewrite H2. simpl. split.
        -- intros [?|(g & Hg & Hh)]; [by left|]. right. exists g.
           split; [by right|done].
        -- intros [?|(g & Hg & Hh)]; [by left|].
           apply elem_of_cons in Hg as [->|Hg]; [|right; by exists g].
           destruct Hh as [_ Hh]. by rewrite Et in Hh.
      * unfold Py.mem in Em. apply bool_decide_eq_false in Em.
        destruct (IH (rendered ++ [Py.basename (path_of f)],
                      out ++ render_chain files idv
                               (strip_ext (Py.basename (path_of f))) (t :: ts)))
          as [H1 H2].
        { simpl. apply NoDup_app. split; [done|]. split; [|apply NoDup_singleton].
          intros x Hx Hx'. by apply list_elem_of_singleton in Hx' as ->. }
        split; [done|]. intros b. rewrite H2. simpl.
        rewrite elem_of_app, list_elem_of_singleton. split.
        -- intros [[?| ->]|(g & Hg & Hh)].
           ++ by left.
           ++ right. exists f. split; [left|]. split; [done|]. by rewrite Et.
           ++ right. exists g. split; [by right|done].
        -- intros [?|(g & Hg & Hh)]; [by left; left|].
           apply elem_of_cons in Hg as [->|Hg]; [|right; by exists g].
           left. right. by destruct Hh as [<- _].
Qed.

(** X28: in a system, the basenames marked as rendered are exactly the
    basenames of its files that have dependency targets, each marked once;
    so a file with targets is never counted as standalone, also when the
    chain that was drawn belongs to another file with the same basename. *)
Theorem rendered_files (files : list FileRecord) (internal_deps : Od.odict (list string))
    (sys_files : list FileRecord) :
  let rendered := (foldl (render_file files internal_deps) ([], []) sys_files).1 in
  NoDup rendered
  ∧ (∀ b, b ∈ rendered
          ↔ ∃ f, f ∈ sys_files ∧ Py.basename (path_of f) = b
                 ∧ default [] (Od.get internal_deps (path_of f)) ≠ [])
  ∧ ∀ f, f ∈ sys_files →
      default [] (Od.get internal_deps (path_of f)) ≠ [] →
      negb (Py.mem (Py.basename (path_of f)) rendered)
      && negb (bool_decide (functions_of f = [])) = false.
Proof.
  intros rendered.
  destruct (render_file_rendered files internal_deps sys_files) as [Hnd Hiff].
  fold rendered in Hnd, Hiff. split; [done|]. split; [done|].
  intros f Hf Ht. unfold Py.mem. rewrite bool_decide_true; [done|].
  apply Hiff. by exists f.
Qed.
